(** * E-commerce user behaviour dashboard: RFM aggregation and segmentation

    A shallow embedding of [Ecommerce_User_Behavior_Analysis_Dashboard.py].

    The script is a straight-line Streamlit program.  Its data frames are
    modelled as lists of records, [groupby] as a one-pass insertion into a
    key-sorted list of non-empty groups, and the top level as a program in a
    small monad that appends rendered elements to the page and may raise the
    exceptions of the library calls it makes.

    Conventions.
    - An [int32]/[int64] column is a [Z]; a timestamp is its epoch second
      (the loader reads seconds and [pd.to_datetime(..., unit='s')] keeps
      them).
    - The arithmetic of the [float64] columns is a parameter of the model
      (class [Arith]), with two instances: IEEE binary64, which is what the
      script computes with, and exact rationals, in which the algebraic laws
      hold.
    - [NaT] (the maximum of an empty datetime series) is [None].
    - The k-means iterations of [sklearn] are a parameter of the model, a
      function of the number of clusters, the random generator and the
      data; the state of numpy's process-wide generator is an input of a
      run. *)

From Stdlib Require Import ZArith QArith Qround String List Bool.
From Stdlib Require Import Permutation Sorted Lia Lqa Floats Uint63.
Import ListNotations.

(* Decimal float literals stand for the nearest binary64 value, as in Python. *)
Set Warnings "-inexact-float".

Local Open Scope Z_scope.

(** ** Arithmetic of the float columns *)

Class Arith (F : Type) := {
  of_int : Z -> F;
  fadd : F -> F -> F;
  fsub : F -> F -> F;
  fmul : F -> F -> F;
  fdiv : F -> F -> F;
  fltb : F -> F -> bool;
  frint : F -> F
}.

Declare Scope arith_scope.
Delimit Scope arith_scope with arith.
Infix "+" := fadd : arith_scope.
Infix "-" := fsub : arith_scope.
Infix "*" := fmul : arith_scope.
Infix "/" := fdiv : arith_scope.

(** [numpy.nanmin] and [numpy.nanmax] of two values (there is no NaN in the
    columns of the script). *)
Definition fmin {F} `{Arith F} (a b : F) : F := if fltb b a then b else a.
Definition fmax {F} `{Arith F} (a b : F) : F := if fltb a b then b else a.

(** *** Exact rationals *)

Definition Qltb (a b : Q) : bool := negb (Qle_bool b a).

(** Round half to even, as [numpy.rint]. *)
Definition Qrint (x : Q) : Z :=
  let f := Qfloor x in
  match ((x - inject_Z f) ?= (1 # 2))%Q with
  | Lt => f
  | Gt => f + 1
  | Eq => if Z.even f then f else f + 1
  end.

#[export] Instance Exact : Arith Q := {|
  of_int := inject_Z;
  fadd := Qplus;
  fsub := Qminus;
  fmul := Qmult;
  fdiv := Qdiv;
  fltb := Qltb;
  frint := fun x => inject_Z (Qrint x)
|}.

(** The sum of a list of rationals. *)
Definition Qsum (xs : list Q) : Q := fold_right Qplus 0%Q xs.

(** *** IEEE binary64 *)

(** Conversion of an integer below 2^63 in absolute value, as the script's
    counts and day numbers are. *)
Definition float_of_Z (z : Z) : float :=
  match z with
  | Z0 => 0%float
  | Zpos _ => PrimFloat.of_uint63 (Uint63.of_Z z)
  | Zneg p => (- PrimFloat.of_uint63 (Uint63.of_Z (Zpos p)))%float
  end.

(** Rounding to an integer in the current (nearest-even) mode, for values
    below 2^51 in absolute value. *)
Definition float_rint (x : float) : float :=
  if PrimFloat.ltb x 0%float
  then ((x - 0x1p+52) + 0x1p+52)%float
  else ((x + 0x1p+52) - 0x1p+52)%float.

#[export] Instance Binary64 : Arith float := {|
  of_int := float_of_Z;
  fadd := PrimFloat.add;
  fsub := PrimFloat.sub;
  fmul := PrimFloat.mul;
  fdiv := PrimFloat.div;
  fltb := PrimFloat.ltb;
  frint := float_rint
|}.

(** ** Data model *)

(** One row of the input file (lines 29-37 of the script). *)
Record BehaviorRecord := mkBehavior {
  user_id : Z;
  item_id : Z;
  item_category : Z;
  behavior_type : string;
  timestamp : Z
}.

Definition DataFrame := list BehaviorRecord.

(** One row of [rfm] after line 66. *)
Record RFMRow (F : Type) := mkRFM {
  rfm_user_id : Z;
  last_purchase_date : Z;
  frequency : Z;
  recency : Z;
  monetary : F
}.

Arguments mkRFM {F}.
Arguments rfm_user_id {F}.
Arguments last_purchase_date {F}.
Arguments frequency {F}.
Arguments recency {F}.
Arguments monetary {F}.

(** ** Group keys

    [groupby] sorts its groups by key (the pandas default [sort=True]); the
    keys of the script are integers (user ids, cluster ids) and segment
    names. *)
Class KeyOrder (K : Type) := {
  key_eqb : K -> K -> bool;
  key_ltb : K -> K -> bool
}.

(** What the proofs need of a key order: [key_eqb] decides equality and
    [key_ltb] is a strict total order. *)
Class KeyOrderLaws (K : Type) `{KeyOrder K} : Prop := {
  key_eqb_eq : forall a b, key_eqb a b = true <-> a = b;
  key_ltb_irrefl : forall a, key_ltb a a = false;
  key_ltb_trans : forall a b c,
    key_ltb a b = true -> key_ltb b c = true -> key_ltb a c = true;
  key_ltb_total : forall a b,
    key_ltb a b = false -> key_eqb a b = false -> key_ltb b a = true
}.

#[export] Instance Z_KeyOrder : KeyOrder Z :=
  {| key_eqb := Z.eqb; key_ltb := Z.ltb |}.

#[export] Instance nat_KeyOrder : KeyOrder nat :=
  {| key_eqb := Nat.eqb; key_ltb := Nat.ltb |}.

(** ** groupby

    A group is never empty: it is kept as its first member and the rest. *)
Definition Group (A : Type) := (A * list A)%type.

Definition members {A} (g : Group A) : list A := fst g :: snd g.

Section GroupBy.
Context {K A : Type} `{KeyOrder K}.
Variable key : A -> K.

Fixpoint group_insert (a : A) (gs : list (K * Group A)) : list (K * Group A) :=
  match gs with
  | [] => [(key a, (a, []))]
  | (k, g) :: rest =>
      if key_ltb (key a) k then (key a, (a, [])) :: gs
      else if key_eqb (key a) k then (k, (a, members g)) :: rest
      else (k, g) :: group_insert a rest
  end.

(** Rows keep their order of appearance inside a group. *)
Fixpoint groupby (rows : list A) : list (K * Group A) :=
  match rows with
  | [] => []
  | a :: rest => group_insert a (groupby rest)
  end.

(** Keys in strictly increasing order. *)
Fixpoint keys_sorted (ks : list K) : Prop :=
  match ks with
  | [] => True
  | k :: rest => Forall (fun k' => key_ltb k k' = true) rest /\ keys_sorted rest
  end.

(** The rows filed under key [k]. *)
Fixpoint group_of (k : K) (gs : list (K * Group A)) : list A :=
  match gs with
  | [] => []
  | (k', g) :: rest => if key_eqb k k' then members g else group_of k rest
  end.

End GroupBy.

(** ** Aggregations *)

Definition list_max (x : Z) (xs : list Z) : Z := fold_left Z.max xs x.

(** [Series.max()]: [NaT] on an empty series. *)
Definition series_max (s : list Z) : option Z :=
  match s with
  | [] => None
  | x :: xs => Some (list_max x xs)
  end.

(** ['max'] and ['count'] of a column over one group. *)
Definition agg_max {A} (col : A -> Z) (g : Group A) : Z :=
  list_max (col (fst g)) (map col (snd g)).

Definition agg_count {A} (g : Group A) : Z := Z.of_nat (length (members g)).

(** ** RFM analysis (lines 59-66) *)

Definition is_buy (r : BehaviorRecord) : bool :=
  String.eqb (behavior_type r) "buy".

Definition buy_df (df : DataFrame) : DataFrame := filter is_buy df.

(** [groupby("user_id").agg({'timestamp': ['max', 'count']}).reset_index()]
    with the columns renamed to user_id, last_purchase_date, frequency. *)
Definition rfm_agg (buy : DataFrame) : list (Z * Z * Z) :=
  map (fun kg => (fst kg, agg_max timestamp (snd kg), agg_count (snd kg)))
      (groupby user_id buy).

Definition reference_date (buy : DataFrame) : option Z :=
  series_max (map timestamp buy).

Definition seconds_per_day : Z := 86400.

(** [(reference_date - last).dt.days]: the days component of a timedelta is
    the floor of its length in days.  A [NaT] reference only occurs with no
    purchase at all, when the column has no row to fill. *)
Definition timedelta_days (ref : option Z) (last : Z) : Z :=
  match ref with
  | Some r => (r - last) / seconds_per_day
  | None => 0
  end.

Section Pipeline.
Context {F : Type} `{Arith F}.
Local Open Scope arith_scope.

(** [98 / 3.4].  The literal [3.4] is the float nearest to 34/10, which is
    what dividing 34 by 10 returns. *)
Definition unit_value : F := of_int 98 / (of_int 34 / of_int 10).

Definition rfm_of_buy (buy : DataFrame) : list (RFMRow F) :=
  let ref := reference_date buy in
  map (fun '(u, last, freq) =>
         {| rfm_user_id := u;
            last_purchase_date := last;
            frequency := freq;
            recency := timedelta_days ref last;
            monetary := of_int freq * unit_value |})
      (rfm_agg buy).

Definition rfm (df : DataFrame) : list (RFMRow F) := rfm_of_buy (buy_df df).

End Pipeline.

(** ** Segments (lines 103-105) *)

Inductive Segment := VIP | Churn_Risk | Loyal | At_Risk.

Definition segment_name (s : Segment) : string :=
  match s with
  | VIP => "VIP"
  | Churn_Risk => "Churn Risk"
  | Loyal => "Loyal"
  | At_Risk => "At_Risk"
  end.

(** Position of the segment's name in the sorted index of a groupby. *)
Definition segment_rank (s : Segment) : nat :=
  match s with
  | At_Risk => 0
  | Churn_Risk => 1
  | Loyal => 2
  | VIP => 3
  end.

#[export] Instance Segment_KeyOrder : KeyOrder Segment :=
  {| key_eqb := fun a b => Nat.eqb (segment_rank a) (segment_rank b);
     key_ltb := fun a b => Nat.ltb (segment_rank a) (segment_rank b) |}.

(** [labels = {0: 'VIP', 1: 'Churn Risk', 2: 'Loyal', 3: 'At_Risk'}];
    [Series.map] gives NaN ([None]) outside the dictionary. *)
Definition labels (c : nat) : option Segment :=
  match c with
  | 0%nat => Some VIP
  | 1%nat => Some Churn_Risk
  | 2%nat => Some Loyal
  | 3%nat => Some At_Risk
  | _ => None
  end.

Record ClusteredRow (F : Type) := mkClustered {
  rfm_row : RFMRow F;
  cluster : nat
}.

Arguments mkClustered {F}.
Arguments rfm_row {F}.
Arguments cluster {F}.

Record SegmentedRow (F : Type) := mkSegmented {
  clustered_row : ClusteredRow F;
  segment : option Segment
}.

Arguments mkSegmented {F}.
Arguments clustered_row {F}.
Arguments segment {F}.

(** [rfm['cluster'] = ...]: one label per row, in row order. *)
Definition assign_cluster {F} (rows : list (RFMRow F)) (ids : list nat)
  : list (ClusteredRow F) :=
  map (fun p => mkClustered (fst p) (snd p)) (combine rows ids).

Definition assign_segment {F} (rows : list (ClusteredRow F)) : list (SegmentedRow F) :=
  map (fun r => mkSegmented r (labels (cluster r))) rows.

(** [groupby] drops the rows whose key is NaN. *)
Definition dropna_segment {F} (rows : list (SegmentedRow F))
  : list (Segment * RFMRow F) :=
  flat_map (fun r => match segment r with
                     | Some s => [(s, rfm_row (clustered_row r))]
                     | None => []
                     end) rows.

Definition Matrix3 (F : Type) := list (F * F * F).

Definition col0 {F} (r : F * F * F) : F := fst (fst r).
Definition col1 {F} (r : F * F * F) : F := snd (fst r).
Definition col2 {F} (r : F * F * F) : F := snd r.

(** The three columns of a matrix. *)
Definition columns {F} (X : Matrix3 F) : list (list F) :=
  [map col0 X; map col1 X; map col2 X].

(** ** Exceptions of the library calls *)
Inductive Exception :=
| ValueError_min_samples (found required : nat)
    (* check_array: "Found array with 0 sample(s) ... while a minimum of 1 is required" *)
| ValueError_n_samples (n_samples n_clusters : nat).
    (* KMeans: "n_samples=... should be >= n_clusters=..." *)

Record Means (F : Type) := mkMeans {
  mean_recency : F;
  mean_frequency : F;
  mean_monetary : F
}.

Arguments mkMeans {F}.
Arguments mean_recency {F}.
Arguments mean_frequency {F}.
Arguments mean_monetary {F}.

Section Numerics.
Context {F : Type} `{Arith F}.
Local Open Scope arith_scope.

(** ** Min-max scaling (lines 81-83)

    [sklearn.preprocessing.MinMaxScaler] with the default feature range
    (0, 1), column by column:
    [data_range = data_max - data_min],
    [scale_ = (1 - 0) / _handle_zeros_in_scale(data_range)],
    [min_ = 0 - data_min * scale_], and [transform] is [X * scale_ + min_]. *)

(** [rfm[['recency', 'frequency', 'monetary']]] as a float matrix. *)
Definition rfm_norm (rows : list (RFMRow F)) : Matrix3 F :=
  map (fun r => (of_int (recency r), of_int (frequency r), monetary r)) rows.

(** Machine epsilon of float64, 2^-52. *)
Definition float_eps : F := of_int 1 / of_int 4503599627370496.

(** The guard of the scaler: a range below [10 * eps] is replaced by 1
    before it is used as a divisor. *)
Definition handle_zeros_in_scale (scale : F) : F :=
  if fltb scale (of_int 10 * float_eps) then of_int 1 else scale.

Definition data_min (x : F) (xs : list F) : F := fold_left fmin xs x.
Definition data_max (x : F) (xs : list F) : F := fold_left fmax xs x.
Definition data_range (x : F) (xs : list F) : F := data_max x xs - data_min x xs.

Definition scale_ (x : F) (xs : list F) : F :=
  (of_int 1 - of_int 0) / handle_zeros_in_scale (data_range x xs).

Definition min_ (x : F) (xs : list F) : F :=
  of_int 0 - data_min x xs * scale_ x xs.

(** Fit on the column [x :: xs], then transform one value. *)
Definition minmax_transform (x : F) (xs : list F) (v : F) : F :=
  v * scale_ x xs + min_ x xs.

(** Fit and transform one column. *)
Definition minmax_column (col : list F) : list F :=
  match col with
  | [] => []
  | x :: xs => map (minmax_transform x xs) col
  end.

Definition column_range (col : list F) : F :=
  match col with
  | [] => of_int 0
  | x :: xs => data_range x xs
  end.

Definition MinMaxScaler_fit_transform (X : Matrix3 F) : Exception + Matrix3 F :=
  match X with
  | [] => inl (ValueError_min_samples 0 1)
  | r :: rest =>
      inr (map (fun v =>
                  (minmax_transform (col0 r) (map col0 rest) (col0 v),
                   minmax_transform (col1 r) (map col1 rest) (col1 v),
                   minmax_transform (col2 r) (map col2 rest) (col2 v))) X)
  end.

(** ** Segment summary (line 119) *)

(** The grouped mean of pandas adds the values of a group in row order with
    Kahan's compensated summation, then divides by their number. *)
Fixpoint kahan_sum (xs : list F) (sumx compensation : F) : F :=
  match xs with
  | [] => sumx
  | val :: rest =>
      let y := val - compensation in
      let t := sumx + y in
      kahan_sum rest t ((t - sumx) - y)
  end.

Definition mean (xs : list F) : F :=
  kahan_sum xs (of_int 0) (of_int 0) / of_int (Z.of_nat (length xs)).

Definition agg_mean {A} (col : A -> F) (g : Group A) : F := mean (map col (members g)).

Definition segment_means (rows : list (SegmentedRow F)) : list (Segment * Means F) :=
  map (fun kg =>
         (fst kg,
          {| mean_recency := agg_mean (fun r => of_int (recency (snd r))) (snd kg);
             mean_frequency := agg_mean (fun r => of_int (frequency (snd r))) (snd kg);
             mean_monetary := agg_mean (fun r => monetary (snd r)) (snd kg) |}))
      (groupby fst (dropna_segment rows)).

(** [.round(2)]: scale by 100, round to the nearest integer, scale back. *)
Definition round2 (x : F) : F := frint (x * of_int 100) / of_int 100.

Definition segment_summary (rows : list (SegmentedRow F)) : list (Segment * Means F) :=
  map (fun sm =>
         (fst sm,
          {| mean_recency := round2 (mean_recency (snd sm));
             mean_frequency := round2 (mean_frequency (snd sm));
             mean_monetary := round2 (mean_monetary (snd sm)) |}))
      (segment_means rows).

End Numerics.

(** ** The page and the script monad *)

Inductive Figure (F : Type) :=
| Histograms (recencies frequencies : list Z) (monetaries : list F)
| Boxplots (rows : list (ClusteredRow F))
| PieChart (cluster_counts : list (nat * Z))
| BarPlot (segment_counts : list (Segment * Z))
| Heatmap (summary : list (Segment * Means F)).

Arguments Histograms {F}.
Arguments Boxplots {F}.
Arguments PieChart {F}.
Arguments BarPlot {F}.
Arguments Heatmap {F}.

Inductive Element (F : Type) :=
| Sidebar_title (s : string)
| Sidebar_multiselect (label : string) (options : list string)
| Sidebar_radio (label : string) (options : list string)
| Markdown (body : string)
| Title (s : string)
| Subheader (s : string)
| Dataframe_records (rows : DataFrame)
| Dataframe_summary (summary : list (Segment * Means F))
| Pyplot (fig : Figure F).

Arguments Sidebar_title {F}.
Arguments Sidebar_multiselect {F}.
Arguments Sidebar_radio {F}.
Arguments Markdown {F}.
Arguments Title {F}.
Arguments Subheader {F}.
Arguments Dataframe_records {F}.
Arguments Dataframe_summary {F}.
Arguments Pyplot {F}.

Definition Page (F : Type) := list (Element F).

Definition is_chart {F} (e : Element F) : bool :=
  match e with
  | Pyplot _ => true
  | _ => false
  end.

(** A step extends the page and either raises or returns. *)
Definition M (F A : Type) : Type := Page F -> Page F * (Exception + A).

Definition ret {F A} (a : A) : M F A := fun page => (page, inr a).

Definition bind {F A B} (c : M F A) (k : A -> M F B) : M F B :=
  fun page =>
    match c page with
    | (page', inl e) => (page', inl e)
    | (page', inr a) => k a page'
    end.

Definition render {F} (e : Element F) : M F unit :=
  fun page => (page ++ [e], inr tt).

Definition lift {F A} (r : Exception + A) : M F A := fun page => (page, r).

Declare Scope script_scope.
Delimit Scope script_scope with script.
Notation "x <- c ;; k" := (bind c (fun x => k))
  (at level 100, c at next level, right associativity) : script_scope.
Notation "c ;; k" := (bind c (fun _ => k))
  (at level 100, right associativity) : script_scope.

(** [nrows=100000] and [.head(100000)]. *)
Definition row_cap : nat := Z.to_nat 100000.

(** ** Sidebar input *)
Record Sidebar := mkSidebar {
  selected_behaviors : list string;
  theme : string
}.

(** [Series.unique()]: first occurrences, in order of appearance. *)
Fixpoint unique (seen l : list string) : list string :=
  match l with
  | [] => []
  | x :: rest =>
      if existsb (String.eqb x) seen then unique seen rest
      else x :: unique (x :: seen) rest
  end.

Definition isin (vals : list string) (r : BehaviorRecord) : bool :=
  existsb (String.eqb (behavior_type r)) vals.

(** ** Counts shown by the pie chart and the bar plot *)

(** [rfm['cluster'].value_counts().sort_index()] *)
Definition cluster_counts {F} (rows : list (ClusteredRow F)) : list (nat * Z) :=
  map (fun kg => (fst kg, agg_count (snd kg))) (groupby cluster rows).

Fixpoint insert_desc {K} (x : K * Z) (l : list (K * Z)) : list (K * Z) :=
  match l with
  | [] => [x]
  | y :: rest => if snd y <=? snd x then x :: l else y :: insert_desc x rest
  end.

(** The distinct values of a column in order of first appearance, the
    order in which the hash table of [value_counts] holds them. *)
Fixpoint first_seen {K} `{KeyOrder K} (seen l : list K) : list K :=
  match l with
  | [] => []
  | x :: rest =>
      if existsb (key_eqb x) seen then first_seen seen rest
      else x :: first_seen (x :: seen) rest
  end.

Definition occurrences {K} `{KeyOrder K} (k : K) (l : list K) : Z :=
  Z.of_nat (length (filter (key_eqb k) l)).

(** [Series.value_counts()] of a column without NaN: the number of
    occurrences of each distinct value, largest first; the sort is stable,
    so that values with equal counts stay in order of first appearance. *)
Definition value_counts {K} `{KeyOrder K} (col : list K) : list (K * Z) :=
  fold_right insert_desc []
    (map (fun k => (k, occurrences k col)) (first_seen [] col)).

(** [rfm['segment'].value_counts()]; NaN is not counted. *)
Definition segment_counts {F} (rows : list (SegmentedRow F)) : list (Segment * Z) :=
  value_counts (map fst (dropna_segment rows)).

(** ** Clustering (lines 84-85) *)

(** A numpy generator as the estimator receives it: a [RandomState]
    freshly seeded with an integer, or the generator of the process
    ([numpy.random.mtrand._rand]) in the state earlier draws have left it
    in. *)
Inductive RandomState :=
| Seeded (seed : Z)
| Process_generator (state : Z).

(** [KMeans(n_clusters=..., random_state=...)]; [random_state] is an integer
    or [None]. *)
Record KMeans := mkKMeans {
  n_clusters : nat;
  random_state : option Z
}.

(** [sklearn.utils.check_random_state]: [None] stands for the generator of
    the process, an integer for a new generator seeded with it. *)
Definition check_random_state (seed : option Z) (numpy_state : Z) : RandomState :=
  match seed with
  | None => Process_generator numpy_state
  | Some s => Seeded s
  end.

(** The fitted labels of [sklearn.cluster.KMeans] (k-means++ seeding and
    Lloyd's iterations, which are not modelled): a function of the number of
    clusters, the generator the draws come from, and the data. *)
Definition Labels (F : Type) := nat -> RandomState -> Matrix3 F -> list nat.

Section Script.
Context {F : Type} `{Arith F}.
Variable kmeans_labels : Labels F.

(** The state of the generator of the process when the script starts; it
    carries over from one rerun of the script to the next. *)
Variable numpy_state : Z.

(** [fit_predict] validates its input first: at least one sample
    ([check_array]), and at least as many samples as clusters. *)
Definition fit_predict (km : KMeans) (X : Matrix3 F) : Exception + list nat :=
  match X with
  | [] => inl (ValueError_min_samples 0 1)
  | _ :: _ =>
      if (length X <? n_clusters km)%nat
      then inl (ValueError_n_samples (length X) (n_clusters km))
      else inr (kmeans_labels (n_clusters km)
                  (check_random_state (random_state km) numpy_state) X)
  end.

Local Open Scope script_scope.

(** Lines 42-124 of the script.  The sections after the segment summary
    (time series, downloads, metrics, strategy table) only present values
    computed here.  The emoji that prefix two of the labels are left out. *)
Definition script (ui : Sidebar) (df : DataFrame)
  : M F (list (SegmentedRow F) * list (Segment * Means F)) :=
  render (Sidebar_title "User Filters") ;;
  render (Sidebar_multiselect "Select Behaviors" (unique [] (map behavior_type df))) ;;
  render (Sidebar_radio "Theme" ["Light"; "Dark"]%string) ;;
  (if String.eqb (theme ui) "Dark"
   then render (Markdown "<style>body { background-color: #111; color: white; }</style>")
   else ret tt) ;;
  render (Title "E-commerce User Behavior Dashboard") ;;
  render (Subheader "Raw Dataset (Top 100,000 rows)") ;;
  render (Dataframe_records (firstn row_cap (filter (isin (selected_behaviors ui)) df))) ;;
  let buy := buy_df df in
  let rfm := rfm_of_buy buy in
  render (Subheader "RFM Distributions") ;;
  render (Pyplot (Histograms (map recency rfm) (map frequency rfm) (map monetary rfm))) ;;
  rfm_scaled <- lift (MinMaxScaler_fit_transform (rfm_norm rfm)) ;;
  let kmeans := mkKMeans 4 (Some 42) in
  ids <- lift (fit_predict kmeans rfm_scaled) ;;
  let clustered := assign_cluster rfm ids in
  render (Subheader "Boxplot by Cluster") ;;
  render (Pyplot (Boxplots clustered)) ;;
  render (Subheader "Cluster Distribution (Pie Chart)") ;;
  render (Pyplot (PieChart (cluster_counts clustered))) ;;
  let segmented := assign_segment clustered in
  render (Subheader "Segment Distribution (Bar Plot)") ;;
  render (Pyplot (BarPlot (segment_counts segmented))) ;;
  render (Subheader "Segment RFM Averages (Heatmap + Table)") ;;
  let summary := segment_summary segmented in
  render (Dataframe_summary summary) ;;
  render (Pyplot (Heatmap summary)) ;;
  ret (segmented, summary).

(** One run of the script on an empty page. *)
Definition run (ui : Sidebar) (df : DataFrame) :=
  script ui df [].

(** The cluster column of a finished run, by user. *)
Definition cluster_assignments (ui : Sidebar) (df : DataFrame)
  : Exception + list (Z * nat) :=
  match snd (run ui df) with
  | inl e => inl e
  | inr out => inr (map (fun r => (rfm_user_id (rfm_row (clustered_row r)),
                                   cluster (clustered_row r))) (fst out))
  end.

(** What is on the page when the scaler is called (lines 42-78). *)
Definition page_before_clustering (ui : Sidebar) (df : DataFrame) : Page F :=
  [ Sidebar_title "User Filters";
    Sidebar_multiselect "Select Behaviors" (unique [] (map behavior_type df));
    Sidebar_radio "Theme" ["Light"; "Dark"]%string ] ++
  (if String.eqb (theme ui) "Dark"
   then [Markdown "<style>body { background-color: #111; color: white; }</style>"]
   else []) ++
  [ Title "E-commerce User Behavior Dashboard";
    Subheader "Raw Dataset (Top 100,000 rows)";
    Dataframe_records (firstn row_cap (filter (isin (selected_behaviors ui)) df));
    Subheader "RFM Distributions";
    Pyplot (Histograms (map recency (rfm (F:=F) df)) (map frequency (rfm (F:=F) df))
                       (map monetary (rfm df))) ].

(** What lines 87-124 add to the page, given the labels. *)
Definition page_after_clustering (df : DataFrame) (ids : list nat) : Page F :=
  let clustered := assign_cluster (rfm df) ids in
  let segmented := assign_segment clustered in
  [ Subheader "Boxplot by Cluster";
    Pyplot (Boxplots clustered);
    Subheader "Cluster Distribution (Pie Chart)";
    Pyplot (PieChart (cluster_counts clustered));
    Subheader "Segment Distribution (Bar Plot)";
    Pyplot (BarPlot (segment_counts segmented));
    Subheader "Segment RFM Averages (Heatmap + Table)";
    Dataframe_summary (segment_summary segmented);
    Pyplot (Heatmap (segment_summary segmented)) ].

End Script.

(** A label function used to run the script on examples: row [i] goes to
    cluster [i mod n_clusters]. *)
Definition round_robin_labels {F} : Labels F := fun k _ X =>
  map (fun i => Nat.modulo i k) (seq 0 (length X)).

(** All rows in cluster [c]: the labels of rows that are all equal. *)
Definition constant_labels {F} (c : nat) : Labels F := fun _ _ X =>
  map (fun _ => c) X.

(** ** The specification's reference date

    The specification words the reference date differently from line 64:
    "reference_date = max(last_purchase_date) over all users". *)
Definition spec_reference_date {F} (rows : list (RFMRow F)) : option Z :=
  series_max (map last_purchase_date rows).

(** ** Sample inputs *)

(** Four purchasing users and one page view; user 1 bought twice, a little
    over a day after the others. *)
Definition sample_df : DataFrame :=
  [ mkBehavior 2 10 1 "pv" 500;
    mkBehavior 1 10 1 "buy" 100000;
    mkBehavior 3 11 1 "buy" 10;
    mkBehavior 4 11 1 "buy" 10;
    mkBehavior 5 11 1 "buy" 1000;
    mkBehavior 1 12 2 "buy" 5 ].

Definition purchase (u t : Z) : BehaviorRecord := mkBehavior u 7 3 "buy" t.

(** Purchases of users 1 to 5; user 1 buys ten times, the last time after
    everybody else. *)
Definition five_users_df : DataFrame :=
  [ purchase 1 100; purchase 2 150; purchase 1 200; purchase 3 250;
    purchase 1 300; purchase 1 400; purchase 4 450; purchase 1 500;
    purchase 1 600; purchase 5 650; purchase 1 700; purchase 1 800;
    purchase 2 850; purchase 1 900; purchase 1 200000 ].

(** Views only: no purchase record. *)
Definition views_only_df : DataFrame :=
  [ mkBehavior 1 10 1 "pv" 100; mkBehavior 2 11 1 "cart" 200 ].

(** Four users who bought once each and a fifth who bought six times, all
    within the same day. *)
Definition one_and_six_df : DataFrame :=
  [ purchase 1 100; purchase 2 200; purchase 3 300; purchase 4 400;
    purchase 5 500; purchase 5 600; purchase 5 700; purchase 5 800;
    purchase 5 900; purchase 5 1000 ].

(** Nine users who bought once each, at the same time. *)
Definition nine_buyers_df : DataFrame :=
  map (fun u => purchase u 1000) [1; 2; 3; 4; 5; 6; 7; 8; 9].

Definition sample_ui : Sidebar := mkSidebar ["buy"; "pv"]%string "Light".

(** The means of the Churn Risk segment of the five-user input when users 2,
    3 and 5 are in cluster 1, in exact arithmetic. *)
Definition churn_risk_means : Means Q :=
  Eval vm_compute in
    snd (nth 1 (segment_means
                  (assign_segment (assign_cluster (rfm five_users_df) [0; 1; 1; 3; 1]%nat)))
               (VIP, mkMeans 0 0 0)%Q).

(** The scaled matrix of the sample input, in exact arithmetic. *)
Definition sample_scaled : Matrix3 Q :=
  Eval vm_compute in
    match MinMaxScaler_fit_transform (rfm_norm (rfm sample_df)) with
    | inr Y => Y
    | inl _ => []
    end.

(** ** Time series (lines 129-139) *)

(** [.dt.date]: the calendar day of a timestamp, as the number of days since
    1970-01-01. *)
Definition date_of (ts : Z) : Z := ts / seconds_per_day.

(** [df_filtered.groupby('date').size()] *)
Definition daily_counts (df : DataFrame) : list (Z * Z) :=
  map (fun kg => (fst kg, agg_count (snd kg)))
      (groupby (fun r => date_of (timestamp r)) (buy_df df)).

(** Year and month of a day number in the proleptic Gregorian calendar: the
    day is located in its 400-year era, then in its year counted from March,
    then in its month. *)
Definition year_month_of_day (days : Z) : Z * Z :=
  let z := days + 719468 in
  let era := z / 146097 in
  let doe := z - era * 146097 in
  let yoe := (doe - doe / 1460 + doe / 36524 - doe / 146096) / 365 in
  let doy := doe - (365 * yoe + yoe / 4 - yoe / 100) in
  let mp := (5 * doy + 2) / 153 in
  let m := if mp <? 10 then mp + 3 else mp - 9 in
  (yoe + era * 400 + (if m <=? 2 then 1 else 0), m).

(** [.dt.to_period('M')]: the (year, month) of a timestamp.  The script
    groups by its text "YYYY-MM", which sorts as the pair does for the
    four-digit years an [int32] timestamp can reach. *)
Definition month_of (ts : Z) : Z * Z := year_month_of_day (date_of ts).

#[export] Instance YearMonth_KeyOrder : KeyOrder (Z * Z) :=
  {| key_eqb := fun a b => (fst a =? fst b) && (snd a =? snd b);
     key_ltb := fun a b =>
       (fst a <? fst b) || ((fst a =? fst b) && (snd a <? snd b)) |}.

(** [df_filtered.groupby('month').size()] *)
Definition monthly_counts (df : DataFrame) : list (Z * Z * Z) :=
  map (fun kg => (fst kg, agg_count (snd kg)))
      (groupby (fun r => month_of (timestamp r)) (buy_df df)).

(** ** Metrics (lines 152-154) *)

Definition list_min (x : Z) (xs : list Z) : Z := fold_left Z.min xs x.

(** [Series.min()]: [NaT] on an empty series. *)
Definition series_min (s : list Z) : option Z :=
  match s with
  | [] => None
  | x :: xs => Some (list_min x xs)
  end.

(** [rfm.shape[0]] *)
Definition total_users {F} (rows : list (RFMRow F)) : Z := Z.of_nat (length rows).

(** The two dates of the "Date Range" metric:
    [rfm['last_purchase_date'].min().date()] and [....max().date()]. *)
Definition date_range {F} (rows : list (RFMRow F)) : option (Z * Z) :=
  match series_min (map last_purchase_date rows),
        series_max (map last_purchase_date rows) with
  | Some lo, Some hi => Some (date_of lo, date_of hi)
  | _, _ => None
  end.

(** The rows of all groups of a groupby, group after group. *)
Definition all_members {K A} (gs : list (K * Group A)) : list A :=
  flat_map (fun kg => members (snd kg)) gs.

(** The largest value of a list (0 for the empty list). *)
Definition max_of (l : list Z) : Z :=
  match l with
  | [] => 0
  | x :: xs => list_max x xs
  end.

(** The aggregate of one user read off the purchase list: the user, the
    largest timestamp and the number of the user's purchases. *)
Definition agg_of (buy : DataFrame) (u : Z) : Z * Z * Z :=
  let purchases := filter (fun r => user_id r =? u) buy in
  (u, max_of (map timestamp purchases), Z.of_nat (length purchases)).

(** [groupby(...).size()] *)
Definition sizes {K A} `{KeyOrder K} (key : A -> K) (rows : list A) : list (K * Z) :=
  map (fun kg => (fst kg, agg_count (snd kg))) (groupby key rows).

(** The sum of an integer column. *)
Definition Zsum (xs : list Z) : Z := fold_right Z.add 0 xs.

(** ** Binary64 values

    The notions in which the properties of the scaler in binary64 are
    stated and proved: the value of a finite number as an integer multiple
    of the smallest positive one, and rounding to nearest, ties to even, on
    such integers. *)

(** Division by [2^k] rounded to the nearest integer, ties to even. *)
Definition rne_shift (m k : Z) : Z :=
  let q := m / 2 ^ k in
  let t := 2 * (m mod 2 ^ k) in
  if t <? 2 ^ k then q
  else if 2 ^ k <? t then q + 1
  else if Z.even q then q else q + 1.

(** The exponent of the binary64 grid around [X * 2^-2148], counted from
    [-2148]. *)
Definition grid_exp (X : Z) : Z := Z.max (Zdigits2 X - 53) 1074.

(** [X * 2^-2148] rounded to binary64, in units of [2^-2148]. *)
Definition round_grid (X : Z) : Z := rne_shift X (grid_exp X) * 2 ^ grid_exp X.

(** The value of a finite binary64 number in units of [2^-1074]. *)
Definition Zval (f : spec_float) : Z :=
  match f with
  | S754_finite _ m e => Zpos m * 2 ^ (e + 1074)
  | _ => 0
  end.

(** Zero, or positive and below [2^K]. *)
Definition nonneg_below (K : Z) (f : spec_float) : Prop :=
  match f with
  | S754_zero _ => True
  | S754_finite false m e => Zpos (digits2_pos m) + e <= K
  | _ => False
  end.

(** Not NaN, and not negative unless a zero. *)
Definition nonneg (f : spec_float) : Prop :=
  match f with
  | S754_nan | S754_infinity true | S754_finite true _ _ => False
  | _ => True
  end.

(** Finite, not negative and at most [2^900]. *)
Definition in_range (v : float) : bool :=
  PrimFloat.leb 0%float v && PrimFloat.leb v 0x1p+900%float.

(** * Properties *)

(** ** Key orders of the script *)

#[export] Instance Z_KeyOrderLaws : KeyOrderLaws Z.
Proof.
  split; simpl; intros.
  - apply Z.eqb_eq.
  - apply Z.ltb_irrefl.
  - apply Z.ltb_lt in H, H0. apply Z.ltb_lt. lia.
  - apply Z.ltb_ge in H. apply Z.eqb_neq in H0. apply Z.ltb_lt. lia.
Qed.

#[export] Instance nat_KeyOrderLaws : KeyOrderLaws nat.
Proof.
  split; simpl; intros.
  - apply Nat.eqb_eq.
  - apply Nat.ltb_irrefl.
  - apply Nat.ltb_lt in H, H0. apply Nat.ltb_lt. lia.
  - apply Nat.ltb_ge in H. apply Nat.eqb_neq in H0. apply Nat.ltb_lt. lia.
Qed.

Lemma segment_rank_inj (a b : Segment) : segment_rank a = segment_rank b -> a = b.
Proof. destruct a, b; simpl; congruence. Qed.

#[export] Instance Segment_KeyOrderLaws : KeyOrderLaws Segment.
Proof.
  split; simpl; intros.
  - rewrite Nat.eqb_eq. split; [apply segment_rank_inj | congruence].
  - apply Nat.ltb_irrefl.
  - apply Nat.ltb_lt in H, H0. apply Nat.ltb_lt. lia.
  - apply Nat.ltb_ge in H. apply Nat.eqb_neq in H0. apply Nat.ltb_lt. lia.
Qed.

(** ** groupby: sorted keys, one group per key, a group is a filter *)

Section GroupByFacts.
Context {K A : Type} `{KeyOrderLaws K}.
Variable key : A -> K.

Lemma key_eqb_refl (k : K) : key_eqb k k = true.
Proof. now apply key_eqb_eq. Qed.

Lemma key_ltb_neq (a b : K) : key_ltb a b = true -> key_eqb a b = false.
Proof.
  intros Hlt. destruct (key_eqb a b) eqn:E; [|reflexivity].
  apply key_eqb_eq in E. subst b. now rewrite key_ltb_irrefl in Hlt.
Qed.

Lemma key_eqb_sym (a b : K) : key_eqb a b = key_eqb b a.
Proof.
  destruct (key_eqb a b) eqn:E1, (key_eqb b a) eqn:E2; try reflexivity.
  - apply key_eqb_eq in E1. subst. now rewrite key_eqb_refl in E2.
  - apply key_eqb_eq in E2. subst. now rewrite key_eqb_refl in E1.
Qed.

Lemma group_insert_keys (a : A) (gs : list (K * Group A)) (k : K) :
  In k (map fst (group_insert key a gs)) <-> k = key a \/ In k (map fst gs).
Proof.
  induction gs as [|[k0 g0] rest IH]; simpl.
  - intuition.
  - destruct (key_ltb (key a) k0) eqn:Hlt; simpl; [intuition|].
    destruct (key_eqb (key a) k0) eqn:Heq; simpl.
    + apply key_eqb_eq in Heq. intuition congruence.
    + rewrite IH. intuition.
Qed.

Lemma group_insert_sorted (a : A) (gs : list (K * Group A)) :
  keys_sorted (map fst gs) -> keys_sorted (map fst (group_insert key a gs)).
Proof.
  induction gs as [|[k0 g0] rest IH]; simpl.
  - auto.
  - intros [Hall Hs].
    destruct (key_ltb (key a) k0) eqn:Hlt; simpl.
    + repeat split; auto. constructor; auto.
      eapply Forall_impl; [|exact Hall]. simpl. intros k' Hk'.
      now apply key_ltb_trans with k0.
    + destruct (key_eqb (key a) k0) eqn:Heq; simpl.
      * auto.
      * split; auto.
        apply Forall_forall. intros k' Hin.
        apply group_insert_keys in Hin. destruct Hin as [-> | Hin].
        -- now apply key_ltb_total.
        -- rewrite Forall_forall in Hall. auto.
Qed.

Lemma groupby_sorted (rows : list A) : keys_sorted (map fst (groupby key rows)).
Proof.
  induction rows as [|a rest IH]; simpl; auto using group_insert_sorted.
Qed.

Lemma keys_sorted_NoDup (ks : list K) : keys_sorted ks -> NoDup ks.
Proof.
  induction ks as [|k rest IH]; simpl; intros Hs; constructor.
  - destruct Hs as [Hall _]. intros Hin.
    rewrite Forall_forall in Hall. specialize (Hall _ Hin).
    now rewrite key_ltb_irrefl in Hall.
  - apply IH, Hs.
Qed.

Lemma groupby_keys (rows : list A) (k : K) :
  In k (map fst (groupby key rows)) <-> exists a, In a rows /\ key a = k.
Proof.
  induction rows as [|a rest IH]; simpl.
  - split; [tauto | intros [? [[] _]]].
  - rewrite group_insert_keys, IH. split.
    + intros [-> | [b [Hb Hk]]]; eauto.
    + intros [b [[-> | Hb] Hk]]; eauto.
Qed.

Lemma group_of_above (k : K) (gs : list (K * Group A)) :
  Forall (fun k' => key_ltb k k' = true) (map fst gs) -> group_of k gs = [].
Proof.
  induction gs as [|[k0 g0] rest IH]; simpl; auto.
  intros Hall. inversion Hall as [|? ? Hlt Hrest]; subst.
  rewrite (key_ltb_neq _ _ Hlt). auto.
Qed.

Lemma group_of_insert (a : A) (gs : list (K * Group A)) (k : K) :
  keys_sorted (map fst gs) ->
  group_of k (group_insert key a gs) =
  if key_eqb (key a) k then a :: group_of k gs else group_of k gs.
Proof.
  induction gs as [|[k0 g0] rest IH]; simpl.
  - intros _. rewrite (key_eqb_sym k). now destruct (key_eqb (key a) k).
  - intros [Hall Hs].
    destruct (key_ltb (key a) k0) eqn:Hlt; simpl.
    + rewrite (key_eqb_sym k (key a)).
      destruct (key_eqb (key a) k) eqn:Hak; [|reflexivity].
      apply key_eqb_eq in Hak. subst k.
      rewrite (key_ltb_neq _ _ Hlt). unfold members. simpl. f_equal. symmetry.
      apply group_of_above.
      eapply Forall_impl; [|exact Hall]. simpl. intros k' Hk'.
      now apply key_ltb_trans with k0.
    + destruct (key_eqb (key a) k0) eqn:Heq; simpl.
      * apply key_eqb_eq in Heq. subst k0.
        rewrite (key_eqb_sym k (key a)).
        now destruct (key_eqb (key a) k).
      * destruct (key_eqb k k0) eqn:Hk.
        -- apply key_eqb_eq in Hk. subst k0. now rewrite Heq.
        -- auto.
Qed.

Lemma group_of_groupby (rows : list A) (k : K) :
  group_of k (groupby key rows) = filter (fun a => key_eqb (key a) k) rows.
Proof.
  induction rows as [|a rest IH]; simpl; auto.
  rewrite group_of_insert by apply groupby_sorted.
  rewrite IH. reflexivity.
Qed.

Lemma group_of_In (gs : list (K * Group A)) (k : K) (g : Group A) :
  keys_sorted (map fst gs) -> In (k, g) gs -> group_of k gs = members g.
Proof.
  induction gs as [|[k0 g0] rest IH]; simpl; [tauto|].
  intros [Hall Hs] [Heq | Hin].
  - inversion Heq; subst. now rewrite key_eqb_refl.
  - rewrite Forall_forall in Hall.
    assert (Hlt : key_ltb k0 k = true)
      by (apply Hall; change k with (fst (k, g)); now apply in_map).
    rewrite key_eqb_sym, (key_ltb_neq _ _ Hlt). auto.
Qed.

(** The group filed under [k] is exactly the rows of key [k], in order. *)
Lemma groupby_members (rows : list A) (k : K) (g : Group A) :
  In (k, g) (groupby key rows) ->
  members g = filter (fun a => key_eqb (key a) k) rows.
Proof.
  intros Hin. rewrite <- group_of_groupby.
  symmetry. apply group_of_In; auto using groupby_sorted.
Qed.

End GroupByFacts.

(** ** Maxima *)

Lemma list_max_upper (xs : list Z) (x : Z) :
  x <= list_max x xs /\ forall y, In y xs -> y <= list_max x xs.
Proof.
  unfold list_max. revert x.
  induction xs as [|z rest IH]; simpl; intros x.
  - split; [lia | tauto].
  - destruct (IH (Z.max x z)) as [H1 H2]. split; [lia|].
    intros y [-> | Hy]; [lia | auto].
Qed.

Lemma list_max_In (xs : list Z) (x : Z) : In (list_max x xs) (x :: xs).
Proof.
  unfold list_max. revert x.
  induction xs as [|z rest IH]; simpl; intros x; auto.
  destruct (IH (Z.max x z)) as [Heq | Hin]; auto.
  rewrite <- Heq. destruct (Z.max_spec x z) as [[_ ->] | [_ ->]]; auto.
Qed.

(** A member that bounds the list is its maximum. *)
Lemma list_max_char (xs : list Z) (x m : Z) :
  In m (x :: xs) -> (forall y, In y (x :: xs) -> y <= m) -> list_max x xs = m.
Proof.
  intros Hin Hub.
  pose proof (list_max_In xs x) as Hmem.
  destruct (list_max_upper xs x) as [Hx Hxs].
  assert (m <= list_max x xs) by (destruct Hin as [<- | Hin]; auto).
  specialize (Hub _ Hmem). lia.
Qed.

Lemma series_max_Some (s : list Z) :
  s <> [] -> exists m, series_max s = Some m /\ In m s /\ forall y, In y s -> y <= m.
Proof.
  destruct s as [|x xs]; [congruence|]. intros _.
  exists (list_max x xs). split; [reflexivity|]. split.
  - apply list_max_In.
  - destruct (list_max_upper xs x) as [Hx Hxs].
    intros y [<- | Hy]; auto.
Qed.

Lemma agg_max_spec {A} (col : A -> Z) (g : Group A) :
  In (agg_max col g) (map col (members g)) /\
  forall a, In a (members g) -> col a <= agg_max col g.
Proof.
  unfold agg_max, members. destruct g as [h t]. simpl. split.
  - apply (list_max_In (map col t) (col h)).
  - destruct (list_max_upper (map col t) (col h)) as [Hx Hxs].
    intros a [<- | Ha]; auto. apply Hxs. now apply in_map.
Qed.

(** ** Shape of the RFM table *)

Section RFMFacts.
Context {F : Type} `{Arith F}.

Lemma rfm_of_buy_user_ids (buy : DataFrame) :
  map rfm_user_id (rfm_of_buy (F:=F) buy) = map fst (groupby user_id buy).
Proof.
  unfold rfm_of_buy, rfm_agg. rewrite !map_map.
  apply map_ext. intros [u g]. reflexivity.
Qed.

Lemma rfm_of_buy_row (buy : DataFrame) (row : RFMRow F) :
  In row (rfm_of_buy buy) ->
  exists g, In (rfm_user_id row, g) (groupby user_id buy) /\
            last_purchase_date row = agg_max timestamp g /\
            frequency row = agg_count g /\
            recency row = timedelta_days (reference_date buy) (last_purchase_date row) /\
            monetary row = fmul (of_int (frequency row)) unit_value.
Proof.
  unfold rfm_of_buy, rfm_agg. rewrite map_map, in_map_iff.
  intros [[u g] [<- Hin]]. exists g. simpl. auto.
Qed.

Lemma rfm_row_purchases (buy : DataFrame) (row : RFMRow F) :
  In row (rfm_of_buy buy) ->
  let purchases := filter (fun r => user_id r =? rfm_user_id row) buy in
  frequency row = Z.of_nat (length purchases) /\
  In (last_purchase_date row) (map timestamp purchases) /\
  (forall r, In r purchases -> timestamp r <= last_purchase_date row).
Proof.
  intros Hrow. destruct (rfm_of_buy_row _ _ Hrow) as (g & Hg & Hlast & Hfreq & _).
  pose proof (groupby_members user_id buy _ g Hg) as Hmem. simpl in Hmem.
  destruct (agg_max_spec timestamp g) as [Hin Hub].
  simpl. rewrite <- Hmem, Hlast, Hfreq. auto.
Qed.

(** C1. The RFM table has exactly one row per distinct purchasing user: the
    user ids of its rows are pairwise distinct and are exactly the user ids
    of the purchase records; the frequency of a row is the number of the
    user's purchase records and its last purchase date is the largest of
    their timestamps. *)
Theorem rfm_one_row_per_user (df : DataFrame) :
  NoDup (map rfm_user_id (rfm (F:=F) df)) /\
  (forall u, In u (map rfm_user_id (rfm (F:=F) df)) <->
             exists r, In r df /\ is_buy r = true /\ user_id r = u) /\
  (forall row : RFMRow F, In row (rfm df) ->
     let purchases := filter (fun r => user_id r =? rfm_user_id row) (buy_df df) in
     frequency row = Z.of_nat (length purchases) /\
     In (last_purchase_date row) (map timestamp purchases) /\
     (forall r, In r purchases -> timestamp r <= last_purchase_date row)).
Proof.
  unfold rfm. rewrite rfm_of_buy_user_ids. split; [|split].
  - apply keys_sorted_NoDup, groupby_sorted.
  - intros u. split.
    + intros Hin. apply groupby_keys in Hin. destruct Hin as [r [Hr Hu]].
      unfold buy_df in Hr. apply filter_In in Hr. exists r. tauto.
    + intros [r (Hr & Hbuy & Hu)]. apply groupby_keys. exists r. split; auto.
      unfold buy_df. apply filter_In. auto.
  - intros row Hrow. now apply rfm_row_purchases.
Qed.

(** The rows come out in increasing order of user id. *)
Lemma rfm_sorted_by_user (df : DataFrame) :
  keys_sorted (map rfm_user_id (rfm (F:=F) df)).
Proof. unfold rfm. rewrite rfm_of_buy_user_ids. apply groupby_sorted. Qed.

Example rfm_sample :
  map (fun r => (rfm_user_id r, last_purchase_date r, frequency r, recency r))
      (rfm (F:=F) sample_df) =
  [(1, 100000, 2, 0); (3, 10, 1, 1); (4, 10, 1, 1); (5, 1000, 1, 1)].
Proof. reflexivity. Qed.

(** ** Reference date and recency *)

Lemma reference_date_spec (buy : DataFrame) :
  buy <> [] ->
  exists ref, reference_date buy = Some ref /\
              (exists r, In r buy /\ timestamp r = ref) /\
              (forall r, In r buy -> timestamp r <= ref).
Proof.
  intros Hne. unfold reference_date.
  destruct (series_max_Some (map timestamp buy)) as (m & Hm & Hin & Hub).
  - destruct buy; simpl; congruence.
  - exists m. split; auto. split.
    + apply in_map_iff in Hin. destruct Hin as [r [Hr Hin]]. eauto.
    + intros r Hr. apply Hub. now apply in_map.
Qed.

Lemma rfm_row_nonempty (buy : DataFrame) (row : RFMRow F) :
  In row (rfm_of_buy buy) -> buy <> [].
Proof.
  intros Hrow Hnil. subst buy. exact Hrow.
Qed.

Lemma row_of_user (buy : DataFrame) (r : BehaviorRecord) :
  In r buy ->
  exists row : RFMRow F, In row (rfm_of_buy buy) /\ rfm_user_id row = user_id r.
Proof.
  intros Hr.
  assert (Hkey : In (user_id r) (map rfm_user_id (rfm_of_buy (F:=F) buy))).
  { rewrite rfm_of_buy_user_ids. apply groupby_keys. eauto. }
  apply in_map_iff in Hkey. destruct Hkey as (row & Hu & Hrow). eauto.
Qed.

(** Some row carries the reference date: the row of a most recent purchaser. *)
Lemma most_recent_row (buy : DataFrame) (ref : Z) :
  reference_date buy = Some ref ->
  exists top : RFMRow F, In top (rfm_of_buy buy) /\ last_purchase_date top = ref.
Proof.
  intros Href.
  assert (Hne : buy <> []) by (intros ->; discriminate).
  destruct (reference_date_spec buy Hne) as (ref' & Href' & (r & Hr & Hts) & Hub).
  rewrite Href in Href'. inversion Href'; subst ref'. clear Href'.
  destruct (row_of_user _ _ Hr) as (top & Htop & Hu).
  exists top. split; auto.
  destruct (rfm_row_purchases _ _ Htop) as (_ & Hin & Hmax).
  apply in_map_iff in Hin. destruct Hin as (r' & Hr' & Hin').
  apply filter_In in Hin'. destruct Hin' as [Hin' _].
  assert (timestamp r <= last_purchase_date top).
  { apply Hmax. apply filter_In. split; auto. rewrite Hu. apply Z.eqb_refl. }
  specialize (Hub _ Hin'). lia.
Qed.

Lemma last_purchase_le_reference (buy : DataFrame) (row : RFMRow F) (ref : Z) :
  reference_date buy = Some ref -> In row (rfm_of_buy buy) ->
  last_purchase_date row <= ref.
Proof.
  intros Href Hrow.
  assert (Hne : buy <> []) by (intros ->; discriminate).
  destruct (reference_date_spec buy Hne) as (ref' & Href' & _ & Hub).
  rewrite Href in Href'. inversion Href'; subst ref'.
  destruct (rfm_row_purchases _ _ Hrow) as (_ & Hin & _).
  apply in_map_iff in Hin. destruct Hin as (r & <- & Hin).
  apply filter_In in Hin. apply Hub, Hin.
Qed.

(** C2. The recency of a row is the floor of the number of days between
    the reference date (the latest purchase timestamp of all) and the row's
    last purchase date; it is never negative, it is 0 for a row whose last
    purchase date is the reference date, and such a row exists. *)
Theorem recency_floor_days (df : DataFrame) (row : RFMRow F) :
  In row (rfm df) ->
  exists ref,
    reference_date (buy_df df) = Some ref /\
    recency row = (ref - last_purchase_date row) / 86400 /\
    0 <= recency row /\
    (last_purchase_date row = ref -> recency row = 0) /\
    (exists top : RFMRow F,
       In top (rfm df) /\ last_purchase_date top = ref /\ recency top = 0).
Proof.
  unfold rfm. intros Hrow.
  destruct (reference_date_spec _ (rfm_row_nonempty _ _ Hrow)) as (ref & Href & _).
  exists ref. split; [exact Href|].
  assert (Hrec : forall r : RFMRow F, In r (rfm_of_buy (buy_df df)) ->
                 recency r = (ref - last_purchase_date r) / 86400).
  { intros r Hr. destruct (rfm_of_buy_row _ _ Hr) as (_ & _ & _ & _ & Hrc & _).
    rewrite Hrc, Href. reflexivity. }
  pose proof (last_purchase_le_reference _ _ _ Href Hrow) as Hle.
  repeat split.
  - now apply Hrec.
  - rewrite (Hrec _ Hrow). apply Z.div_pos; lia.
  - intros Heq. rewrite (Hrec _ Hrow), Heq, Z.sub_diag. reflexivity.
  - destruct (most_recent_row _ _ Href) as (top & Htop & Hlast).
    exists top. repeat split; auto.
    rewrite (Hrec _ Htop), Hlast, Z.sub_diag. reflexivity.
Qed.

(** C9. On a non-empty set of purchase records, the reference date of line
    64 (the largest purchase timestamp) is the specification's reference
    date (the largest last purchase date of the RFM rows). *)
Theorem reference_date_refines_spec (df : DataFrame) :
  buy_df df <> [] ->
  exists ref, reference_date (buy_df df) = Some ref /\
              spec_reference_date (rfm (F:=F) df) = Some ref.
Proof.
  intros Hne. unfold rfm.
  destruct (reference_date_spec _ Hne) as (ref & Href & _).
  exists ref. split; [exact Href|].
  destruct (most_recent_row _ _ Href) as (top & Htop & Hlast).
  unfold spec_reference_date.
  assert (Hin : In ref (map last_purchase_date (rfm_of_buy (F:=F) (buy_df df))))
    by (rewrite <- Hlast; now apply in_map).
  assert (Hub : forall y, In y (map last_purchase_date (rfm_of_buy (F:=F) (buy_df df))) ->
                          y <= ref).
  { intros y Hy. apply in_map_iff in Hy. destruct Hy as (r & <- & Hr).
    now apply last_purchase_le_reference with (buy_df df). }
  destruct (map last_purchase_date (rfm_of_buy (F:=F) (buy_df df))) as [|x xs];
    [destruct Hin|].
  simpl. f_equal. now apply list_max_char.
Qed.

(** ** Monetary value *)

(** C3. The monetary value of a row is its frequency times 98/3.4, computed
    in the arithmetic of the column, and nothing else: rows of equal
    frequency, of whatever input, have the same monetary value. *)
Theorem monetary_linear_in_frequency (df : DataFrame) (row : RFMRow F) :
  In row (rfm df) ->
  monetary row = fmul (of_int (frequency row)) (fdiv (of_int 98) (fdiv (of_int 34) (of_int 10))) /\
  (forall df' (row' : RFMRow F), In row' (rfm df') ->
     frequency row' = frequency row -> monetary row' = monetary row).
Proof.
  unfold rfm. intros Hrow.
  destruct (rfm_of_buy_row _ _ Hrow) as (_ & _ & _ & _ & _ & Hm).
  split; [exact Hm|].
  intros df' row' Hrow' Hfreq.
  destruct (rfm_of_buy_row _ _ Hrow') as (_ & _ & _ & _ & _ & Hm').
  rewrite Hm, Hm', Hfreq. reflexivity.
Qed.

End RFMFacts.

Lemma unit_value_binary64 :
  unit_value (F:=float) = (98 / 3.4)%float /\
  unit_value (F:=float) = 28.823529411764707%float.
Proof. split; reflexivity. Qed.

Lemma unit_value_exact : (unit_value (F:=Q) == 490 # 17)%Q.
Proof. reflexivity. Qed.

Lemma recency_floor_days_witness :
  exists ref,
    reference_date (buy_df sample_df) = Some ref /\
    recency (mkRFM 3 10 1 1 28.823529411764707%float) =
      (ref - last_purchase_date (mkRFM 3 10 1 1 28.823529411764707%float)) / 86400 /\
    0 <= recency (mkRFM 3 10 1 1 28.823529411764707%float) /\
    (last_purchase_date (mkRFM 3 10 1 1 28.823529411764707%float) = ref ->
     recency (mkRFM 3 10 1 1 28.823529411764707%float) = 0) /\
    (exists top : RFMRow float,
       In top (rfm sample_df) /\ last_purchase_date top = ref /\ recency top = 0).
Proof.
  apply (recency_floor_days sample_df (mkRFM 3 10 1 1 28.823529411764707%float)).
  vm_compute. right. left. reflexivity.
Defined.

Lemma reference_date_refines_spec_witness :
  exists ref, reference_date (buy_df sample_df) = Some ref /\
              spec_reference_date (rfm (F:=float) sample_df) = Some ref.
Proof.
  apply (reference_date_refines_spec sample_df).
  vm_compute. discriminate.
Defined.

Lemma monetary_linear_in_frequency_witness :
  monetary (mkRFM 3 10 1 1 28.823529411764707%float) =
    fmul (of_int (frequency (mkRFM 3 10 1 1 28.823529411764707%float)))
         (fdiv (of_int 98) (fdiv (of_int 34) (of_int 10))) /\
  (forall df' (row' : RFMRow float), In row' (rfm df') ->
     frequency row' = frequency (mkRFM 3 10 1 1 28.823529411764707%float) ->
     monetary row' = monetary (mkRFM 3 10 1 1 28.823529411764707%float)).
Proof.
  apply (monetary_linear_in_frequency sample_df (mkRFM 3 10 1 1 28.823529411764707%float)).
  vm_compute. right. left. reflexivity.
Defined.

(** ** The five-user example *)

(** The row of user 1 when user 1 has ten purchases, one of them the latest
    of all. *)
Lemma ten_purchases_latest {F : Type} `{Arith F} (df : DataFrame) :
  length (filter (fun r => user_id r =? 1) (buy_df df)) = 10%nat ->
  (exists r, In r (buy_df df) /\ user_id r = 1 /\
             forall r', In r' (buy_df df) -> timestamp r' <= timestamp r) ->
  exists row : RFMRow F, In row (rfm df) /\ rfm_user_id row = 1 /\
              recency row = 0 /\ frequency row = 10 /\
              monetary row = fmul (of_int 10) unit_value.
Proof.
  unfold rfm. intros Hten (r & Hr & Hu & Hlatest).
  destruct (row_of_user (F:=F) _ _ Hr) as (row & Hrow & Hid). rewrite Hu in Hid.
  exists row. split; [exact Hrow|]. split; [exact Hid|].
  destruct (rfm_row_purchases _ _ Hrow) as (Hfreq & Hin & Hmax).
  rewrite Hid in Hfreq, Hin, Hmax. rewrite Hten in Hfreq.
  destruct (rfm_of_buy_row _ _ Hrow) as (_ & _ & _ & _ & Hrec & Hm).
  assert (Hne : buy_df df <> []) by (intros E; rewrite E in Hr; exact Hr).
  destruct (reference_date_spec _ Hne) as (ref & Href & (r0 & Hr0 & Hts0) & Hub).
  assert (Hlast : last_purchase_date row = ref).
  { pose proof (last_purchase_le_reference _ _ _ Href Hrow).
    assert (timestamp r <= last_purchase_date row).
    { apply Hmax. apply filter_In. split; auto. rewrite Hu. reflexivity. }
    specialize (Hlatest _ Hr0). lia. }
  split.
  { rewrite Hrec, Href, Hlast. simpl. rewrite Z.sub_diag. reflexivity. }
  split; [exact Hfreq|].
  rewrite Hm, Hfreq. reflexivity.
Qed.

(** C4 (amended). When the purchase records are those of users 1 to 5, user
    1 has ten of them and one of user 1's carries the latest timestamp, the
    row of user 1 has recency 0, frequency 10 and monetary value
    10 * (98/3.4): the float 288.2352941176471, which [round(2)] turns into
    288.24; in exact arithmetic, 4900/17. *)
Theorem five_users_example (df : DataFrame) :
  (forall u, In u (map user_id (buy_df df)) <-> 1 <= u <= 5) ->
  length (filter (fun r => user_id r =? 1) (buy_df df)) = 10%nat ->
  (exists r, In r (buy_df df) /\ user_id r = 1 /\
             forall r', In r' (buy_df df) -> timestamp r' <= timestamp r) ->
  (exists row : RFMRow float, In row (rfm df) /\ rfm_user_id row = 1 /\
              recency row = 0 /\ frequency row = 10 /\
              monetary row = 288.23529411764707%float /\
              round2 (monetary row) = 288.24%float) /\
  (exists row : RFMRow Q, In row (rfm df) /\ rfm_user_id row = 1 /\
              recency row = 0 /\ frequency row = 10 /\
              (monetary row == 4900 # 17)%Q).
Proof.
  intros _ Hten Hlatest. split.
  - destruct (ten_purchases_latest (F:=float) df Hten Hlatest)
      as (row & Hrow & Hid & Hrec & Hfreq & Hm).
    exists row. repeat split; auto; rewrite Hm; reflexivity.
  - destruct (ten_purchases_latest (F:=Q) df Hten Hlatest)
      as (row & Hrow & Hid & Hrec & Hfreq & Hm).
    exists row. repeat split; auto; rewrite Hm; reflexivity.
Qed.

Lemma five_users_example_witness :
  (exists row : RFMRow float, In row (rfm five_users_df) /\ rfm_user_id row = 1 /\
              recency row = 0 /\ frequency row = 10 /\
              monetary row = 288.23529411764707%float /\
              round2 (monetary row) = 288.24%float) /\
  (exists row : RFMRow Q, In row (rfm five_users_df) /\ rfm_user_id row = 1 /\
              recency row = 0 /\ frequency row = 10 /\
              (monetary row == 4900 # 17)%Q).
Proof.
  apply (five_users_example five_users_df).
  - intros u. simpl. split; intros Hu; [intuition lia | lia].
  - reflexivity.
  - exists (purchase 1 200000). split; [simpl; tauto|]. split; [reflexivity|].
    intros r' Hr'. simpl in Hr'.
    repeat (destruct Hr' as [<- | Hr']; [simpl; lia|]). destruct Hr'.
Defined.

(** C4, as stated, fails: on the five-user input the row of user 1 has
    recency 0 and frequency 10, but its monetary value is not 294.12, before
    or after rounding to two decimals. *)
Lemma five_users_monetary_not_294_12 :
  map rfm_user_id (rfm (F:=float) five_users_df) = [1; 2; 3; 4; 5] /\
  exists row : RFMRow float,
    In row (rfm five_users_df) /\ rfm_user_id row = 1 /\
    recency row = 0 /\ frequency row = 10 /\
    monetary row = 288.23529411764707%float /\
    PrimFloat.eqb (monetary row) 294.12 = false /\
    PrimFloat.eqb (round2 (monetary row)) 294.12 = false.
Proof.
  split; [reflexivity|].
  exists (mkRFM 1 200000 10 0 288.23529411764707%float).
  split; [vm_compute; left; reflexivity|].
  repeat split; reflexivity.
Qed.

(** The recency of a row, written out. *)
Lemma recency_formula {F} `{Arith F} (buy : DataFrame) (row : RFMRow F) :
  In row (rfm_of_buy buy) ->
  exists ref, reference_date buy = Some ref /\
              last_purchase_date row <= ref /\
              recency row = (ref - last_purchase_date row) / 86400.
Proof.
  intros Hrow.
  destruct (reference_date_spec _ (rfm_row_nonempty _ _ Hrow)) as (ref & Href & _).
  exists ref. split; [exact Href|]. split.
  - now apply last_purchase_le_reference with buy.
  - destruct (rfm_of_buy_row _ _ Hrow) as (_ & _ & _ & _ & Hrc & _).
    rewrite Hrc, Href. reflexivity.
Qed.

(** ** Rounding in binary64

    The operations of binary64 are those of the Standard Library's
    specification of IEEE 754 ([SpecFloat]), to which the primitive floats
    are tied by [FloatAxioms].  Its rounding is characterised here as
    [round_grid], which is monotone. *)


Lemma pow2_pos (k : Z) : 0 <= k -> 0 < 2 ^ k.
Proof. intros. apply Z.pow_pos_nonneg; lia. Qed.

Lemma rne_shift_bounds (m k : Z) :
  m / 2 ^ k <= rne_shift m k <= m / 2 ^ k + 1.
Proof.
  unfold rne_shift.
  destruct (2 * (m mod 2 ^ k) <? 2 ^ k); [lia|].
  destruct (2 ^ k <? 2 * (m mod 2 ^ k)); [lia|].
  destruct (Z.even (m / 2 ^ k)); lia.
Qed.

Lemma rne_shift_spec (m k : Z) :
  0 <= k ->
  2 ^ k * (2 * rne_shift m k - 1) <= 2 * m <= 2 ^ k * (2 * rne_shift m k + 1).
Proof.
  intros Hk. pose proof (pow2_pos k Hk) as HP.
  pose proof (Z.div_mod m (2 ^ k) ltac:(lia)) as Hdm.
  pose proof (Z.mod_pos_bound m (2 ^ k) HP) as Hb.
  unfold rne_shift.
  destruct (Z.ltb_spec (2 * (m mod 2 ^ k)) (2 ^ k)); [nia|].
  destruct (Z.ltb_spec (2 ^ k) (2 * (m mod 2 ^ k))); [nia|].
  destruct (Z.even (m / 2 ^ k)); nia.
Qed.

Lemma rne_shift_mono (m m' k : Z) :
  0 <= k -> m <= m' -> rne_shift m k <= rne_shift m' k.
Proof.
  intros Hk Hm. pose proof (pow2_pos k Hk) as HP.
  destruct (Z.eq_dec m m') as [-> | Hne]; [lia|].
  pose proof (rne_shift_spec m k Hk) as [H1 _].
  pose proof (rne_shift_spec m' k Hk) as [_ H2].
  destruct (Z_le_gt_dec (rne_shift m k) (rne_shift m' k)) as [|Hgt]; [assumption|].
  exfalso.
  assert (2 ^ k * (2 * rne_shift m' k + 1) <= 2 ^ k * (2 * rne_shift m k - 1))
    by (apply Z.mul_le_mono_nonneg_l; lia).
  lia.
Qed.

Lemma rne_shift_exact (a k : Z) : 0 <= k -> rne_shift (a * 2 ^ k) k = a.
Proof.
  intros Hk. pose proof (pow2_pos k Hk) as HP. unfold rne_shift.
  rewrite Z.div_mul, Z.mod_mul by lia.
  destruct (Z.ltb_spec (2 * 0) (2 ^ k)); lia.
Qed.

Lemma rne_shift_scale (m k j : Z) :
  0 <= k -> 0 <= j -> rne_shift (m * 2 ^ j) (k + j) = rne_shift m k.
Proof.
  intros Hk Hj. pose proof (pow2_pos k Hk) as HP. pose proof (pow2_pos j Hj) as HQ.
  unfold rne_shift. rewrite Z.pow_add_r by lia.
  rewrite Z.div_mul_cancel_r by lia.
  rewrite Z.mul_mod_distr_r by lia.
  destruct (Z.ltb_spec (2 * (m mod 2 ^ k)) (2 ^ k));
    destruct (Z.ltb_spec (2 * (m mod 2 ^ k * 2 ^ j)) (2 ^ k * 2 ^ j)); try nia.
  destruct (Z.ltb_spec (2 ^ k) (2 * (m mod 2 ^ k)));
    destruct (Z.ltb_spec (2 ^ k * 2 ^ j) (2 * (m mod 2 ^ k * 2 ^ j))); try nia;
    reflexivity.
Qed.

Lemma rne_shift_zero (k : Z) : rne_shift 0 k = 0.
Proof.
  unfold rne_shift. rewrite Zdiv_0_l, Zmod_0_l.
  pose proof (Z.pow_nonneg 2 k ltac:(lia)).
  destruct (2 * 0 <? 2 ^ k); [reflexivity|].
  destruct (Z.ltb_spec (2 ^ k) (2 * 0)); [lia | reflexivity].
Qed.

(** *** Binary digits *)

Lemma digits2_bounds (p : positive) :
  2 ^ (Zpos (digits2_pos p) - 1) <= Zpos p < 2 ^ Zpos (digits2_pos p).
Proof.
  induction p as [p IH | p IH |]; cbn [digits2_pos].
  - rewrite Pos2Z.inj_succ. replace (Z.succ (Zpos (digits2_pos p)) - 1)
      with (Z.succ (Zpos (digits2_pos p) - 1)) by lia.
    rewrite !Z.pow_succ_r by lia. lia.
  - rewrite Pos2Z.inj_succ. replace (Z.succ (Zpos (digits2_pos p)) - 1)
      with (Z.succ (Zpos (digits2_pos p) - 1)) by lia.
    rewrite !Z.pow_succ_r by lia. lia.
  - simpl. lia.
Qed.

Lemma Zdigits2_bounds (x : Z) :
  0 < x -> 2 ^ (Zdigits2 x - 1) <= x < 2 ^ Zdigits2 x.
Proof. destruct x as [|p|p]; try lia. intros _. apply digits2_bounds. Qed.

Lemma Zdigits2_pos (x : Z) : 0 < x -> 1 <= Zdigits2 x.
Proof. destruct x as [|p|p]; simpl; lia. Qed.

Lemma Zdigits2_nonneg (x : Z) : 0 <= Zdigits2 x.
Proof. destruct x as [|p|p]; simpl; lia. Qed.

(** A number below [2^d] has at most [d] digits, one from [2^(d-1)] on has at
    least [d]. *)
Lemma Zdigits2_le (x d : Z) : 0 <= d -> 0 <= x < 2 ^ d -> Zdigits2 x <= d.
Proof.
  intros Hd [H0 Hx]. destruct (Z.eq_dec x 0) as [-> | Hne]; [simpl; lia|].
  destruct (Zdigits2_bounds x ltac:(lia)) as [Hlo _].
  destruct (Z_le_gt_dec (Zdigits2 x) d) as [|Hgt]; [assumption|]. exfalso.
  assert (2 ^ d <= 2 ^ (Zdigits2 x - 1)) by (apply Z.pow_le_mono_r; lia). lia.
Qed.

Lemma Zdigits2_ge (x d : Z) : 2 ^ (d - 1) <= x -> 1 <= d -> d <= Zdigits2 x.
Proof.
  intros Hx Hd. assert (0 < x) by (pose proof (pow2_pos (d - 1)); lia).
  destruct (Zdigits2_bounds x ltac:(lia)) as [_ Hhi].
  destruct (Z_le_gt_dec d (Zdigits2 x)) as [|Hgt]; [assumption|]. exfalso.
  assert (2 ^ Zdigits2 x <= 2 ^ (d - 1)) by (apply Z.pow_le_mono_r; lia). lia.
Qed.

Lemma Zdigits2_mono (x y : Z) : 0 <= x <= y -> Zdigits2 x <= Zdigits2 y.
Proof.
  intros [H0 Hxy]. destruct (Z.eq_dec x 0) as [-> | Hne].
  - apply Zdigits2_nonneg.
  - destruct (Zdigits2_bounds x ltac:(lia)) as [Hlo _].
    apply Zdigits2_ge; [lia | apply Zdigits2_pos; lia].
Qed.

Lemma Zdigits2_mul_pow2 (x k : Z) :
  0 < x -> 0 <= k -> Zdigits2 (x * 2 ^ k) = Zdigits2 x + k.
Proof.
  intros Hx Hk. pose proof (pow2_pos k Hk) as HP.
  destruct (Zdigits2_bounds x Hx) as [Hlo Hhi].
  pose proof (Zdigits2_pos x Hx) as Hd.
  apply Z.le_antisymm.
  - apply Zdigits2_le; [lia|]. split; [nia|].
    rewrite Z.pow_add_r by lia. nia.
  - apply Zdigits2_ge; [|lia].
    replace (Zdigits2 x + k - 1) with (Zdigits2 x - 1 + k) by lia.
    rewrite Z.pow_add_r by lia. nia.
Qed.

(** *** Rounding to the grid *)

Lemma grid_exp_nonneg (X : Z) : 0 <= grid_exp X.
Proof. unfold grid_exp. lia. Qed.

Lemma round_grid_mono (X Y : Z) : 0 <= X <= Y -> round_grid X <= round_grid Y.
Proof.
  intros [H0 HXY]. unfold round_grid.
  pose proof (grid_exp_nonneg X) as HkX. pose proof (grid_exp_nonneg Y) as HkY.
  pose proof (Zdigits2_mono X Y (conj H0 HXY)) as Hd.
  destruct (Z.eq_dec (grid_exp X) (grid_exp Y)) as [E | Hne].
  - rewrite E. apply Z.mul_le_mono_nonneg_r; [apply Z.pow_nonneg; lia|].
    now apply rne_shift_mono.
  - assert (Hlt : grid_exp X < grid_exp Y) by (unfold grid_exp in *; lia).
    assert (HdY : grid_exp Y = Zdigits2 Y - 53) by (unfold grid_exp in *; lia).
    assert (HdXY : Zdigits2 X < Zdigits2 Y) by (unfold grid_exp in *; lia).
    assert (HY : 0 < Y) by (destruct Y; simpl in *; lia).
    (* the rounded Y is at least 2^(digits Y - 1) *)
    assert (HloY : 2 ^ (Zdigits2 Y - 1) <= rne_shift Y (grid_exp Y) * 2 ^ grid_exp Y).
    { destruct (Zdigits2_bounds Y HY) as [Hlo _].
      replace (2 ^ (Zdigits2 Y - 1))
        with (2 ^ (Zdigits2 Y - 1 - grid_exp Y) * 2 ^ grid_exp Y)
        by (rewrite <- Z.pow_add_r by lia; f_equal; lia).
      apply Z.mul_le_mono_nonneg_r; [apply Z.pow_nonneg; lia|].
      rewrite <- (rne_shift_exact (2 ^ (Zdigits2 Y - 1 - grid_exp Y)) (grid_exp Y)) at 1 by lia.
      apply rne_shift_mono; [lia|].
      rewrite <- Z.pow_add_r by lia.
      now replace (Zdigits2 Y - 1 - grid_exp Y + grid_exp Y) with (Zdigits2 Y - 1) by lia. }
    (* the rounded X is at most 2^(digits X) *)
    assert (HhiX : rne_shift X (grid_exp X) * 2 ^ grid_exp X <= 2 ^ Zdigits2 X).
    { destruct (Z.eq_dec X 0) as [-> | HX0].
      - rewrite rne_shift_zero. simpl. lia.
      - destruct (Zdigits2_bounds X ltac:(lia)) as [_ Hhi].
        destruct (Z_le_gt_dec (grid_exp X) (Zdigits2 X)) as [Hle | Hgt].
        + replace (2 ^ Zdigits2 X)
            with (2 ^ (Zdigits2 X - grid_exp X) * 2 ^ grid_exp X)
            by (rewrite <- Z.pow_add_r by lia; f_equal; lia).
          apply Z.mul_le_mono_nonneg_r; [apply Z.pow_nonneg; lia|].
          rewrite <- (rne_shift_exact (2 ^ (Zdigits2 X - grid_exp X)) (grid_exp X)) by lia.
          apply rne_shift_mono; [lia|].
          rewrite <- Z.pow_add_r by lia.
          replace (Zdigits2 X - grid_exp X + grid_exp X) with (Zdigits2 X) by lia. lia.
        + pose proof (Zdigits2_nonneg X) as HdX.
          assert (Hz : rne_shift X (grid_exp X) = 0).
          { assert (2 ^ Zdigits2 X <= 2 ^ (grid_exp X - 1))
              by (apply Z.pow_le_mono_r; lia).
            assert (2 ^ grid_exp X = 2 * 2 ^ (grid_exp X - 1)).
            { replace (grid_exp X) with (Z.succ (grid_exp X - 1)) at 1 by lia.
              rewrite Z.pow_succ_r; lia. }
            unfold rne_shift.
            rewrite Z.div_small, Z.mod_small by lia.
            destruct (Z.ltb_spec (2 * X) (2 ^ grid_exp X)); lia. }
          rewrite Hz. pose proof (pow2_pos (Zdigits2 X) (Zdigits2_nonneg X)). lia. }
    assert (2 ^ Zdigits2 X <= 2 ^ (Zdigits2 Y - 1)) by (apply Z.pow_le_mono_r; lia).
    lia.
Qed.

Lemma fexp_eq (e : Z) : fexp prec emax e = Z.max (e - 53) (-1074).
Proof. reflexivity. Qed.

Lemma iter_pos_nat {A} (f : A -> A) (p : positive) (x : A) :
  iter_pos f p x = Nat.iter (Pos.to_nat p) f x.
Proof.
  revert x. induction p as [p IH | p IH |]; intros x; cbn [iter_pos].
  - rewrite !IH, Pos2Nat.inj_xI, Nat.iter_succ_r.
    replace (2 * Pos.to_nat p)%nat with (Pos.to_nat p + Pos.to_nat p)%nat by lia.
    now rewrite Nat.iter_add.
  - rewrite !IH, Pos2Nat.inj_xO.
    replace (2 * Pos.to_nat p)%nat with (Pos.to_nat p + Pos.to_nat p)%nat by lia.
    now rewrite Nat.iter_add.
  - reflexivity.
Qed.

Lemma shr_nat (mrs : shr_record) (e n : Z) :
  shr mrs e n = (Nat.iter (Z.to_nat n) shr_1 mrs, e + Z.max 0 n).
Proof.
  destruct n as [|p|p]; cbn [shr Z.to_nat].
  - now rewrite Z.add_0_r.
  - rewrite iter_pos_nat. f_equal. 
  - now rewrite Z.add_0_r.
Qed.

Lemma shr_1_fields (R : shr_record) :
  0 <= shr_m R ->
  shr_m (shr_1 R) = shr_m R / 2 /\
  shr_r (shr_1 R) = Z.odd (shr_m R) /\
  shr_s (shr_1 R) = shr_r R || shr_s R.
Proof.
  destruct R as [m r s]. cbn [shr_m shr_r shr_s]. intros Hm.
  rewrite <- Z.div2_div.
  destruct m as [|[p|p|]|p]; try lia; repeat split.
Qed.

(** The mantissa after [k] shifts, whatever the location it starts from. *)
Lemma shr_iter_m (R : shr_record) (k : nat) :
  0 <= shr_m R ->
  shr_m (Nat.iter k shr_1 R) = shr_m R / 2 ^ Z.of_nat k.
Proof.
  intros Hm. induction k as [|k IH].
  - simpl. now rewrite Z.div_1_r.
  - rewrite Nat.iter_succ.
    assert (Hk : 0 <= shr_m (Nat.iter k shr_1 R))
      by (rewrite IH; apply Z.div_pos; [lia | apply pow2_pos; lia]).
    destruct (shr_1_fields _ Hk) as (-> & _ & _).
    rewrite IH, Nat2Z.inj_succ, Z.pow_succ_r by lia.
    rewrite Z.div_div by (try apply pow2_pos; lia).
    f_equal. lia.
Qed.

(** The record after [k] shifts of an exact mantissa. *)
Lemma shr_iter_exact (m : Z) (k : nat) :
  0 <= m ->
  let R := Nat.iter k shr_1 (Build_shr_record m false false) in
  shr_m R = m / 2 ^ Z.of_nat k /\
  shr_r R = (2 ^ Z.of_nat k <=? 2 * (m mod 2 ^ Z.of_nat k)) /\
  shr_s R = negb (m mod 2 ^ Z.of_nat k =? 0) &&
            negb (2 * (m mod 2 ^ Z.of_nat k) =? 2 ^ Z.of_nat k).
Proof.
  intros Hm. induction k as [|k IH]; cbv zeta in *.
  - simpl. rewrite Z.div_1_r, Z.mod_1_r. repeat split.
  - rewrite Nat.iter_succ.
    destruct IH as (IHm & IHr & IHs).
    set (R := Nat.iter k shr_1 (Build_shr_record m false false)) in *.
    set (P := 2 ^ Z.of_nat k) in *.
    assert (HP : 0 < P) by (apply pow2_pos; lia).
    assert (Hq : 0 <= shr_m R) by (rewrite IHm; apply Z.div_pos; lia).
    destruct (shr_1_fields R Hq) as (Em & Er & Es).
    rewrite Em, Er, Es, IHr, IHs, IHm.
    rewrite Nat2Z.inj_succ, Z.pow_succ_r by lia. fold P.
    assert (Hrem : m mod (2 * P) = m mod P + P * ((m / P) mod 2)).
    { rewrite (Z.mul_comm 2 P). apply Z.rem_mul_r; lia. }
    pose proof (Z.mod_pos_bound m P HP) as Hb.
    pose proof (Zmod_odd (m / P)) as Hodd.
    split; [|split].
    + rewrite Z.div_div by lia. f_equal. lia.
    + rewrite Hrem. destruct (Z.odd (m / P)); rewrite Hodd;
        destruct (Z.leb_spec (2 * P) (2 * (m mod P + P * 1)));
        destruct (Z.leb_spec (2 * P) (2 * (m mod P + P * 0))); try lia; reflexivity.
    + rewrite Hrem, Hodd.
      destruct (Z.leb_spec P (2 * (m mod P)));
        destruct (Z.eqb_spec (m mod P) 0);
        destruct (Z.eqb_spec (2 * (m mod P)) P);
        destruct (Z.odd (m / P));
        cbn [negb andb orb];
        repeat match goal with
               | |- context [?a =? ?b] => destruct (Z.eqb_spec a b)
               end; cbn [negb andb orb]; try reflexivity; lia.
Qed.

Lemma shr_round_exact (m : Z) (k : nat) :
  0 <= m ->
  let R := Nat.iter k shr_1 (Build_shr_record m false false) in
  round_nearest_even (shr_m R) (loc_of_shr_record R) = rne_shift m (Z.of_nat k).
Proof.
  intros Hm. cbv zeta.
  destruct (shr_iter_exact m k Hm) as (Em & Er & Es).
  set (R := Nat.iter k shr_1 (Build_shr_record m false false)) in *.
  destruct R as [q r s]. cbn [shr_m shr_r shr_s] in *.
  assert (HP : 0 < 2 ^ Z.of_nat k) by (apply pow2_pos; lia).
  pose proof (Z.mod_pos_bound m (2 ^ Z.of_nat k) HP) as Hb.
  unfold rne_shift. rewrite <- Em.
  subst r s.
  destruct (Z.leb_spec (2 ^ Z.of_nat k) (2 * (m mod 2 ^ Z.of_nat k)));
    destruct (Z.eqb_spec (m mod 2 ^ Z.of_nat k) 0);
    destruct (Z.eqb_spec (2 * (m mod 2 ^ Z.of_nat k)) (2 ^ Z.of_nat k));
    destruct (Z.ltb_spec (2 * (m mod 2 ^ Z.of_nat k)) (2 ^ Z.of_nat k));
    destruct (Z.ltb_spec (2 ^ Z.of_nat k) (2 * (m mod 2 ^ Z.of_nat k)));
    cbn [negb andb loc_of_shr_record round_nearest_even]; try lia; reflexivity.
Qed.

Lemma round_nearest_even_bounds (m : Z) (l : location) :
  m <= round_nearest_even m l <= m + 1.
Proof.
  destruct l as [|[| |]]; cbn [round_nearest_even]; try lia.
  destruct (Z.even m); lia.
Qed.

Lemma shr_record_of_loc_m (m : Z) (l : location) : shr_m (shr_record_of_loc m l) = m.
Proof. destruct l as [|[| |]]; reflexivity. Qed.

(** [binary_round_aux], step by step. *)
Lemma bra_unfold (s : bool) (m e : Z) (l : location) :
  binary_round_aux prec emax s m e l =
  let n1 := fexp prec emax (Zdigits2 m + e) - e in
  let R1 := Nat.iter (Z.to_nat n1) shr_1 (shr_record_of_loc m l) in
  let e1 := e + Z.max 0 n1 in
  let r := round_nearest_even (shr_m R1) (loc_of_shr_record R1) in
  let n2 := fexp prec emax (Zdigits2 r + e1) - e1 in
  let R2 := Nat.iter (Z.to_nat n2) shr_1 (shr_record_of_loc r loc_Exact) in
  let e2 := e1 + Z.max 0 n2 in
  match shr_m R2 with
  | Z0 => S754_zero s
  | Zpos p => if e2 <=? emax - prec then S754_finite s p e2 else S754_infinity s
  | Zneg _ => S754_nan
  end.
Proof.
  unfold binary_round_aux, shr_fexp. rewrite shr_nat. cbv beta iota zeta.
  rewrite shr_nat. reflexivity.
Qed.

Lemma Z_of_nat_to_nat_max (n : Z) : Z.of_nat (Z.to_nat n) = Z.max 0 n.
Proof. lia. Qed.

Lemma div_pow2_lt (m d n : Z) :
  0 <= n <= d -> 0 <= m < 2 ^ d -> m / 2 ^ n < 2 ^ (d - n).
Proof.
  intros [Hn Hd] [Hm0 Hm]. apply Z.div_lt_upper_bound; [apply pow2_pos; lia|].
  rewrite <- Z.pow_add_r by lia. now replace (n + (d - n)) with d by lia.
Qed.

(** Magnitude of the result of [binary_round_aux], whatever the location. *)
Lemma bra_magnitude (s : bool) (m e : Z) (l : location) (K : Z) :
  0 <= m -> e <= 971 -> Zdigits2 m + e + 1 <= K -> -1073 <= K <= 1024 ->
  match binary_round_aux prec emax s m e l with
  | S754_zero s' => s' = s
  | S754_finite s' m' e' => s' = s /\ Zpos (digits2_pos m') + e' <= K
  | _ => False
  end.
Proof.
  intros Hm He HK HK'. rewrite bra_unfold. cbv zeta.
  set (d := Zdigits2 m) in *.
  set (n1 := fexp prec emax (d + e) - e).
  set (R1 := Nat.iter (Z.to_nat n1) shr_1 (shr_record_of_loc m l)).
  set (e1 := e + Z.max 0 n1).
  set (r := round_nearest_even (shr_m R1) (loc_of_shr_record R1)).
  set (n2 := fexp prec emax (Zdigits2 r + e1) - e1).
  set (R2 := Nat.iter (Z.to_nat n2) shr_1 (shr_record_of_loc r loc_Exact)).
  pose proof (Zdigits2_nonneg m) as Hd0. fold d in Hd0.
  assert (Hn1 : n1 = Z.max (d + e - 53) (-1074) - e) by reflexivity.
  assert (He1 : e1 = e + Z.max 0 n1) by reflexivity.
  assert (Hn2 : n2 = Z.max (Zdigits2 r + e1 - 53) (-1074) - e1) by reflexivity.
  assert (HR1 : shr_m R1 = m / 2 ^ Z.max 0 n1).
  { unfold R1. rewrite shr_iter_m, shr_record_of_loc_m, Z_of_nat_to_nat_max; auto.
    now rewrite shr_record_of_loc_m. }
  assert (Hq0 : 0 <= m / 2 ^ Z.max 0 n1) by (apply Z.div_pos; [lia | apply pow2_pos; lia]).
  pose proof (round_nearest_even_bounds (shr_m R1) (loc_of_shr_record R1)) as Hr.
  fold r in Hr. rewrite HR1 in Hr.
  assert (Hr0 : 0 <= r) by lia.
  (* magnitude of the rounded mantissa *)
  assert (Hmag : Zdigits2 r + e1 <= K).
  { destruct (Z.eq_dec m 0) as [Hm0 | Hm0].
    - rewrite Hm0, Zdiv_0_l in Hr.
      assert (Zdigits2 r <= 1) by (apply Zdigits2_le; simpl; lia).
      assert (d = 0) by (unfold d; now rewrite Hm0).
      lia.
    - destruct (Zdigits2_bounds m ltac:(lia)) as [_ Hhi]. fold d in Hhi.
      destruct (Z_le_gt_dec (Z.max 0 n1) d) as [Hle | Hgt].
      + pose proof (div_pow2_lt m d (Z.max 0 n1) ltac:(lia) ltac:(lia)) as Hlt.
        assert (Zdigits2 r <= d - Z.max 0 n1 + 1).
        { apply Zdigits2_le; [lia|]. split; [lia|].
          rewrite Z.pow_add_r, Z.pow_1_r by lia. lia. }
        lia.
      + assert (Hz : m / 2 ^ Z.max 0 n1 = 0).
        { apply Z.div_small. split; [lia|].
          eapply Z.lt_le_trans; [exact Hhi|]. apply Z.pow_le_mono_r; lia. }
        rewrite Hz in Hr.
        assert (Zdigits2 r <= 1) by (apply Zdigits2_le; simpl; lia).
        lia. }
  assert (HR2 : shr_m R2 = r / 2 ^ Z.max 0 n2).
  { unfold R2. rewrite shr_iter_m, Z_of_nat_to_nat_max; auto. }
  assert (Hq2 : 0 <= r / 2 ^ Z.max 0 n2) by (apply Z.div_pos; [lia | apply pow2_pos; lia]).
  destruct (shr_m R2) as [|p|p] eqn:Ep; [reflexivity | | lia].
  assert (He2 : e1 + Z.max 0 n2 <= 971).
  { lia. }
  change (emax - prec) with 971.
  destruct (Z.leb_spec (e1 + Z.max 0 n2) 971); [|lia].
  split; [reflexivity|].
  (* digits of the final mantissa *)
  assert (Hp : Zpos p * 2 ^ Z.max 0 n2 <= r).
  { rewrite HR2. pose proof (pow2_pos (Z.max 0 n2) ltac:(lia)) as HP.
    pose proof (Z.mul_div_le r (2 ^ Z.max 0 n2) HP). lia. }
  assert (Zdigits2 (Zpos p * 2 ^ Z.max 0 n2) <= Zdigits2 r).
  { apply Zdigits2_mono. split; [|exact Hp].
    pose proof (pow2_pos (Z.max 0 n2) ltac:(lia)). nia. }
  rewrite Zdigits2_mul_pow2 in H0 by lia.
  change (Zdigits2 (Zpos p)) with (Zpos (digits2_pos p)) in H0. lia.
Qed.

(** The value of the result of [binary_round_aux] on an exact input whose
    exponent is not above its place on the grid. *)
Lemma bra_exact (s : bool) (M : positive) (E : Z) :
  -2148 <= E -> E <= fexp prec emax (Zpos (digits2_pos M) + E) ->
  Zpos (digits2_pos M) + E + 1 <= 1024 ->
  match binary_round_aux prec emax s (Zpos M) E loc_Exact with
  | S754_zero s' => s' = s /\ round_grid (Zpos M * 2 ^ (E + 2148)) = 0
  | S754_finite s' m e =>
      s' = s /\ -1074 <= e /\
      Zpos m * 2 ^ (e + 2148) = round_grid (Zpos M * 2 ^ (E + 2148))
  | _ => False
  end.
Proof.
  intros HL Hn Hmag. rewrite bra_unfold. cbv zeta.
  change (Zdigits2 (Zpos M)) with (Zpos (digits2_pos M)).
  set (d := Zpos (digits2_pos M)) in *.
  set (n1 := fexp prec emax (d + E) - E).
  change (shr_record_of_loc (Zpos M) loc_Exact) with (Build_shr_record (Zpos M) false false).
  rewrite (shr_round_exact (Zpos M) (Z.to_nat n1)) by lia.
  rewrite Z_of_nat_to_nat_max.
  assert (Hn1 : n1 = Z.max (d + E - 53) (-1074) - E) by reflexivity.
  rewrite fexp_eq in Hn.
  assert (Hn1' : Z.max 0 n1 = n1) by lia. rewrite Hn1'.
  set (r := rne_shift (Zpos M) n1).
  set (e1 := E + n1).
  set (n2 := fexp prec emax (Zdigits2 r + e1) - e1).
  assert (He1 : e1 = Z.max (d + E - 53) (-1074)) by (unfold e1; lia).
  assert (Hn2 : n2 = Z.max (Zdigits2 r + e1 - 53) (-1074) - e1) by reflexivity.
  change (shr_record_of_loc r loc_Exact) with (Build_shr_record r false false).
  destruct (digits2_bounds M) as [Hlo Hhi]. fold d in Hlo, Hhi.
  assert (Hd : 1 <= d) by (unfold d; lia).
  pose proof (rne_shift_bounds (Zpos M) n1) as Hr. fold r in Hr.
  assert (Hq0 : 0 <= Zpos M / 2 ^ n1) by (apply Z.div_pos; [lia | apply pow2_pos; lia]).
  assert (Hr0 : 0 <= r) by lia.
  (* the grid of the scaled mantissa *)
  set (X := Zpos M * 2 ^ (E + 2148)).
  assert (HX : round_grid X = r * 2 ^ (e1 + 2148)).
  { unfold round_grid, grid_exp, X. rewrite Zdigits2_mul_pow2 by lia.
    change (Zdigits2 (Zpos M)) with d.
    replace (Z.max (d + (E + 2148) - 53) 1074) with (n1 + (E + 2148)) by lia.
    rewrite rne_shift_scale by lia. fold r. f_equal. f_equal. unfold e1. lia. }
  (* the rounded mantissa has at most 54 digits, and 54 only as 2^53 *)
  assert (Hr53 : r <= 2 ^ 53).
  { destruct (Z_le_gt_dec n1 d) as [Hle | Hgt].
    - pose proof (div_pow2_lt (Zpos M) d n1 ltac:(lia) ltac:(lia)) as Hlt.
      assert (2 ^ (d - n1) <= 2 ^ 53) by (apply Z.pow_le_mono_r; lia). lia.
    - assert (Hz : Zpos M / 2 ^ n1 = 0).
      { apply Z.div_small. split; [lia|].
        eapply Z.lt_le_trans; [exact Hhi|]. apply Z.pow_le_mono_r; lia. }
      rewrite Hz in Hr. change (2 ^ 53) with 9007199254740992. lia. }
  rewrite HX.
  assert (HR2 : shr_m (Nat.iter (Z.to_nat n2) shr_1 (Build_shr_record r false false)) =
                r / 2 ^ Z.max 0 n2).
  { rewrite shr_iter_m, Z_of_nat_to_nat_max; auto. }
  rewrite HR2. change (emax - prec) with 971.
  destruct (Z.eq_dec r (2 ^ 53)) as [E53 | Hne].
  - assert (Hdr : Zdigits2 r = 54) by (rewrite E53; reflexivity).
    assert (Hn2' : Z.max 0 n2 = 1) by lia.
    rewrite Hn2', E53. change (2 ^ 53 / 2 ^ 1) with (Zpos 4503599627370496).
    cbv iota. destruct (Z.leb_spec (e1 + 1) 971); [|lia].
    split; [reflexivity|]. split; [lia|].
    replace (e1 + 1 + 2148) with (1 + (e1 + 2148)) by lia.
    rewrite Z.pow_add_r by lia. change (2 ^ 53) with (4503599627370496 * 2 ^ 1). lia.
  - assert (Hdr : Zdigits2 r <= 53) by (apply Zdigits2_le; lia).
    assert (Hn2' : Z.max 0 n2 = 0) by lia.
    rewrite Hn2'. rewrite Z.pow_0_r, Z.div_1_r, Z.add_0_r.
    destruct r as [|p|p]; [| |lia].
    + split; [reflexivity | lia].
    + destruct (Z.leb_spec e1 971); [|lia].
      split; [reflexivity|]. split; [lia | reflexivity].
Qed.


Lemma valid_finite (s : bool) (m : positive) (e : Z) :
  valid_binary (S754_finite s m e) = true ->
  Z.max (Zpos (digits2_pos m) + e - 53) (-1074) = e /\ e <= 971.
Proof.
  cbn [valid_binary]. unfold bounded, canonical_mantissa.
  rewrite andb_true_iff, Z.eqb_eq, Z.leb_le, fexp_eq. tauto.
Qed.

Lemma nonneg_below_weaken (K K' : Z) (f : spec_float) :
  K <= K' -> nonneg_below K f -> nonneg_below K' f.
Proof. intros HK. destruct f as [s|s| |[|] m e]; simpl; intros; try tauto; lia. Qed.

Lemma Zval_nonneg (f : spec_float) : 0 <= Zval f.
Proof.
  destruct f as [s|s| |s m e]; cbn [Zval]; try lia.
  all: pose proof (Z.pow_nonneg 2 (e + 1074)); lia.
Qed.

Lemma Zval_finite_pos (s : bool) (m : positive) (e : Z) :
  -1074 <= e -> 0 < Zval (S754_finite s m e).
Proof. intros He. cbn [Zval]. pose proof (pow2_pos (e + 1074)). lia. Qed.

(** On canonical numbers the exponent decides the order. *)
Lemma canonical_lt (s1 s2 : bool) (m1 m2 : positive) (e1 e2 : Z) :
  valid_binary (S754_finite s1 m1 e1) = true ->
  valid_binary (S754_finite s2 m2 e2) = true ->
  e1 < e2 ->
  Zval (S754_finite s1 m1 e1) < Zval (S754_finite s2 m2 e2).
Proof.
  intros H1 H2 Hlt. apply valid_finite in H1, H2.
  destruct (digits2_bounds m1) as [_ Hhi1]. destruct (digits2_bounds m2) as [Hlo2 _].
  cbn [Zval].
  assert (Hd2 : Zpos (digits2_pos m2) = 53) by lia. rewrite Hd2 in Hlo2.
  assert (Hd1 : 2 ^ Zpos (digits2_pos m1) <= 2 ^ 53) by (apply Z.pow_le_mono_r; lia).
  pose proof (pow2_pos (e1 + 1074) ltac:(lia)) as HP1.
  assert (HP : 2 ^ (e2 + 1074) = 2 ^ (e1 + 1074) * 2 ^ (e2 - e1))
    by (rewrite <- Z.pow_add_r by lia; f_equal; lia).
  assert (2 ^ 1 <= 2 ^ (e2 - e1)) by (apply Z.pow_le_mono_r; lia).
  rewrite HP. change (2 ^ (53 - 1)) with 4503599627370496 in Hlo2.
  change (2 ^ 53) with 9007199254740992 in Hd1. change (2 ^ 1) with 2 in H.
  nia.
Qed.

Lemma SFcompare_Zval (K1 K2 : Z) (f1 f2 : spec_float) :
  valid_binary f1 = true -> valid_binary f2 = true ->
  nonneg_below K1 f1 -> nonneg_below K2 f2 ->
  SFcompare f1 f2 = Some (Zval f1 ?= Zval f2).
Proof.
  intros V1 V2 N1 N2.
  destruct f1 as [s1|s1| |[|] m1 e1]; try contradiction;
    destruct f2 as [s2|s2| |[|] m2 e2]; try contradiction.
  - reflexivity.
  - pose proof (Zval_finite_pos false m2 e2 ltac:(apply valid_finite in V2; lia)) as Hp.
    cbn [SFcompare]. change (Zval (S754_zero s1)) with 0.
    destruct (Z.compare_spec 0 (Zval (S754_finite false m2 e2))); try lia; reflexivity.
  - pose proof (Zval_finite_pos false m1 e1 ltac:(apply valid_finite in V1; lia)) as Hp.
    cbn [SFcompare]. change (Zval (S754_zero s2)) with 0.
    destruct (Z.compare_spec (Zval (S754_finite false m1 e1)) 0); try lia; reflexivity.
  - cbn [SFcompare]. f_equal.
    destruct (Z.compare_spec e1 e2) as [E | Hlt | Hgt].
    + subst e2. cbn [Zval].
      pose proof (pow2_pos (e1 + 1074) ltac:(apply valid_finite in V1; lia)) as HP.
      change (Pos.compare_cont Eq m1 m2) with (Zpos m1 ?= Zpos m2).
      destruct (Z.compare_spec (Zpos m1) (Zpos m2));
        destruct (Z.compare_spec (Zpos m1 * 2 ^ (e1 + 1074)) (Zpos m2 * 2 ^ (e1 + 1074)));
        try reflexivity; nia.
    + pose proof (canonical_lt _ _ _ _ _ _ V1 V2 Hlt).
      destruct (Z.compare_spec (Zval (S754_finite false m1 e1))
                               (Zval (S754_finite false m2 e2))); try lia; reflexivity.
    + pose proof (canonical_lt _ _ _ _ _ _ V2 V1 ltac:(lia)).
      destruct (Z.compare_spec (Zval (S754_finite false m1 e1))
                               (Zval (S754_finite false m2 e2))); try lia; reflexivity.
Qed.

Lemma SFltb_Zval (K1 K2 : Z) (f1 f2 : spec_float) :
  valid_binary f1 = true -> valid_binary f2 = true ->
  nonneg_below K1 f1 -> nonneg_below K2 f2 ->
  SFltb f1 f2 = (Zval f1 <? Zval f2).
Proof.
  intros V1 V2 N1 N2. unfold SFltb. rewrite (SFcompare_Zval K1 K2) by assumption.
  unfold Z.ltb. destruct (Zval f1 ?= Zval f2); reflexivity.
Qed.

(** Canonical non-negative numbers of equal value differ at most in the sign
    of a zero. *)
Lemma Zval_inj (K1 K2 : Z) (f1 f2 : spec_float) :
  valid_binary f1 = true -> valid_binary f2 = true ->
  nonneg_below K1 f1 -> nonneg_below K2 f2 ->
  Zval f1 = Zval f2 ->
  f1 = f2 \/ (exists s1 s2, f1 = S754_zero s1 /\ f2 = S754_zero s2).
Proof.
  intros V1 V2 N1 N2 E.
  destruct f1 as [s1|s1| |[|] m1 e1]; try contradiction;
    destruct f2 as [s2|s2| |[|] m2 e2]; try contradiction.
  - right; eauto.
  - pose proof (Zval_finite_pos false m2 e2 ltac:(apply valid_finite in V2; lia)).
    change (Zval (S754_zero s1)) with 0 in E. lia.
  - pose proof (Zval_finite_pos false m1 e1 ltac:(apply valid_finite in V1; lia)).
    change (Zval (S754_zero s2)) with 0 in E. lia.
  - left. destruct (Z.compare_spec e1 e2) as [Ee | Hlt | Hgt].
    + subst e2. cbn [Zval] in E.
      pose proof (pow2_pos (e1 + 1074) ltac:(apply valid_finite in V1; lia)) as HP.
      assert (Zpos m1 = Zpos m2) by nia. congruence.
    + pose proof (canonical_lt _ _ _ _ _ _ V1 V2 Hlt). lia.
    + pose proof (canonical_lt _ _ _ _ _ _ V2 V1 ltac:(lia)). lia.
Qed.


Lemma nonneg_below_nonneg (K : Z) (f : spec_float) : nonneg_below K f -> nonneg f.
Proof. destruct f as [s|[|]| |[|] m e]; simpl; tauto. Qed.

Lemma round_grid_zero : round_grid 0 = 0.
Proof. unfold round_grid. now rewrite rne_shift_zero. Qed.

(** The sign of the result of [binary_round_aux] is the one it is given. *)
Lemma bra_sign (s : bool) (m e : Z) (l : location) :
  0 <= m ->
  match binary_round_aux prec emax s m e l with
  | S754_zero s' | S754_infinity s' | S754_finite s' _ _ => s' = s
  | S754_nan => False
  end.
Proof.
  intros Hm. rewrite bra_unfold. cbv zeta.
  set (R1 := Nat.iter _ shr_1 (shr_record_of_loc m l)).
  set (r := round_nearest_even (shr_m R1) (loc_of_shr_record R1)).
  set (R2 := Nat.iter _ shr_1 (shr_record_of_loc r loc_Exact)).
  assert (HR1 : 0 <= shr_m R1).
  { unfold R1. rewrite shr_iter_m; rewrite shr_record_of_loc_m; [|assumption].
    apply Z.div_pos; [lia | apply pow2_pos; lia]. }
  pose proof (round_nearest_even_bounds (shr_m R1) (loc_of_shr_record R1)) as Hr.
  fold r in Hr.
  assert (HR2 : 0 <= shr_m R2).
  { unfold R2. rewrite shr_iter_m; cbn [shr_record_of_loc shr_m]; [|lia].
    apply Z.div_pos; [lia | apply pow2_pos; lia]. }
  destruct (shr_m R2) as [|p|p]; [reflexivity | | lia].
  match goal with |- context [if ?b then _ else _] => destruct b end; reflexivity.
Qed.

(** *** Multiplication *)

Lemma digits2_mul (m1 m2 : positive) :
  Zpos (digits2_pos m1) + Zpos (digits2_pos m2) - 1 <= Zpos (digits2_pos (m1 * m2)) <=
  Zpos (digits2_pos m1) + Zpos (digits2_pos m2).
Proof.
  destruct (digits2_bounds m1) as [Hlo1 Hhi1]. destruct (digits2_bounds m2) as [Hlo2 Hhi2].
  set (d1 := Zpos (digits2_pos m1)) in *. set (d2 := Zpos (digits2_pos m2)) in *.
  assert (Hd1 : 1 <= d1) by (unfold d1; lia). assert (Hd2 : 1 <= d2) by (unfold d2; lia).
  pose proof (pow2_pos (d1 - 1) ltac:(lia)). pose proof (pow2_pos (d2 - 1) ltac:(lia)).
  change (Zpos (digits2_pos (m1 * m2))) with (Zdigits2 (Zpos m1 * Zpos m2)).
  split.
  - apply Zdigits2_ge; [|lia].
    replace (d1 + d2 - 1 - 1) with ((d1 - 1) + (d2 - 1)) by lia.
    rewrite Z.pow_add_r by lia. nia.
  - apply Zdigits2_le; [lia|]. split; [lia|].
    rewrite Z.pow_add_r by lia. nia.
Qed.

Lemma SFmul_value (K1 K2 : Z) (x y : spec_float) :
  valid_binary x = true -> valid_binary y = true ->
  nonneg_below K1 x -> nonneg_below K2 y -> K1 + K2 + 1 <= 1024 ->
  nonneg_below (Z.max (K1 + K2 + 1) (-1073)) (SFmul prec emax x y) /\
  Zval (SFmul prec emax x y) * 2 ^ 1074 = round_grid (Zval x * Zval y).
Proof.
  intros Vx Vy Nx Ny HK.
  destruct x as [sx|sx| |[|] mx ex]; try contradiction;
    destruct y as [sy|sy| |[|] my ey]; try contradiction;
    try (cbn [SFmul nonneg_below Zval]; rewrite ?Z.mul_0_l, ?Z.mul_0_r, round_grid_zero;
         split; [exact I | reflexivity]).
  cbn [SFmul xorb nonneg_below] in *.
  destruct (valid_finite _ _ _ Vx) as [Cx Bx]. destruct (valid_finite _ _ _ Vy) as [Cy By].
  pose proof (digits2_mul mx my) as [Hdlo Hdhi].
  assert (HX : Zval (S754_finite false mx ex) * Zval (S754_finite false my ey) =
               Zpos (mx * my) * 2 ^ (ex + ey + 2148)).
  { cbn [Zval]. replace (ex + ey + 2148) with ((ex + 1074) + (ey + 1074)) by lia.
    rewrite (Z.pow_add_r 2 (ex + 1074) (ey + 1074)) by lia. rewrite Pos2Z.inj_mul. ring. }
  rewrite HX.
  pose proof (bra_exact false (mx * my) (ex + ey) ltac:(lia)
                ltac:(rewrite fexp_eq; lia) ltac:(lia)) as Hval.
  pose proof (bra_magnitude false (Zpos (mx * my)) (ex + ey) loc_Exact
                (Z.max (K1 + K2 + 1) (-1073)) ltac:(lia) ltac:(lia)
                ltac:(change (Zdigits2 (Zpos (mx * my))) with (Zpos (digits2_pos (mx * my)));
                      lia) ltac:(lia)) as Hmag.
  destruct (binary_round_aux prec emax false (Zpos (mx * my)) (ex + ey) loc_Exact)
    as [s|s| |s m e]; try contradiction.
  - destruct Hval as [-> Hz]. split; [exact I|]. now rewrite Hz.
  - destruct Hval as (-> & He & Hv). destruct Hmag as [_ Hm]. split; [exact Hm|].
    rewrite <- Hv. cbn [Zval]. rewrite <- Z.mul_assoc, <- Z.pow_add_r by lia.
    f_equal. f_equal. lia.
Qed.

Lemma SFmul_mono (K1 K2 : Z) (x x' y : spec_float) :
  valid_binary x = true -> valid_binary x' = true -> valid_binary y = true ->
  nonneg_below K1 x -> nonneg_below K1 x' -> nonneg_below K2 y -> K1 + K2 + 1 <= 1024 ->
  Zval x <= Zval x' ->
  Zval (SFmul prec emax x y) <= Zval (SFmul prec emax x' y).
Proof.
  intros Vx Vx' Vy Nx Nx' Ny HK Hle.
  destruct (SFmul_value K1 K2 x y Vx Vy Nx Ny HK) as [_ E1].
  destruct (SFmul_value K1 K2 x' y Vx' Vy Nx' Ny HK) as [_ E2].
  assert (Hg : round_grid (Zval x * Zval y) <= round_grid (Zval x' * Zval y)).
  { apply round_grid_mono. pose proof (Zval_nonneg x). pose proof (Zval_nonneg y). nia. }
  change (2 ^ 1074) with (Zpos (2 ^ 1074)) in E1, E2. nia.
Qed.

(** *** Addition and subtraction *)

Lemma iter_xO (m d : positive) : Zpos (Pos.iter xO m d) = Zpos m * 2 ^ Zpos d.
Proof.
  induction d as [|d IH] using Pos.peano_ind.
  - cbn [Pos.iter]. change (2 ^ 1) with 2. lia.
  - rewrite Pos.iter_succ, Pos2Z.inj_succ, Z.pow_succ_r by lia.
    rewrite Pos2Z.inj_xO, IH. ring.
Qed.

Lemma shl_align_fst (m : positive) (e ez : Z) :
  ez <= e -> Zpos (fst (shl_align m e ez)) = Zpos m * 2 ^ (e - ez).
Proof.
  intros Hle. unfold shl_align.
  destruct (ez - e) as [|d|d] eqn:Ed; cbn [fst].
  - replace (e - ez) with 0 by lia. lia.
  - lia.
  - rewrite iter_xO. f_equal. f_equal. lia.
Qed.

Lemma binary_round_nonneg (m : positive) (e : Z) : nonneg (binary_round prec emax false m e).
Proof.
  unfold binary_round.
  destruct (shl_align m e (fexp prec emax (Zpos (digits2_pos m) + e))) as [mz ez].
  pose proof (bra_sign false (Zpos mz) ez loc_Exact ltac:(lia)) as Hs.
  destruct (binary_round_aux prec emax false (Zpos mz) ez loc_Exact) as [s|s| |s m' e'];
    try contradiction; subst s; exact I.
Qed.

Lemma binary_round_not_nan (s : bool) (m : positive) (e : Z) :
  binary_round prec emax s m e <> S754_nan.
Proof.
  unfold binary_round.
  destruct (shl_align m e (fexp prec emax (Zpos (digits2_pos m) + e))) as [mz ez].
  pose proof (bra_sign s (Zpos mz) ez loc_Exact ltac:(lia)) as Hs.
  destruct (binary_round_aux prec emax s (Zpos mz) ez loc_Exact); try contradiction;
    discriminate.
Qed.

(** Adding [0 - b] to [a], for [b <= a]: the scaler's [x * scale_ + min_]. *)
Lemma SFadd_offset (K1 K2 : Z) (a b : spec_float) :
  valid_binary a = true -> valid_binary b = true ->
  nonneg_below K1 a -> nonneg_below K2 b ->
  Zval b <= Zval a ->
  nonneg (SFadd prec emax a (SFsub prec emax (S754_zero false) b)) /\
  (Zval a = Zval b ->
   SFadd prec emax a (SFsub prec emax (S754_zero false) b) = S754_zero false).
Proof.
  intros Va Vb Na Nb Hle.
  destruct b as [sb|sb| |[|] mb eb]; try contradiction.
  - (* b is a zero *)
    assert (Hz : SFsub prec emax (S754_zero false) (S754_zero sb) = S754_zero false)
      by (destruct sb; reflexivity).
    rewrite Hz. destruct a as [sa|sa| |[|] ma ea]; try contradiction.
    + split; [destruct sa; exact I | intros _; destruct sa; reflexivity].
    + split; [exact I|]. intros E.
      pose proof (Zval_finite_pos false ma ea ltac:(apply valid_finite in Va; lia)).
      change (Zval (S754_zero sb)) with 0 in E. lia.
  - (* b is positive *)
    pose proof (Zval_finite_pos false mb eb ltac:(apply valid_finite in Vb; lia)) as Hb.
    destruct a as [sa|sa| |[|] ma ea]; try contradiction.
    + change (Zval (S754_zero sa)) with 0 in Hle. lia.
    + cbn [SFsub negb SFadd cond_Zopp].
      destruct (valid_finite _ _ _ Va) as [Ca _]. destruct (valid_finite _ _ _ Vb) as [Cb _].
      set (ez := Z.min ea eb).
      rewrite (shl_align_fst ma ea ez), (shl_align_fst mb eb ez) by (unfold ez; lia).
      cbn [Zval] in Hle.
      pose proof (pow2_pos (ez + 1074) ltac:(unfold ez; lia)) as HP.
      assert (Ea : Zpos ma * 2 ^ (ea + 1074) = Zpos ma * 2 ^ (ea - ez) * 2 ^ (ez + 1074)).
      { rewrite <- Z.mul_assoc, <- Z.pow_add_r by (unfold ez; lia). f_equal. f_equal. lia. }
      assert (Eb : Zpos mb * 2 ^ (eb + 1074) = Zpos mb * 2 ^ (eb - ez) * 2 ^ (ez + 1074)).
      { rewrite <- Z.mul_assoc, <- Z.pow_add_r by (unfold ez; lia). f_equal. f_equal. lia. }
      set (D := Zpos ma * 2 ^ (ea - ez) + - (Zpos mb * 2 ^ (eb - ez))).
      assert (HD : 0 <= D) by (unfold D; nia).
      split.
      * destruct D as [|p|p]; [exact I | apply binary_round_nonneg | lia].
      * cbn [Zval]. intros E. assert (D = 0) by (unfold D; nia).
        now replace D with 0.
Qed.

(** A difference of finite numbers is a number. *)
Lemma SFsub_not_nan (K1 K2 : Z) (a b : spec_float) :
  nonneg_below K1 a -> nonneg_below K2 b -> SFsub prec emax a b <> S754_nan.
Proof.
  intros Na Nb.
  destruct a as [sa|sa| |[|] ma ea]; try contradiction;
    destruct b as [sb|sb| |[|] mb eb]; try contradiction; cbn [SFsub].
  - destruct sa, sb; discriminate.
  - discriminate.
  - discriminate.
  - unfold binary_normalize.
    match goal with |- context [match ?z with _ => _ end] => destruct z end;
      [discriminate | apply binary_round_not_nan | apply binary_round_not_nan].
Qed.

Lemma round_grid_pos (X : Z) : 2 ^ 1074 <= X -> 0 < round_grid X.
Proof.
  intros HX. pose proof (pow2_pos 1074 ltac:(lia)) as H0.
  unfold round_grid. pose proof (grid_exp_nonneg X) as Hk.
  pose proof (pow2_pos (grid_exp X) Hk) as HP.
  destruct (Zdigits2_bounds X ltac:(lia)) as [Hlo _].
  assert (HXk : 2 ^ grid_exp X <= X).
  { unfold grid_exp in *. destruct (Z.max_spec (Zdigits2 X - 53) 1074) as [[_ ->] | [_ ->]].
    - assumption.
    - eapply Z.le_trans; [|exact Hlo]. apply Z.pow_le_mono_r; lia. }
  assert (1 <= X / 2 ^ grid_exp X) by (apply Z.div_le_lower_bound; lia).
  pose proof (rne_shift_bounds X (grid_exp X)). nia.
Qed.

(** [binary_round] first brings the mantissa down to its place on the
    grid. *)
Lemma shl_align_grid (p : positive) (e : Z) :
  -1074 <= e ->
  let '(mz, ez) := shl_align p e (fexp prec emax (Zpos (digits2_pos p) + e)) in
  Zpos mz * 2 ^ (ez + 2148) = Zpos p * 2 ^ (e + 2148) /\
  Zpos (digits2_pos mz) + ez = Zpos (digits2_pos p) + e /\
  ez <= fexp prec emax (Zpos (digits2_pos mz) + ez) /\ -1074 <= ez /\ ez <= e.
Proof.
  intros He. rewrite fexp_eq. unfold shl_align.
  set (d := Zpos (digits2_pos p)).
  destruct (Z.max (d + e - 53) (-1074) - e) as [|q|q] eqn:Eq.
  - rewrite fexp_eq. fold d. repeat split; lia.
  - rewrite fexp_eq. fold d. repeat split; lia.
  - assert (Hmz : Zpos (Pos.iter xO p q) = Zpos p * 2 ^ Zpos q) by apply iter_xO.
    assert (Hd : Zpos (digits2_pos (Pos.iter xO p q)) = d + Zpos q).
    { change (Zpos (digits2_pos (Pos.iter xO p q))) with (Zdigits2 (Zpos (Pos.iter xO p q))).
      rewrite Hmz, Zdigits2_mul_pow2 by lia. reflexivity. }
    rewrite fexp_eq, Hd, Hmz. repeat split; try lia.
    rewrite <- Z.mul_assoc, <- Z.pow_add_r by lia. f_equal. f_equal. lia.
Qed.

Lemma binary_round_value (s : bool) (p : positive) (e : Z) :
  -1074 <= e -> Zpos (digits2_pos p) + e + 1 <= 1024 ->
  match binary_round prec emax s p e with
  | S754_finite s' m' e' =>
      s' = s /\ -1074 <= e' /\
      Zpos m' * 2 ^ (e' + 2148) = round_grid (Zpos p * 2 ^ (e + 2148))
  | _ => False
  end.
Proof.
  intros He Hmag. unfold binary_round.
  pose proof (shl_align_grid p e He) as Hal.
  destruct (shl_align p e (fexp prec emax (Zpos (digits2_pos p) + e))) as [mz ez].
  destruct Hal as (Hv & Hd & Hn & Hez & Hle).
  pose proof (bra_exact s mz ez ltac:(lia) Hn ltac:(lia)) as Hval.
  rewrite Hv in Hval.
  assert (Hpos : 0 < round_grid (Zpos p * 2 ^ (e + 2148))).
  { apply round_grid_pos.
    replace (e + 2148) with ((e + 1074) + 1074) by lia.
    rewrite Z.pow_add_r by lia.
    pose proof (pow2_pos (e + 1074) ltac:(lia)). pose proof (pow2_pos 1074 ltac:(lia)). nia. }
  destruct (binary_round_aux prec emax s (Zpos mz) ez loc_Exact); try contradiction.
  - destruct Hval as [_ Hz]. lia.
  - exact Hval.
Qed.

(** The difference of two numbers is a zero only if they have the same
    value. *)
Lemma SFsub_zero_inv (K1 K2 : Z) (a b : spec_float) :
  valid_binary a = true -> valid_binary b = true ->
  nonneg_below K1 a -> nonneg_below K2 b -> K1 <= 1023 -> K2 <= 1023 ->
  (exists s, SFsub prec emax a b = S754_zero s) -> Zval a = Zval b.
Proof.
  intros Va Vb Na Nb HK1 HK2 [s Hs].
  destruct a as [sa|sa| |[|] ma ea]; try contradiction;
    destruct b as [sb|sb| |[|] mb eb]; try contradiction; cbn [SFsub] in Hs;
    try discriminate; try reflexivity.
  destruct (valid_finite _ _ _ Va) as [Ca Ba]. destruct (valid_finite _ _ _ Vb) as [Cb Bb].
  cbn [nonneg_below] in Na, Nb.
  cbn [cond_Zopp] in Hs. set (ez := Z.min ea eb) in *.
  rewrite (shl_align_fst ma ea ez), (shl_align_fst mb eb ez) in Hs by (unfold ez; lia).
  pose proof (pow2_pos (ez + 1074) ltac:(unfold ez; lia)) as HP.
  assert (Ea : Zpos ma * 2 ^ (ea + 1074) = Zpos ma * 2 ^ (ea - ez) * 2 ^ (ez + 1074)).
  { rewrite <- Z.mul_assoc, <- Z.pow_add_r by (unfold ez; lia). f_equal. f_equal. lia. }
  assert (Eb : Zpos mb * 2 ^ (eb + 1074) = Zpos mb * 2 ^ (eb - ez) * 2 ^ (ez + 1074)).
  { rewrite <- Z.mul_assoc, <- Z.pow_add_r by (unfold ez; lia). f_equal. f_equal. lia. }
  cbn [Zval]. rewrite Ea, Eb.
  assert (Hda : Zdigits2 (Zpos ma * 2 ^ (ea - ez)) = Zpos (digits2_pos ma) + (ea - ez))
    by (rewrite Zdigits2_mul_pow2 by (unfold ez; lia); reflexivity).
  assert (Hdb : Zdigits2 (Zpos mb * 2 ^ (eb - ez)) = Zpos (digits2_pos mb) + (eb - ez))
    by (rewrite Zdigits2_mul_pow2 by (unfold ez; lia); reflexivity).
  pose proof (pow2_pos (ea - ez) ltac:(unfold ez; lia)) as HPa.
  pose proof (pow2_pos (eb - ez) ltac:(unfold ez; lia)) as HPb.
  set (A := Zpos ma * 2 ^ (ea - ez)) in *. set (B := Zpos mb * 2 ^ (eb - ez)) in *.
  assert (HA : 0 < A) by (unfold A; nia). assert (HB : 0 < B) by (unfold B; nia).
  enough (A - B = 0) by nia.
  destruct (A - B) as [|p|p] eqn:ED; [reflexivity | exfalso | exfalso];
    cbn [binary_normalize] in Hs.
  - assert (Zdigits2 (Zpos p) <= Zdigits2 A) by (apply Zdigits2_mono; lia).
    change (Zdigits2 (Zpos p)) with (Zpos (digits2_pos p)) in H.
    pose proof (binary_round_value false p ez ltac:(unfold ez; lia) ltac:(lia)) as Hv.
    rewrite Hs in Hv. exact Hv.
  - assert (Zdigits2 (Zpos p) <= Zdigits2 B) by (apply Zdigits2_mono; lia).
    change (Zdigits2 (Zpos p)) with (Zpos (digits2_pos p)) in H.
    pose proof (binary_round_value true p ez ltac:(unfold ez; lia) ltac:(lia)) as Hv.
    rewrite Hs in Hv. exact Hv.
Qed.

(** The difference of two numbers of equal value is a zero. *)
Lemma SFsub_same (K1 K2 : Z) (a b : spec_float) :
  valid_binary a = true -> valid_binary b = true ->
  nonneg_below K1 a -> nonneg_below K2 b ->
  Zval a = Zval b -> exists s, SFsub prec emax a b = S754_zero s.
Proof.
  intros Va Vb Na Nb E.
  destruct (Zval_inj K1 K2 a b Va Vb Na Nb E) as [<- | (s1 & s2 & -> & ->)].
  - destruct a as [sa|sa| |[|] ma ea]; try contradiction.
    + destruct sa; eexists; reflexivity.
    + cbn [SFsub cond_Zopp]. rewrite Z.sub_diag. eexists. reflexivity.
  - destruct s1, s2; eexists; reflexivity.
Qed.

(** *** Division of 1 by a range that passed the guard *)

Lemma SFdiv_one (mr : positive) (er : Z) :
  valid_binary (S754_finite false mr er) = true -> -101 <= er ->
  nonneg_below 51
    (SFdiv prec emax (S754_finite false 4503599627370496 (-52)) (S754_finite false mr er)).
Proof.
  intros V Her. destruct (valid_finite _ _ _ V) as [C B].
  destruct (digits2_bounds mr) as [Hlo _].
  assert (Hd : Zpos (digits2_pos mr) = 53) by lia.
  rewrite Hd in Hlo. change (2 ^ (53 - 1)) with 4503599627370496 in Hlo.
  cbn [SFdiv xorb]. unfold SFdiv_core_binary.
  change (Zdigits2 (Zpos 4503599627370496)) with 53.
  change (Zdigits2 (Zpos mr)) with (Zpos (digits2_pos mr)). rewrite Hd, fexp_eq.
  set (e' := Z.min (Z.max (53 + -52 - (53 + er) - 53) (-1074)) (-52 - er)).
  assert (He' : e' = Z.max (-105 - er) (-1074)) by (unfold e'; lia).
  set (s := -52 - er - e').
  assert (Hs : 0 < s <= 53) by (unfold s; lia).
  destruct s as [|sp|sp] eqn:Es; try lia.
  rewrite Z.shiftl_mul_pow2 by lia.
  destruct (Z.div_eucl (Zpos 4503599627370496 * 2 ^ Zpos sp) (Zpos mr)) as [q rr] eqn:Hdiv.
  assert (Hq : q = (Zpos 4503599627370496 * 2 ^ Zpos sp) / Zpos mr)
    by (unfold Z.div; now rewrite Hdiv).
  pose proof (pow2_pos (Zpos sp) ltac:(lia)) as HP.
  assert (Hq0 : 0 <= q) by (rewrite Hq; apply Z.div_pos; lia).
  assert (Hq1 : q <= 2 ^ Zpos sp).
  { rewrite Hq. apply Z.div_le_upper_bound; [lia | nia]. }
  assert (Hdq : Zdigits2 q <= Zpos sp + 1).
  { apply Zdigits2_le; [lia|]. split; [lia|].
    rewrite Z.pow_add_r, Z.pow_1_r by lia. lia. }
  pose proof (bra_magnitude false q e' (new_location (Zpos mr) rr) 51
                Hq0 ltac:(lia) ltac:(lia) ltac:(lia)) as Hmag.
  destruct (binary_round_aux prec emax false q e' (new_location (Zpos mr) rr))
    as [s0|s0| |s0 m0 e0]; try contradiction.
  - exact I.
  - destruct Hmag as [-> Hm]. exact Hm.
Qed.

(** ** Min-max scaling *)

Lemma columns_map {F} (f0 f1 f2 : F -> F) (X : Matrix3 F) :
  columns (map (fun v => (f0 (col0 v), f1 (col1 v), f2 (col2 v))) X) =
  [map f0 (map col0 X); map f1 (map col1 X); map f2 (map col2 X)].
Proof. unfold columns. rewrite !map_map. reflexivity. Qed.

(** Each column is rescaled on its own, in any arithmetic. *)
Lemma fit_transform_columns {F} `{Arith F} (X Y : Matrix3 F) :
  MinMaxScaler_fit_transform X = inr Y ->
  columns Y = map minmax_column (columns X).
Proof.
  destruct X as [|r rest]; [discriminate|].
  unfold MinMaxScaler_fit_transform. intros HY.
  injection HY as <-.
  exact (columns_map (minmax_transform (col0 r) (map col0 rest))
                     (minmax_transform (col1 r) (map col1 rest))
                     (minmax_transform (col2 r) (map col2 rest)) (r :: rest)).
Qed.

Lemma fit_transform_length {F} `{Arith F} (X Y : Matrix3 F) :
  MinMaxScaler_fit_transform X = inr Y -> length Y = length X.
Proof.
  destruct X as [|r rest]; [discriminate|].
  unfold MinMaxScaler_fit_transform. intros HY. injection HY as <-.
  simpl. f_equal. apply length_map.
Qed.

Lemma minmax_column_In {F} `{Arith F} (c : list F) (y : F) :
  In y (minmax_column c) ->
  exists x xs v, c = x :: xs /\ In v c /\ y = minmax_transform x xs v.
Proof.
  destruct c as [|x xs]; [intros []|].
  unfold minmax_column. rewrite in_map_iff. intros (v & <- & Hv).
  exists x, xs, v. auto.
Qed.

(** *** In exact arithmetic *)

Section ExactScaling.
Local Open Scope Q_scope.

Lemma Qltb_lt (a b : Q) : Qltb a b = true <-> a < b.
Proof.
  unfold Qltb. rewrite negb_true_iff, <- not_true_iff_false, Qle_bool_iff.
  split; [apply Qnot_le_lt | apply Qlt_not_le].
Qed.

Lemma Qltb_ge (a b : Q) : Qltb a b = false <-> b <= a.
Proof.
  unfold Qltb. rewrite negb_false_iff. apply Qle_bool_iff.
Qed.

Lemma fmin_spec (a b : Q) : fmin a b <= a /\ fmin a b <= b.
Proof.
  unfold fmin. cbn [fltb Exact]. destruct (Qltb b a) eqn:E.
  - apply Qltb_lt in E. split; [apply Qlt_le_weak, E | apply Qle_refl].
  - apply Qltb_ge in E. split; [apply Qle_refl | exact E].
Qed.

Lemma fmax_spec (a b : Q) : a <= fmax a b /\ b <= fmax a b.
Proof.
  unfold fmax. cbn [fltb Exact]. destruct (Qltb a b) eqn:E.
  - apply Qltb_lt in E. split; [apply Qlt_le_weak, E | apply Qle_refl].
  - apply Qltb_ge in E. split; [apply Qle_refl | exact E].
Qed.

Lemma fold_fmin_lower (xs : list Q) (a : Q) :
  fold_left fmin xs a <= a /\ (forall v, In v xs -> fold_left fmin xs a <= v).
Proof.
  revert a. induction xs as [|z rest IH]; simpl; intros a.
  - split; [apply Qle_refl | tauto].
  - destruct (IH (fmin a z)) as [H1 H2]. destruct (fmin_spec a z) as [Ha Hz].
    split.
    + eapply Qle_trans; eauto.
    + intros v [<- | Hv]; auto. eapply Qle_trans; eauto.
Qed.

Lemma fold_fmax_upper (xs : list Q) (a : Q) :
  a <= fold_left fmax xs a /\ (forall v, In v xs -> v <= fold_left fmax xs a).
Proof.
  revert a. induction xs as [|z rest IH]; simpl; intros a.
  - split; [apply Qle_refl | tauto].
  - destruct (IH (fmax a z)) as [H1 H2]. destruct (fmax_spec a z) as [Ha Hz].
    split.
    + eapply Qle_trans; eauto.
    + intros v [<- | Hv]; auto. eapply Qle_trans; eauto.
Qed.

Lemma data_min_max_bounds (x : Q) (xs : list Q) (v : Q) :
  In v (x :: xs) -> data_min x xs <= v /\ v <= data_max x xs.
Proof.
  unfold data_min, data_max.
  destruct (fold_fmin_lower xs x) as [Hm1 Hm2].
  destruct (fold_fmax_upper xs x) as [HM1 HM2].
  intros [<- | Hv]; auto.
Qed.

Lemma data_range_nonneg (x : Q) (xs : list Q) : 0 <= data_range x xs.
Proof.
  unfold data_range. cbn [fsub Exact].
  destruct (data_min_max_bounds x xs x (or_introl eq_refl)) as [H1 H2].
  lra.
Qed.

Lemma ten_eps_small :
  0 < fmul (of_int 10) float_eps /\ fmul (of_int 10) float_eps <= 1.
Proof. split; [reflexivity | discriminate]. Qed.

(** The divisor handed to the division of [scale_] is positive. *)
Lemma handle_zeros_in_scale_pos (s : Q) :
  0 <= s -> 0 < handle_zeros_in_scale s.
Proof.
  intros Hs. unfold handle_zeros_in_scale. cbn [fltb Exact].
  destruct (Qltb s (fmul (of_int 10) float_eps)) eqn:E.
  - reflexivity.
  - apply Qltb_ge in E. destruct ten_eps_small as [Hpos _].
    eapply Qlt_le_trans; eauto.
Qed.

Lemma minmax_transform_eq (x : Q) (xs : list Q) (v : Q) :
  minmax_transform x xs v ==
  (v - data_min x xs) / handle_zeros_in_scale (data_range x xs).
Proof.
  unfold minmax_transform, min_, scale_.
  cbn [fadd fsub fmul fdiv of_int Exact].
  pose proof (handle_zeros_in_scale_pos _ (data_range_nonneg x xs)) as Hpos.
  change (inject_Z 1) with 1. change (inject_Z 0) with 0.
  field. intros Hz. rewrite Hz in Hpos. discriminate.
Qed.

Lemma minmax_transform_unit (x : Q) (xs : list Q) (v : Q) :
  In v (x :: xs) -> 0 <= minmax_transform x xs v <= 1.
Proof.
  intros Hv. rewrite minmax_transform_eq.
  destruct (data_min_max_bounds x xs v Hv) as [Hlo Hhi].
  pose proof (handle_zeros_in_scale_pos _ (data_range_nonneg x xs)) as Hpos.
  split.
  - apply Qle_shift_div_l; [exact Hpos|]. lra.
  - apply Qle_shift_div_r; [exact Hpos|].
    unfold handle_zeros_in_scale in *. cbn [fltb Exact] in *.
    destruct (Qltb (data_range x xs) (fmul (of_int 10) float_eps)) eqn:E.
    + apply Qltb_lt in E. destruct ten_eps_small as [_ Hle].
      unfold data_range in E. cbn [fsub of_int Exact] in *.
      change (inject_Z 1) with 1. lra.
    + unfold data_range. cbn [fsub Exact]. lra.
Qed.

Lemma minmax_transform_constant (x : Q) (xs : list Q) (v : Q) :
  data_range x xs == 0 -> In v (x :: xs) -> minmax_transform x xs v == 0.
Proof.
  intros Hconst Hv. rewrite minmax_transform_eq.
  destruct (data_min_max_bounds x xs v Hv) as [Hlo Hhi].
  unfold data_range in Hconst. cbn [fsub Exact] in Hconst.
  assert (Hz : v - data_min x xs == 0) by lra.
  rewrite Hz. unfold Qdiv. apply Qmult_0_l.
Qed.

End ExactScaling.

(** *** In binary64 *)


Lemma Prim2SF_zero : Prim2SF 0%float = S754_zero false.
Proof. reflexivity. Qed.

Lemma Prim2SF_one : Prim2SF 1%float = S754_finite false 4503599627370496 (-52).
Proof. reflexivity. Qed.

Lemma in_range_below (v : float) :
  in_range v = true -> nonneg_below 901 (Prim2SF v).
Proof.
  unfold in_range. rewrite andb_true_iff, !FloatAxioms.leb_spec.
  change (Prim2SF 0) with (S754_zero false).
  change (Prim2SF 0x1p+900) with (S754_finite false 4503599627370496 848).
  pose proof (Prim2SF_valid v) as V. intros [H0 H1].
  destruct (Prim2SF v) as [s|[|]| |[|] m e]; try discriminate; cbn [nonneg_below].
  - exact I.
  - destruct (valid_finite _ _ _ V) as [C _].
    unfold SFleb in H1. cbn [SFcompare] in H1.
    destruct (Z.compare_spec e 848); try discriminate; lia.
Qed.

Lemma float_ltb_Zval (K1 K2 : Z) (v w : float) :
  nonneg_below K1 (Prim2SF v) -> nonneg_below K2 (Prim2SF w) ->
  PrimFloat.ltb v w = (Zval (Prim2SF v) <? Zval (Prim2SF w)).
Proof.
  intros Nv Nw. rewrite FloatAxioms.ltb_spec.
  apply (SFltb_Zval K1 K2); auto using Prim2SF_valid.
Qed.

Section FloatFolds.
Variable K : Z.

Lemma fmin_float (a b : float) :
  nonneg_below K (Prim2SF a) -> nonneg_below K (Prim2SF b) ->
  (fmin a b = a \/ fmin a b = b) /\
  Zval (Prim2SF (fmin a b)) <= Zval (Prim2SF a) /\
  Zval (Prim2SF (fmin a b)) <= Zval (Prim2SF b).
Proof.
  intros Na Nb. unfold fmin. cbn [fltb Binary64].
  rewrite (float_ltb_Zval K K) by assumption.
  destruct (Z.ltb_spec (Zval (Prim2SF b)) (Zval (Prim2SF a))); split; auto; lia.
Qed.

Lemma fmax_float (a b : float) :
  nonneg_below K (Prim2SF a) -> nonneg_below K (Prim2SF b) ->
  (fmax a b = a \/ fmax a b = b) /\
  Zval (Prim2SF a) <= Zval (Prim2SF (fmax a b)) /\
  Zval (Prim2SF b) <= Zval (Prim2SF (fmax a b)).
Proof.
  intros Na Nb. unfold fmax. cbn [fltb Binary64].
  rewrite (float_ltb_Zval K K) by assumption.
  destruct (Z.ltb_spec (Zval (Prim2SF a)) (Zval (Prim2SF b))); split; auto; lia.
Qed.

Lemma data_min_float (x : float) (xs : list float) :
  (forall v, In v (x :: xs) -> nonneg_below K (Prim2SF v)) ->
  In (data_min x xs) (x :: xs) /\
  forall v, In v (x :: xs) -> Zval (Prim2SF (data_min x xs)) <= Zval (Prim2SF v).
Proof.
  unfold data_min. revert x. induction xs as [|z rest IH]; intros x Hall.
  - simpl. split; [auto|]. intros v [<- | []]. lia.
  - cbn [fold_left].
    destruct (fmin_float x z (Hall x (or_introl eq_refl))
                (Hall z (or_intror (or_introl eq_refl)))) as (Hor & Hx & Hz).
    destruct (IH (fmin x z)) as [Hin Hlow].
    { intros v [<- | Hv]; [destruct Hor as [-> | ->]|]; apply Hall; simpl; auto. }
    split.
    + destruct Hin as [E | Hin]; [|simpl; auto].
      rewrite <- E. destruct Hor as [-> | ->]; simpl; auto.
    + intros v [<- | [<- | Hv]].
      * pose proof (Hlow _ (or_introl eq_refl)). lia.
      * pose proof (Hlow _ (or_introl eq_refl)). lia.
      * apply Hlow. now right.
Qed.

Lemma data_max_float (x : float) (xs : list float) :
  (forall v, In v (x :: xs) -> nonneg_below K (Prim2SF v)) ->
  In (data_max x xs) (x :: xs) /\
  forall v, In v (x :: xs) -> Zval (Prim2SF v) <= Zval (Prim2SF (data_max x xs)).
Proof.
  unfold data_max. revert x. induction xs as [|z rest IH]; intros x Hall.
  - simpl. split; [auto|]. intros v [<- | []]. lia.
  - cbn [fold_left].
    destruct (fmax_float x z (Hall x (or_introl eq_refl))
                (Hall z (or_intror (or_introl eq_refl)))) as (Hor & Hx & Hz).
    destruct (IH (fmax x z)) as [Hin Hup].
    { intros v [<- | Hv]; [destruct Hor as [-> | ->]|]; apply Hall; simpl; auto. }
    split.
    + destruct Hin as [E | Hin]; [|simpl; auto].
      rewrite <- E. destruct Hor as [-> | ->]; simpl; auto.
    + intros v [<- | [<- | Hv]].
      * pose proof (Hup _ (or_introl eq_refl)). lia.
      * pose proof (Hup _ (or_introl eq_refl)). lia.
      * apply Hup. now right.
Qed.

End FloatFolds.

(** *** The guard and the scale *)

Lemma ten_eps_float :
  Prim2SF (fmul (of_int 10) (float_eps (F:=float))) =
  S754_finite false 5629499534213120 (-101).
Proof. reflexivity. Qed.

(** A zero is below the threshold of the guard. *)
Lemma zero_below_threshold (r : float) (s : bool) :
  Prim2SF r = S754_zero s -> handle_zeros_in_scale r = 1%float.
Proof.
  intros Hr. unfold handle_zeros_in_scale. cbn [fltb Binary64].
  rewrite FloatAxioms.ltb_spec, Hr, ten_eps_float. reflexivity.
Qed.

(** What the guard lets through is positive and not below its threshold. *)
Lemma handle_zeros_float (r : float) :
  Prim2SF r <> S754_nan ->
  handle_zeros_in_scale r = 1%float \/
  handle_zeros_in_scale r = r /\
  (Prim2SF r = S754_infinity false \/
   exists m e, Prim2SF r = S754_finite false m e /\ -101 <= e).
Proof.
  intros Hnan. unfold handle_zeros_in_scale. cbn [fltb Binary64].
  rewrite FloatAxioms.ltb_spec, ten_eps_float.
  destruct (Prim2SF r) as [s|[|]| |[|] m e]; try (left; reflexivity); try contradiction.
  - right. split; [reflexivity | left; reflexivity].
  - unfold SFltb. cbn [SFcompare].
    destruct (Z.compare_spec e (-101)) as [E | Hlt | Hgt].
    + destruct (Pos.compare_cont Eq m 5629499534213120);
        [right | left; reflexivity | right]; (split; [reflexivity | right; exists m, e; split; [reflexivity | lia]]).
    + left; reflexivity.
    + right. split; [reflexivity | right; exists m, e; split; [reflexivity | lia]].
Qed.

(** The guard never hands 0 to the division. *)
Lemma handle_zeros_float_nonzero (r : float) :
  PrimFloat.eqb (handle_zeros_in_scale r) 0%float = false.
Proof.
  unfold handle_zeros_in_scale. cbn [fltb Binary64].
  destruct (PrimFloat.ltb r (fmul (of_int 10) float_eps)) eqn:E; [reflexivity|].
  rewrite FloatAxioms.ltb_spec, ten_eps_float in E. rewrite FloatAxioms.eqb_spec. 
  change (Prim2SF 0) with (S754_zero false).
  destruct (Prim2SF r) as [s|[|]| |[|] m e]; try reflexivity; discriminate.
Qed.

Section FloatColumn.
Variables (x : float) (xs : list float).
Hypothesis entries : forall v, In v (x :: xs) -> nonneg_below 901 (Prim2SF v).

Lemma data_range_not_nan : Prim2SF (data_range x xs) <> S754_nan.
Proof.
  unfold data_range. cbn [fsub Binary64]. rewrite FloatAxioms.sub_spec.
  destruct (data_min_float 901 x xs entries) as [Hmin _].
  destruct (data_max_float 901 x xs entries) as [Hmax _].
  apply (SFsub_not_nan 901 901); auto.
Qed.

Lemma scale_float : nonneg_below 51 (Prim2SF (scale_ x xs)).
Proof.
  unfold scale_. cbn [fdiv fsub of_int Binary64].
  change (PrimFloat.sub (float_of_Z 1) (float_of_Z 0)) with 1%float.
  destruct (handle_zeros_float (data_range x xs) data_range_not_nan)
    as [-> | [-> [Hinf | (m & e & Hfin & He)]]].
  - change (Prim2SF (1 / 1)%float) with (S754_finite false 4503599627370496 (-52)).
    cbn. lia.
  - rewrite FloatAxioms.div_spec, Hinf. exact I.
  - rewrite FloatAxioms.div_spec, Hfin, Prim2SF_one. apply SFdiv_one; [|exact He].
    rewrite <- Hfin. apply Prim2SF_valid.
Qed.

Lemma minmax_transform_float (v : float) :
  In v (x :: xs) ->
  PrimFloat.leb 0%float (minmax_transform x xs v) = true /\
  ((exists s, Prim2SF (data_range x xs) = S754_zero s) ->
   minmax_transform x xs v = 0%float).
Proof.
  intros Hv.
  destruct (data_min_float 901 x xs entries) as [Hmin Hlow].
  destruct (data_max_float 901 x xs entries) as [Hmax Hup].
  pose proof scale_float as Hs.
  pose proof (Prim2SF_valid (scale_ x xs)) as Vs.
  unfold minmax_transform, min_. cbn [fadd fsub fmul of_int Binary64].
  change (float_of_Z 0) with 0%float.
  set (a := (v * scale_ x xs)%float).
  set (b := (data_min x xs * scale_ x xs)%float).
  assert (Ha : nonneg_below 953 (Prim2SF a) /\
               Zval (Prim2SF a) * 2 ^ 1074 =
               round_grid (Zval (Prim2SF v) * Zval (Prim2SF (scale_ x xs)))).
  { unfold a. rewrite FloatAxioms.mul_spec.
    apply (SFmul_value 901 51); auto using Prim2SF_valid. lia. }
  assert (Hb : nonneg_below 953 (Prim2SF b) /\
               Zval (Prim2SF b) * 2 ^ 1074 =
               round_grid (Zval (Prim2SF (data_min x xs)) * Zval (Prim2SF (scale_ x xs)))).
  { unfold b. rewrite FloatAxioms.mul_spec.
    apply (SFmul_value 901 51); auto using Prim2SF_valid. lia. }
  destruct Ha as [Na Ea]. destruct Hb as [Nb Eb].
  assert (Hle : Zval (Prim2SF b) <= Zval (Prim2SF a)).
  { unfold a, b. rewrite !FloatAxioms.mul_spec.
    apply (SFmul_mono 901 51); auto using Prim2SF_valid. lia. }
  assert (Hout : Prim2SF (a + (0 - b)) =
                 SFadd prec emax (Prim2SF a) (SFsub prec emax (S754_zero false) (Prim2SF b))).
  { now rewrite FloatAxioms.add_spec, FloatAxioms.sub_spec, Prim2SF_zero. }
  destruct (SFadd_offset _ _ (Prim2SF a) (Prim2SF b) (Prim2SF_valid a) (Prim2SF_valid b)
              Na Nb Hle) as [Hnn Hzero].
  rewrite <- Hout in Hnn, Hzero.
  split.
  - rewrite FloatAxioms.leb_spec, Prim2SF_zero.
    destruct (Prim2SF (a + (0 - b))) as [s|[|]| |[|] m e]; try contradiction; reflexivity.
  - intros Hconst.
    assert (Hmm : Zval (Prim2SF (data_max x xs)) = Zval (Prim2SF (data_min x xs))).
    { apply (SFsub_zero_inv 901 901); auto using Prim2SF_valid; try lia.
      unfold data_range in Hconst. cbn [fsub Binary64] in Hconst.
      now rewrite FloatAxioms.sub_spec in Hconst. }
    assert (Hvm : Zval (Prim2SF v) = Zval (Prim2SF (data_min x xs))).
    { pose proof (Hlow v Hv). pose proof (Hup v Hv). lia. }
    assert (Hab : Zval (Prim2SF a) = Zval (Prim2SF b)).
    { rewrite Hvm in Ea. rewrite <- Eb in Ea.
      pose proof (pow2_pos 1074 ltac:(lia)). nia. }
    rewrite <- (SF2Prim_Prim2SF (a + (0 - b))), (Hzero Hab). reflexivity.
Qed.


End FloatColumn.

(** *** The matrix the script scales

    The counts and day numbers of the RFM table are small integers, which
    binary64 holds exactly, and the monetary values are their products with
    one constant: all lie in the range of the theorem. *)

Lemma binary_round_below (p : positive) (e K : Z) :
  -1074 <= e -> e <= 971 -> Zpos (digits2_pos p) + e + 1 <= K -> -1073 <= K <= 1024 ->
  nonneg_below K (binary_round prec emax false p e).
Proof.
  intros He He' HK HK'. unfold binary_round.
  pose proof (shl_align_grid p e He) as Hal.
  destruct (shl_align p e (fexp prec emax (Zpos (digits2_pos p) + e))) as [mz ez].
  destruct Hal as (_ & Hd & _ & _ & Hle).
  pose proof (bra_magnitude false (Zpos mz) ez loc_Exact K ltac:(lia) ltac:(lia)
                ltac:(change (Zdigits2 (Zpos mz)) with (Zpos (digits2_pos mz)); lia) HK')
    as Hmag.
  destruct (binary_round_aux prec emax false (Zpos mz) ez loc_Exact) as [s|s| |s m' e'];
    try contradiction.
  - exact I.
  - destruct Hmag as [-> Hm]. exact Hm.
Qed.

Lemma float_of_Z_below (z : Z) :
  0 <= z < 2 ^ 62 -> nonneg_below 63 (Prim2SF (float_of_Z z)).
Proof.
  intros [H0 Hz]. destruct z as [|p|p]; [exact I | | lia].
  cbn [float_of_Z]. rewrite of_uint63_spec, Uint63.of_Z_spec.
  rewrite Z.mod_small
    by (split; [lia|]; eapply Z.lt_trans; [exact Hz | reflexivity]).
  cbn [binary_normalize].
  assert (Zdigits2 (Zpos p) <= 62) by (apply Zdigits2_le; lia).
  apply binary_round_below; try lia.
  change (Zdigits2 (Zpos p)) with (Zpos (digits2_pos p)) in H. lia.
Qed.

Lemma below_in_range (v : float) :
  nonneg_below 900 (Prim2SF v) -> in_range v = true.
Proof.
  unfold in_range. rewrite !FloatAxioms.leb_spec.
  change (Prim2SF 0) with (S754_zero false).
  change (Prim2SF 0x1p+900) with (S754_finite false 4503599627370496 848).
  pose proof (Prim2SF_valid v) as V.
  destruct (Prim2SF v) as [s|[|]| |[|] m e]; try contradiction; intros Hb.
  - reflexivity.
  - destruct (valid_finite _ _ _ V) as [C _]. cbn [nonneg_below] in Hb.
    unfold SFleb. cbn [SFcompare andb].
    destruct (Z.compare_spec e 848); first [lia | reflexivity].
Qed.

Lemma unit_value_below : nonneg_below 5 (Prim2SF (unit_value (F:=float))).
Proof. vm_compute. discriminate. Qed.

Lemma rfm_norm_in_range (df : DataFrame) :
  (forall r, In r df -> - 2 ^ 31 <= timestamp r < 2 ^ 31) ->
  Z.of_nat (length df) <= 100000 ->
  forall c, In c (columns (rfm_norm (rfm (F:=float) df))) ->
  forall v, In v c -> in_range v = true.
Proof.
  intros Hts Hrows c Hc v Hv.
  assert (Hrow : exists row : RFMRow float, In row (rfm df) /\
            (v = of_int (recency row) \/ v = of_int (frequency row) \/ v = monetary row)).
  { unfold columns, rfm_norm in Hc. rewrite !map_map in Hc. cbn [In] in Hc.
    destruct Hc as [<- | [<- | [<- | []]]]; apply in_map_iff in Hv;
      destruct Hv as (row & <- & Hrow); exists row; auto. }
  destruct Hrow as (row & Hrow & Hcase). unfold rfm in Hrow.
  assert (Hsub : forall r, In r (buy_df df) -> In r df)
    by (intros r Hr; apply filter_In in Hr; tauto).
  (* the frequency is a number of rows *)
  destruct (rfm_row_purchases _ _ Hrow) as (Hfreq & Hlast & _). cbv zeta in Hfreq, Hlast.
  assert (Hf : 0 <= frequency row <= 100000).
  { rewrite Hfreq. split; [lia|].
    assert (length (filter (fun r => (user_id r =? rfm_user_id row)%Z) (buy_df df)) <=
            length df)%nat.
    { etransitivity; [apply filter_length_le|]. apply filter_length_le. }
    lia. }
  (* the recency is a number of days between two int32 timestamps *)
  destruct (recency_formula _ _ Hrow) as (ref & Href & Hle & Hrec).
  assert (Hr : 0 <= recency row < 2 ^ 32).
  { destruct (reference_date_spec _ (rfm_row_nonempty _ _ Hrow))
      as (ref' & Href' & (r0 & Hr0 & Hr0ts) & _).
    rewrite Href in Href'. injection Href' as <-.
    apply in_map_iff in Hlast. destruct Hlast as (r1 & Hr1ts & Hr1).
    apply filter_In in Hr1. destruct Hr1 as [Hr1 _].
    pose proof (Hts _ (Hsub _ Hr0)) as B0. pose proof (Hts _ (Hsub _ Hr1)) as B1.
    rewrite Hr0ts in B0. rewrite Hr1ts in B1. rewrite Hrec.
    change (2 ^ 31) with 2147483648 in *. change (2 ^ 32) with 4294967296.
    split; [apply Z.div_pos; lia|].
    apply Z.div_lt_upper_bound; lia. }
  apply below_in_range.
  destruct Hcase as [-> | [-> | ->]].
  - apply (nonneg_below_weaken 63); [lia|]. apply float_of_Z_below.
    change (2 ^ 32) with 4294967296 in Hr. change (2 ^ 62) with 4611686018427387904. lia.
  - apply (nonneg_below_weaken 63); [lia|]. apply float_of_Z_below.
    change (2 ^ 62) with 4611686018427387904. lia.
  - destruct (rfm_of_buy_row _ _ Hrow) as (_ & _ & _ & _ & _ & ->).
    cbn [fmul of_int Binary64]. rewrite FloatAxioms.mul_spec.
    apply (nonneg_below_weaken (Z.max (63 + 5 + 1) (-1073))); [lia|].
    apply (SFmul_value 63 5); auto using Prim2SF_valid, unit_value_below; [|lia].
    apply float_of_Z_below. change (2 ^ 62) with 4611686018427387904. lia.
Qed.

(** A column of values in range, scaled in binary64. *)
Lemma minmax_column_float (c : list float) :
  (forall v, In v c -> in_range v = true) ->
  (forall y, In y (minmax_column c) -> PrimFloat.leb 0%float y = true) /\
  (PrimFloat.eqb (column_range c) 0%float = true ->
   forall y, In y (minmax_column c) -> y = 0%float).
Proof.
  intros Hrange.
  assert (Hentries : forall v, In v c -> nonneg_below 901 (Prim2SF v))
    by (intros v Hv; apply in_range_below; auto).
  split.
  - intros y Hy.
    destruct (minmax_column_In _ _ Hy) as (x & xs & v & -> & Hv & ->).
    now apply (minmax_transform_float x xs Hentries v Hv).
  - intros Hconst y Hy.
    destruct (minmax_column_In _ _ Hy) as (x & xs & v & -> & Hv & ->).
    apply (minmax_transform_float x xs Hentries v Hv).
    cbn [column_range] in Hconst. rewrite FloatAxioms.eqb_spec, Prim2SF_zero in Hconst.
    destruct (Prim2SF (data_range x xs)) as [s|s| |s m e]; try discriminate.
    + eauto.
    + destruct s; discriminate.
    + destruct s; discriminate.
Qed.

(** C7 (amended). The scaler rescales each of the three columns on its own.
    The divisor it uses is never 0, because a range below [10 * eps], a zero
    range in particular, is replaced by 1 before the division.  Every scaled
    value is at least 0, and a column whose maximum equals its minimum is
    mapped to 0 throughout.  All this holds in exact arithmetic, and in
    binary64 for columns of finite values between 0 and [2^900], as the
    three columns of every RFM table built from [int32] timestamps and at
    most 100000 rows are.  Computed exactly, every scaled value is also at
    most 1. *)
Theorem minmax_scaler_unit_interval :
  (forall X Y : Matrix3 Q,
     MinMaxScaler_fit_transform X = inr Y ->
     columns Y = map minmax_column (columns X) /\
     forall c, In c (columns X) ->
       ~ (handle_zeros_in_scale (column_range c) == 0)%Q /\
       (forall y, In y (minmax_column c) -> (0 <= y <= 1)%Q) /\
       ((column_range c == 0)%Q -> forall y, In y (minmax_column c) -> (y == 0)%Q)) /\
  (forall X Y : Matrix3 float,
     MinMaxScaler_fit_transform X = inr Y ->
     columns Y = map minmax_column (columns X) /\
     forall c, In c (columns X) ->
       PrimFloat.eqb (handle_zeros_in_scale (column_range c)) 0%float = false /\
       ((forall v, In v c -> in_range v = true) ->
        (forall y, In y (minmax_column c) -> PrimFloat.leb 0%float y = true) /\
        (PrimFloat.eqb (column_range c) 0%float = true ->
         forall y, In y (minmax_column c) -> y = 0%float))) /\
  (forall df : DataFrame,
     (forall r, In r df -> - 2 ^ 31 <= timestamp r < 2 ^ 31) ->
     Z.of_nat (length df) <= 100000 ->
     forall c, In c (columns (rfm_norm (rfm (F:=float) df))) ->
       (forall v, In v c -> in_range v = true) /\
       (forall y, In y (minmax_column c) -> PrimFloat.leb 0%float y = true) /\
       (PrimFloat.eqb (column_range c) 0%float = true ->
        forall y, In y (minmax_column c) -> y = 0%float)).
Proof.
  split; [|split].
  - intros X Y HY. split; [now apply fit_transform_columns|].
    intros c _. split; [|split].
    + intros Hz.
      assert (Hpos : (0 < handle_zeros_in_scale (column_range c))%Q).
      { apply handle_zeros_in_scale_pos. destruct c as [|x xs]; simpl.
        - apply Qle_refl.
        - apply data_range_nonneg. }
      rewrite Hz in Hpos. discriminate.
    + intros y Hy.
      destruct (minmax_column_In _ _ Hy) as (x & xs & v & -> & Hv & ->).
      now apply minmax_transform_unit.
    + intros Hconst y Hy.
      destruct (minmax_column_In _ _ Hy) as (x & xs & v & -> & Hv & ->).
      now apply minmax_transform_constant.
  - intros X Y HY. split; [now apply fit_transform_columns|].
    intros c Hc. split; [apply handle_zeros_float_nonzero|].
    apply minmax_column_float.
  - intros df Hts Hrows c Hc.
    pose proof (rfm_norm_in_range df Hts Hrows c Hc) as Hrange.
    split; [exact Hrange|]. now apply minmax_column_float.
Qed.

Lemma minmax_scaler_unit_interval_witness :
  (columns sample_scaled = map minmax_column (columns (rfm_norm (rfm sample_df))) /\
   forall c, In c (columns (rfm_norm (rfm (F:=Q) sample_df))) ->
     ~ (handle_zeros_in_scale (column_range c) == 0)%Q /\
     (forall y, In y (minmax_column c) -> 0 <= y <= 1)%Q /\
     ((column_range c == 0)%Q -> forall y, In y (minmax_column c) -> (y == 0)%Q)) /\
  (forall y, In y (minmax_column (map col1 (rfm_norm (rfm (F:=float) one_and_six_df)))) ->
     PrimFloat.leb 0%float y = true).
Proof.
  split.
  - apply (proj1 minmax_scaler_unit_interval (rfm_norm (rfm sample_df)) sample_scaled).
    vm_compute. reflexivity.
  - destruct (proj1 (proj2 minmax_scaler_unit_interval)
                (rfm_norm (rfm one_and_six_df)) _ eq_refl) as [_ Hcols].
    apply (Hcols (map col1 (rfm_norm (rfm (F:=float) one_and_six_df)))).
    + right. left. reflexivity.
    + intros v Hv. vm_compute in Hv.
      repeat (destruct Hv as [<- | Hv]; [reflexivity|]). destruct Hv.
Defined.

(** C7, as stated, fails: with purchase counts 1, 1, 1, 1 and 6 the scaled
    count of the fifth user is 1.0000000000000002, above 1
    ([scale_] is the float 0.2, [6 * 0.2] rounds to 1.2000000000000002, and
    adding [min_ = -0.2] leaves the excess).  The constant recency column
    goes to 0 through the guard. *)
Lemma minmax_scaler_binary64_above_one :
  map frequency (rfm (F:=float) one_and_six_df) = [1; 1; 1; 1; 6] /\
  MinMaxScaler_fit_transform (rfm_norm (rfm (F:=float) one_and_six_df)) =
    inr [ (0, 0, 0); (0, 0, 0); (0, 0, 0); (0, 0, 0);
          (0, 1.0000000000000002, 1) ]%float /\
  minmax_transform (F:=float) 1%float [1; 1; 1; 6]%float 6%float =
    1.0000000000000002%float /\
  PrimFloat.ltb 1%float 1.0000000000000002%float = true.
Proof. repeat split. Qed.

(** ** Segment summary *)

(** *** In exact arithmetic *)

Section ExactMeans.
Local Open Scope Q_scope.

(** Without rounding the compensation of Kahan's summation stays 0 and the
    result is the plain sum. *)
Lemma kahan_sum_exact (xs : list Q) (sumx comp : Q) :
  comp == 0 -> kahan_sum xs sumx comp == sumx + Qsum xs.
Proof.
  revert sumx comp. induction xs as [|v rest IH]; intros sumx comp Hc; simpl.
  - ring.
  - rewrite IH; cbn [fadd fsub Exact].
    + rewrite Hc. ring.
    + ring.
Qed.

Lemma mean_exact (xs : list Q) :
  mean xs == Qsum xs / inject_Z (Z.of_nat (length xs)).
Proof.
  unfold mean. cbn [fdiv of_int Exact].
  rewrite kahan_sum_exact by reflexivity.
  change (inject_Z 0) with 0. unfold Qdiv. ring.
Qed.

Lemma Qsum_linear {A} (f g : A -> Q) (c : Q) (l : list A) :
  (forall a, In a l -> f a = g a * c) ->
  Qsum (map f l) == Qsum (map g l) * c.
Proof.
  induction l as [|a rest IH]; simpl; intros Hl.
  - ring.
  - rewrite IH by auto. rewrite (Hl a) by auto. ring.
Qed.

Lemma mean_linear {A} (f g : A -> Q) (c : Q) (l : list A) :
  (forall a, In a l -> f a = g a * c) ->
  mean (map f l) == mean (map g l) * c.
Proof.
  intros Hl. rewrite !mean_exact, !length_map, (Qsum_linear f g c l Hl).
  unfold Qdiv. ring.
Qed.

End ExactMeans.

Lemma assign_segment_rows {F} (rows : list (RFMRow F)) (ids : list nat)
  (s : Segment) (r : RFMRow F) :
  In (s, r) (dropna_segment (assign_segment (assign_cluster rows ids))) -> In r rows.
Proof.
  unfold dropna_segment, assign_segment, assign_cluster.
  rewrite in_flat_map. intros (sr & Hsr & Hin).
  rewrite map_map in Hsr. apply in_map_iff in Hsr. destruct Hsr as ([r0 c] & <- & Hc).
  simpl in Hin. destruct (labels c); simpl in Hin; [|tauto].
  destruct Hin as [Heq | []]. inversion Heq; subst.
  eapply in_combine_l; eauto.
Qed.

(** C10 (amended). In exact arithmetic, in every row of the segment means
    (the summary before [round(2)]) the mean monetary value is the mean
    frequency times 98/3.4, whatever the cluster labels are. *)
Theorem segment_mean_monetary_linear
  (df : DataFrame) (ids : list nat) (s : Segment) (m : Means Q) :
  In (s, m) (segment_means (assign_segment (assign_cluster (rfm df) ids))) ->
  (mean_monetary m == mean_frequency m * (98 / 3.4))%Q.
Proof.
  unfold segment_means. rewrite in_map_iff. intros ([k g] & Heq & Hg).
  inversion Heq; subst; clear Heq.
  assert (Hl : forall a : Segment * RFMRow Q, In a (members g) ->
            monetary (snd a) = (inject_Z (frequency (snd a)) * (98 / 3.4))%Q).
  { intros [s' r] Hmem.
    rewrite (groupby_members fst _ _ _ Hg) in Hmem.
    apply filter_In in Hmem. destruct Hmem as [Hmem _].
    apply assign_segment_rows in Hmem.
    destruct (rfm_of_buy_row _ _ Hmem) as (_ & _ & _ & _ & _ & Hm). exact Hm. }
  exact (mean_linear (fun r : Segment * RFMRow Q => monetary (snd r))
                     (fun r => inject_Z (frequency (snd r))) _ (members g) Hl).
Qed.

Lemma segment_mean_monetary_linear_witness :
  (mean_monetary churn_risk_means ==
   mean_frequency churn_risk_means * (98 / 3.4))%Q.
Proof.
  apply (segment_mean_monetary_linear five_users_df [0; 1; 1; 3; 1]%nat Churn_Risk).
  vm_compute. right. left. reflexivity.
Defined.

(** *** In binary64 *)

(** C10, as stated, fails: nine users who bought once each at the same
    time have equal scaled rows (all zero) and so share one cluster; the
    mean frequency of their segment is 1, its mean monetary value is
    28.82352941176471, and 1 * (98/3.4) is 28.823529411764707.  Adding the
    nine values without compensation gives 28.823529411764703 instead. *)
Lemma nine_buyers_mean_differs :
  MinMaxScaler_fit_transform (rfm_norm (rfm (F:=float) nine_buyers_df)) =
    inr (repeat (0, 0, 0)%float 9) /\
  Forall (fun cs =>
            segment_means
              (assign_segment
                 (assign_cluster (rfm (F:=float) nine_buyers_df)
                    (constant_labels (fst cs) 4%nat (Seeded 42) (repeat (0, 0, 0)%float 9)))) =
            [(snd cs, mkMeans 0 1 28.82352941176471)%float])
         [(0%nat, VIP); (1%nat, Churn_Risk); (2%nat, Loyal); (3%nat, At_Risk)] /\
  fmul 1%float unit_value = 28.823529411764707%float /\
  PrimFloat.eqb 28.82352941176471 (fmul 1%float unit_value) = false /\
  fdiv (fold_left fadd (map monetary (rfm (F:=float) nine_buyers_df)) 0%float) 9%float =
    28.823529411764703%float.
Proof. repeat constructor. Qed.

(** ** Runs of the script *)

Section Runs.
Context {F : Type} `{Arith F}.

(** A run renders lines 42-78, then scales, then clusters; an exception of
    either library call ends it with the page as it is. *)
Lemma run_cases (kmeans_labels : Labels F) (g : Z) (ui : Sidebar) (df : DataFrame) :
  run kmeans_labels g ui df =
  match MinMaxScaler_fit_transform (rfm_norm (rfm df)) with
  | inl e => (page_before_clustering ui df, inl e)
  | inr X =>
      match fit_predict kmeans_labels g (mkKMeans 4 (Some 42)) X with
      | inl e => (page_before_clustering ui df, inl e)
      | inr ids =>
          (page_before_clustering ui df ++ page_after_clustering df ids,
           inr (assign_segment (assign_cluster (rfm df) ids),
                segment_summary (assign_segment (assign_cluster (rfm df) ids))))
      end
  end.
Proof.
  unfold run, script, page_before_clustering, page_after_clustering, rfm.
  cbv [bind render lift ret].
  destruct (String.eqb (theme ui) "Dark");
    destruct (MinMaxScaler_fit_transform (rfm_norm (rfm_of_buy (buy_df df)))) as [e|X];
    try reflexivity;
    destruct (fit_predict kmeans_labels g (mkKMeans 4 (Some 42)) X) as [e|ids];
    reflexivity.
Qed.

Lemma no_purchase_no_row (df : DataFrame) : buy_df df = [] -> rfm (F:=F) df = [].
Proof. unfold rfm. intros ->. reflexivity. Qed.

(** The RFM table has as many rows as there are distinct purchasing users. *)
Lemma rfm_length_distinct_users (df : DataFrame) :
  length (rfm (F:=F) df) = length (nodup Z.eq_dec (map user_id (buy_df df))).
Proof.
  rewrite <- (length_map rfm_user_id).
  apply Permutation_length, NoDup_Permutation.
  - apply keys_sorted_NoDup, rfm_sorted_by_user.
  - apply NoDup_nodup.
  - intros u. rewrite nodup_In. unfold rfm.
    rewrite rfm_of_buy_user_ids, groupby_keys, in_map_iff.
    split; intros (r & H1 & H2); eauto.
Qed.

(** C5 (amended). With no purchase record the RFM table is empty and the
    run ends with the scaler's no-sample [ValueError], whatever the
    clustering model would answer; nothing in the script checks for the empty
    table, and by then the page holds the raw-data table and one chart, the
    histogram figure of the three empty columns. *)
Theorem no_purchase_run
  (kmeans_labels : Labels F) (g : Z) (ui : Sidebar) (df : DataFrame) :
  buy_df df = [] ->
  rfm (F:=F) df = [] /\
  run kmeans_labels g ui df =
    (page_before_clustering ui df, inl (ValueError_min_samples 0 1)) /\
  (forall other_labels other_state,
     run other_labels other_state ui df = run kmeans_labels g ui df) /\
  filter is_chart (page_before_clustering (F:=F) ui df) = [Pyplot (Histograms [] [] [])] /\
  In (Dataframe_records (firstn row_cap (filter (isin (selected_behaviors ui)) df)))
     (page_before_clustering (F:=F) ui df).
Proof.
  intros Hbuy. pose proof (no_purchase_no_row df Hbuy) as Hrfm.
  split; [exact Hrfm|].
  assert (Hrun : forall km s, run km s ui df =
            (page_before_clustering ui df, inl (ValueError_min_samples 0 1))).
  { intros km s. rewrite run_cases, Hrfm. reflexivity. }
  split; [apply Hrun|]. split; [intros km s; now rewrite !Hrun|].
  unfold page_before_clustering. rewrite Hrfm.
  destruct (String.eqb (theme ui) "Dark");
    (split; [reflexivity | cbv [app In]; auto 10]).
Qed.

(** With at least one and fewer than 4 rows in the RFM table the scaler
    returns a matrix of as many rows and [fit_predict] refuses it. *)
Lemma few_rows_fit_predict
  (kmeans_labels : Labels F) (g : Z) (row : RFMRow F) (rows : list (RFMRow F)) :
  (length (row :: rows) < 4)%nat ->
  exists X,
    MinMaxScaler_fit_transform (rfm_norm (row :: rows)) = inr X /\
    length X = length (row :: rows) /\
    fit_predict kmeans_labels g (mkKMeans 4 (Some 42)) X =
      inl (ValueError_n_samples (length (row :: rows)) 4).
Proof.
  intros Hlt.
  destruct (MinMaxScaler_fit_transform (rfm_norm (row :: rows))) as [e|X] eqn:Hscale;
    [discriminate|].
  apply fit_transform_length in Hscale.
  unfold rfm_norm in Hscale. rewrite length_map in Hscale.
  exists X. split; [reflexivity|]. split; [exact Hscale|].
  unfold fit_predict. destruct X as [|x X']; [discriminate|].
  simpl n_clusters. rewrite Hscale.
  destruct (Nat.ltb_spec (length (row :: rows)) 4); [reflexivity | lia].
Qed.

(** C6 (amended). With 1 to 3 distinct purchasing users the scaler returns
    and [KMeans.fit_predict] raises its fewer-samples-than-clusters
    [ValueError].  With no purchasing user the run does not get as far as
    the segmenter: the scaler raises its no-sample [ValueError] one line
    earlier.  Either way the run ends there, with the page as it was before
    clustering, and no cluster is assigned. *)
Theorem too_few_users_run
  (kmeans_labels : Labels F) (g : Z) (ui : Sidebar) (df : DataFrame) :
  (length (nodup Z.eq_dec (map user_id (buy_df df))) < 4)%nat ->
  ((1 <= length (nodup Z.eq_dec (map user_id (buy_df df))))%nat ->
   exists X,
     MinMaxScaler_fit_transform (rfm_norm (rfm df)) = inr X /\
     length X = length (nodup Z.eq_dec (map user_id (buy_df df))) /\
     fit_predict kmeans_labels g (mkKMeans 4 (Some 42)) X =
       inl (ValueError_n_samples (length (nodup Z.eq_dec (map user_id (buy_df df)))) 4) /\
     run kmeans_labels g ui df =
       (page_before_clustering ui df,
        inl (ValueError_n_samples (length (nodup Z.eq_dec (map user_id (buy_df df)))) 4)) /\
     cluster_assignments kmeans_labels g ui df =
       inl (ValueError_n_samples (length (nodup Z.eq_dec (map user_id (buy_df df)))) 4)) /\
  (length (nodup Z.eq_dec (map user_id (buy_df df))) = 0%nat ->
   MinMaxScaler_fit_transform (rfm_norm (rfm (F:=F) df)) =
     inl (ValueError_min_samples 0 1) /\
   run kmeans_labels g ui df =
     (page_before_clustering ui df, inl (ValueError_min_samples 0 1)) /\
   cluster_assignments kmeans_labels g ui df = inl (ValueError_min_samples 0 1)).
Proof.
  rewrite <- (rfm_length_distinct_users df). intros Hlt.
  unfold cluster_assignments. rewrite run_cases.
  destruct (rfm (F:=F) df) as [|row rows] eqn:Hrows.
  - split; [simpl; lia|]. intros _. simpl. repeat split.
  - split; [|discriminate]. intros _.
    destruct (few_rows_fit_predict kmeans_labels g row rows Hlt) as (X & HX & Hlen & Hfit).
    exists X. rewrite HX, Hfit. repeat split; assumption.
Qed.

Lemma assignments_combine (rows : list (RFMRow F)) (ids : list nat) :
  map (fun r => (rfm_user_id (rfm_row (clustered_row r)), cluster (clustered_row r)))
      (assign_segment (assign_cluster rows ids)) =
  combine (map rfm_user_id rows) ids.
Proof.
  unfold assign_segment, assign_cluster. rewrite !map_map. simpl.
  revert ids. induction rows as [|r rs IH]; intros [|c cs]; simpl; auto.
  f_equal. apply IH.
Qed.




(** The assignments pair each RFM row, in order, with the label the
    estimator gives to its scaled row. *)
Lemma cluster_assignments_labels
  (kmeans_labels : Labels F) (g : Z) (ui : Sidebar) (df : DataFrame) (X : Matrix3 F) :
  MinMaxScaler_fit_transform (rfm_norm (rfm df)) = inr X ->
  (4 <= length X)%nat ->
  cluster_assignments kmeans_labels g ui df =
    inr (combine (map rfm_user_id (rfm (F:=F) df)) (kmeans_labels 4%nat (Seeded 42) X)).
Proof.
  intros HX Hlen. unfold cluster_assignments. rewrite run_cases, HX.
  unfold fit_predict. destruct X as [|x X']; [simpl in Hlen; lia|].
  cbn [n_clusters random_state check_random_state].
  destruct (Nat.ltb_spec (length (x :: X')) 4); [lia|].
  cbv beta iota delta [snd fst]. f_equal. apply assignments_combine.
Qed.

End Runs.

Example run_sample_assignments :
  cluster_assignments (F:=float) round_robin_labels 0 sample_ui sample_df =
  inr [(1, 0%nat); (3, 1%nat); (4, 2%nat); (5, 3%nat)].
Proof. reflexivity. Qed.

Example run_sample_summary :
  option_map snd
    (match snd (run (F:=float) round_robin_labels 0 sample_ui sample_df) with
     | inr out => Some out
     | inl _ => None
     end) =
  Some [ (At_Risk, mkMeans 1 1 28.82); (Churn_Risk, mkMeans 1 1 28.82);
         (Loyal, mkMeans 1 1 28.82); (VIP, mkMeans 0 2 57.65) ]%float.
Proof. reflexivity. Qed.

(** Equal counts stay in order of first appearance; larger counts come
    first. *)
Example value_counts_ties :
  value_counts [Loyal; VIP; At_Risk; VIP; Loyal; Churn_Risk; At_Risk; At_Risk] =
  [(At_Risk, 3); (Loyal, 2); (VIP, 2); (Churn_Risk, 1)].
Proof. reflexivity. Qed.

Lemma no_purchase_run_witness :
  rfm (F:=float) views_only_df = [] /\
  run round_robin_labels 0 sample_ui views_only_df =
    (page_before_clustering sample_ui views_only_df, inl (ValueError_min_samples 0 1)) /\
  (forall other_labels other_state,
     run other_labels other_state sample_ui views_only_df =
     run round_robin_labels 0 sample_ui views_only_df) /\
  filter is_chart (page_before_clustering (F:=float) sample_ui views_only_df) =
    [Pyplot (Histograms [] [] [])] /\
  In (Dataframe_records
        (firstn row_cap (filter (isin (selected_behaviors sample_ui)) views_only_df)))
     (page_before_clustering (F:=float) sample_ui views_only_df).
Proof.
  apply (no_purchase_run round_robin_labels 0 sample_ui views_only_df).
  reflexivity.
Defined.

(** C5, as stated, fails: on an input without purchases the run does end
    with an exception, but only after the page has received eight elements,
    among them the raw-data table and a chart. *)
Lemma no_purchase_run_renders_chart :
  buy_df views_only_df = [] /\
  snd (run (F:=float) round_robin_labels 0 sample_ui views_only_df) =
    inl (ValueError_min_samples 0 1) /\
  length (fst (run (F:=float) round_robin_labels 0 sample_ui views_only_df)) = 8%nat /\
  existsb is_chart (fst (run (F:=float) round_robin_labels 0 sample_ui views_only_df)) = true /\
  filter is_chart (fst (run (F:=float) round_robin_labels 0 sample_ui views_only_df)) =
    [Pyplot (Histograms [] [] [])].
Proof. repeat split. Qed.

Lemma too_few_users_run_witness :
  (length (nodup Z.eq_dec (map user_id (buy_df (firstn 4 sample_df)))) = 3)%nat /\
  exists X,
    MinMaxScaler_fit_transform (rfm_norm (rfm (F:=float) (firstn 4 sample_df))) = inr X /\
    length X = length (nodup Z.eq_dec (map user_id (buy_df (firstn 4 sample_df)))) /\
    fit_predict round_robin_labels 0 (mkKMeans 4 (Some 42)) X =
      inl (ValueError_n_samples
             (length (nodup Z.eq_dec (map user_id (buy_df (firstn 4 sample_df))))) 4) /\
    run round_robin_labels 0 sample_ui (firstn 4 sample_df) =
      (page_before_clustering sample_ui (firstn 4 sample_df),
       inl (ValueError_n_samples
              (length (nodup Z.eq_dec (map user_id (buy_df (firstn 4 sample_df))))) 4)) /\
    cluster_assignments round_robin_labels 0 sample_ui (firstn 4 sample_df) =
      inl (ValueError_n_samples
             (length (nodup Z.eq_dec (map user_id (buy_df (firstn 4 sample_df))))) 4).
Proof.
  split; [reflexivity|].
  apply (too_few_users_run round_robin_labels 0 sample_ui (firstn 4 sample_df));
    vm_compute; lia.
Defined.

(** C6, as stated, fails: on an input without purchases, which has fewer
    than 4 distinct purchasing users, it is the scaler that raises, with its
    no-sample error; the run ends on that call, so that the segmenter is
    never called and the exception of the run is not its
    fewer-samples-than-clusters error. *)
Lemma no_purchase_scaler_raises :
  (length (nodup Z.eq_dec (map user_id (buy_df views_only_df))) <? 4)%nat = true /\
  MinMaxScaler_fit_transform (rfm_norm (rfm (F:=float) views_only_df)) =
    inl (ValueError_min_samples 0 1) /\
  snd (run (F:=float) round_robin_labels 0 sample_ui views_only_df) =
    inl (ValueError_min_samples 0 1) /\
  (forall n k,
     snd (run (F:=float) round_robin_labels 0 sample_ui views_only_df) <>
     inl (ValueError_n_samples n k)).
Proof. repeat split. intros n k. discriminate. Qed.

(** * Further properties of the script *)

(** ** groupby as a partition *)

Section GroupByPartition.
Context {K A : Type} `{KeyOrderLaws K}.
Variable key : A -> K.

Lemma group_insert_perm (a : A) (gs : list (K * Group A)) :
  Permutation (all_members (group_insert key a gs)) (a :: all_members gs).
Proof.
  unfold all_members.
  induction gs as [|[k g] rest IH]; cbn [group_insert flat_map snd].
  - reflexivity.
  - destruct (key_ltb (key a) k); [reflexivity|].
    destruct (key_eqb (key a) k); cbn [flat_map snd].
    + reflexivity.
    + rewrite IH. symmetry. apply Permutation_middle.
Qed.

Lemma groupby_perm (rows : list A) :
  Permutation (all_members (groupby key rows)) rows.
Proof.
  induction rows as [|a rest IH]; simpl.
  - reflexivity.
  - rewrite group_insert_perm. now constructor.
Qed.

Lemma all_members_length (gs : list (K * Group A)) :
  Z.of_nat (length (all_members gs)) = Zsum (map (fun kg => agg_count (snd kg)) gs).
Proof.
  unfold all_members, agg_count.
  induction gs as [|[k g] rest IH].
  - reflexivity.
  - cbn [flat_map map snd]. rewrite length_app, Nat2Z.inj_add, IH. reflexivity.
Qed.

(** The sizes of the groups add up to the number of rows. *)
Lemma groupby_count_sum (rows : list A) :
  Zsum (map (fun kg => agg_count (snd kg)) (groupby key rows)) = Z.of_nat (length rows).
Proof.
  rewrite <- all_members_length. f_equal.
  apply Permutation_length, groupby_perm.
Qed.

(** Two strictly increasing key lists with the same elements are equal. *)
Lemma keys_sorted_ext (l1 l2 : list K) :
  keys_sorted l1 -> keys_sorted l2 -> (forall k, In k l1 <-> In k l2) -> l1 = l2.
Proof.
  revert l2. induction l1 as [|a l1 IH]; intros [|b l2] S1 S2 Hin.
  - reflexivity.
  - exfalso. apply (proj2 (Hin b)). now left.
  - exfalso. apply (proj1 (Hin a)). now left.
  - destruct S1 as [A1 S1]. destruct S2 as [B2 S2].
    rewrite Forall_forall in A1, B2.
    assert (Hab : a = b).
    { destruct (proj1 (Hin a) (or_introl eq_refl)) as [E | Ha]; [now symmetry|].
      destruct (proj2 (Hin b) (or_introl eq_refl)) as [E | Hb]; [exact E|].
      specialize (A1 _ Hb). specialize (B2 _ Ha).
      pose proof (key_ltb_trans _ _ _ A1 B2) as Hc.
      now rewrite key_ltb_irrefl in Hc. }
    subst b. f_equal. apply IH; auto.
    intros k. split; intros Hk.
    + destruct (proj1 (Hin k) (or_intror Hk)) as [E | Hk']; [|exact Hk'].
      subst k. specialize (A1 _ Hk). now rewrite key_ltb_irrefl in A1.
    + destruct (proj2 (Hin k) (or_intror Hk)) as [E | Hk']; [|exact Hk'].
      subst k. specialize (B2 _ Hk). now rewrite key_ltb_irrefl in B2.
Qed.

(** The keys of a groupby depend only on which keys occur. *)
Lemma groupby_keys_ext (rows rows' : list A) :
  (forall a, In a rows <-> In a rows') ->
  map fst (groupby key rows) = map fst (groupby key rows').
Proof.
  intros Hin. apply keys_sorted_ext; try apply groupby_sorted.
  intros k. rewrite !groupby_keys.
  split; intros (a & Ha & Hk); exists a; split; auto; now apply Hin.
Qed.

(** X1. [groupby] is a partition of the rows by key: every row lies in
    exactly one group (the groups together are a rearrangement of the rows),
    the keys appear in strictly increasing order, and the group filed under
    a key holds exactly the rows of that key, in their original order. *)
Theorem groupby_partition (rows : list A) :
  Permutation (all_members (groupby key rows)) rows /\
  keys_sorted (map fst (groupby key rows)) /\
  (forall k g, In (k, g) (groupby key rows) ->
               members g = filter (fun a => key_eqb (key a) k) rows) /\
  (forall a, In a rows -> exists g, In (key a, g) (groupby key rows)).
Proof.
  split; [apply groupby_perm|]. split; [apply groupby_sorted|]. split.
  - intros k g. apply groupby_members.
  - intros a Ha.
    assert (Hk : In (key a) (map fst (groupby key rows)))
      by (apply groupby_keys; eauto).
    apply in_map_iff in Hk. destruct Hk as ([k g] & Hk & Hin).
    simpl in Hk. subst k. eauto.
Qed.

End GroupByPartition.

Lemma groupby_partition_witness :
  Permutation (all_members (groupby user_id sample_df)) sample_df /\
  keys_sorted (map fst (groupby user_id sample_df)) /\
  (forall k g, In (k, g) (groupby user_id sample_df) ->
               members g = filter (fun a => key_eqb (user_id a) k) sample_df) /\
  (forall a, In a sample_df -> exists g, In (user_id a, g) (groupby user_id sample_df)).
Proof.
  exact (groupby_partition (H0:=Z_KeyOrderLaws) user_id sample_df).
Defined.

(** ** The RFM table as a function of the purchases *)

Lemma filter_perm {A} (f : A -> bool) (l l' : list A) :
  Permutation l l' -> Permutation (filter f l) (filter f l').
Proof.
  induction 1 as [|x l l' _ IH|x y l|l l' l'' _ IH1 _ IH2]; simpl.
  - constructor.
  - destruct (f x); [now constructor | exact IH].
  - destruct (f x), (f y); try reflexivity. constructor.
  - now transitivity (filter f l').
Qed.

Lemma max_of_perm (l l' : list Z) : Permutation l l' -> max_of l = max_of l'.
Proof.
  intros Hp. destruct l as [|x xs].
  - apply Permutation_nil in Hp. now subst l'.
  - destruct l' as [|y ys].
    + symmetry in Hp. apply Permutation_nil in Hp. discriminate.
    + simpl. symmetry. apply list_max_char.
      * apply (Permutation_in _ Hp). apply list_max_In.
      * intros z Hz. symmetry in Hp. apply (Permutation_in _ Hp) in Hz.
        destruct (list_max_upper xs x) as [Hx Hxs].
        destruct Hz as [<- | Hz]; auto.
Qed.

Lemma series_max_max_of (l : list Z) :
  series_max l = match l with [] => None | _ => Some (max_of l) end.
Proof. destruct l; reflexivity. Qed.

Lemma series_max_perm (l l' : list Z) :
  Permutation l l' -> series_max l = series_max l'.
Proof.
  intros Hp. rewrite !series_max_max_of, (max_of_perm _ _ Hp).
  destruct l, l'; try reflexivity.
  - apply Permutation_nil in Hp. discriminate.
  - symmetry in Hp. apply Permutation_nil in Hp. discriminate.
Qed.

Lemma agg_of_perm (buy buy' : DataFrame) (u : Z) :
  Permutation buy buy' -> agg_of buy u = agg_of buy' u.
Proof.
  intros Hp. unfold agg_of.
  pose proof (filter_perm (fun r => user_id r =? u) _ _ Hp) as Hf.
  cbv zeta. f_equal; [f_equal|].
  - apply max_of_perm. now apply Permutation_map.
  - f_equal. now apply Permutation_length.
Qed.

(** The aggregation of line 60, user by user. *)
Lemma rfm_agg_by_user (buy : DataFrame) :
  rfm_agg buy = map (agg_of buy) (map fst (groupby user_id buy)).
Proof.
  unfold rfm_agg. rewrite map_map. apply map_ext_in.
  intros [u g] Hin. cbn [fst snd]. unfold agg_of. cbv zeta.
  pose proof (groupby_members user_id buy u g Hin) as Hm. simpl in Hm.
  rewrite <- Hm. unfold agg_count, agg_max, members. reflexivity.
Qed.

Lemma rfm_of_buy_perm {F} `{Arith F} (buy buy' : DataFrame) :
  Permutation buy buy' -> rfm_of_buy (F:=F) buy = rfm_of_buy buy'.
Proof.
  intros Hp. unfold rfm_of_buy, reference_date.
  rewrite (series_max_perm _ _ (Permutation_map timestamp Hp)).
  rewrite !rfm_agg_by_user.
  rewrite (groupby_keys_ext user_id buy buy')
    by (intros a; split; apply Permutation_in; [|symmetry]; exact Hp).
  f_equal. apply map_ext. intros u. now apply agg_of_perm.
Qed.

Lemma keys_sorted_strongly (ks : list Z) : keys_sorted ks -> StronglySorted Z.lt ks.
Proof.
  induction ks as [|k rest IH]; simpl; intros Hs; constructor.
  - apply IH, Hs.
  - destruct Hs as [Hall _]. eapply Forall_impl; [|exact Hall].
    simpl. intros k'. apply Z.ltb_lt.
Qed.

Section RFMTable.
Context {F : Type} `{Arith F}.

(** X2. Every row of the RFM table has a frequency of at least 1, and the
    frequencies add up to the number of purchase records: each purchase is
    counted for exactly one user. *)
Theorem rfm_frequency_total (df : DataFrame) :
  Forall (fun row : RFMRow F => 1 <= frequency row) (rfm df) /\
  Zsum (map frequency (rfm (F:=F) df)) = Z.of_nat (length (buy_df df)).
Proof.
  unfold rfm. split.
  - apply Forall_forall. intros row Hrow.
    destruct (rfm_of_buy_row _ _ Hrow) as (g & _ & _ & Hf & _).
    rewrite Hf. unfold agg_count, members. simpl length. lia.
  - rewrite <- (groupby_count_sum user_id (buy_df df)). f_equal.
    unfold rfm_of_buy, rfm_agg. rewrite !map_map.
    apply map_ext. intros [u g]. reflexivity.
Qed.

(** X3. The RFM table depends only on which purchase records there are:
    reordering the rows of the input, or adding and removing rows that are
    not purchases, leaves it unchanged. *)
Theorem rfm_order_independent (df df' : DataFrame) :
  Permutation (buy_df df) (buy_df df') -> rfm (F:=F) df = rfm df'.
Proof. unfold rfm. apply rfm_of_buy_perm. Qed.

(** X4. The rows of the RFM table are in strictly increasing order of
    user id. *)
Theorem rfm_rows_ascending (df : DataFrame) :
  StronglySorted Z.lt (map rfm_user_id (rfm (F:=F) df)).
Proof. apply keys_sorted_strongly, rfm_sorted_by_user. Qed.

(** X5. Within one RFM table, a user whose last purchase is not earlier than
    another's has a recency that is not larger; and a recency is 0 exactly
    when the last purchase is less than a day (86400 seconds) before the
    latest purchase of all. *)
Theorem recency_antitone (df : DataFrame) (row row' : RFMRow F) :
  In row (rfm df) -> In row' (rfm df) ->
  (last_purchase_date row <= last_purchase_date row' -> recency row' <= recency row) /\
  (recency row = 0 <->
   exists ref, reference_date (buy_df df) = Some ref /\
               ref - last_purchase_date row < 86400).
Proof.
  unfold rfm. intros Hrow Hrow'.
  destruct (recency_formula _ _ Hrow) as (ref & Href & Hle & Hrec).
  destruct (recency_formula _ _ Hrow') as (ref' & Href' & Hle' & Hrec').
  rewrite Href in Href'. injection Href' as <-.
  split.
  - intros Hlast. rewrite Hrec, Hrec'. apply Z.div_le_mono; lia.
  - rewrite Hrec. split.
    + intros Hz. exists ref. split; [exact Href|].
      apply Z.div_small_iff in Hz; lia.
    + intros (ref' & Href' & Hlt). rewrite Href in Href'. injection Href' as <-.
      apply Z.div_small. lia.
Qed.

(** X6. The cluster assignments of a run depend only on which purchase
    records there are: neither the order of the input rows, nor the rows
    that are not purchases, nor the sidebar, nor the state of the generator
    of the process can change them. *)
Theorem cluster_assignments_purchases_only
  (kmeans_labels : Labels F) (g g' : Z) (ui ui' : Sidebar) (df df' : DataFrame) :
  Permutation (buy_df df) (buy_df df') ->
  cluster_assignments kmeans_labels g ui df =
    cluster_assignments kmeans_labels g' ui' df'.
Proof.
  intros Hp. unfold cluster_assignments. rewrite !run_cases.
  assert (Hrfm : rfm (F:=F) df = rfm df') by (unfold rfm; now apply rfm_of_buy_perm).
  rewrite Hrfm.
  destruct (MinMaxScaler_fit_transform (rfm_norm (rfm df'))) as [e|X]; [reflexivity|].
  change (fit_predict kmeans_labels g' (mkKMeans 4 (Some 42)) X)
    with (fit_predict kmeans_labels g (mkKMeans 4 (Some 42)) X).
  destruct (fit_predict kmeans_labels g (mkKMeans 4 (Some 42)) X) as [e|ids]; reflexivity.
Qed.

End RFMTable.

Lemma rfm_order_independent_witness :
  rfm (F:=float) sample_df = rfm (mkBehavior 9 1 1 "fav" 0 :: rev sample_df).
Proof.
  apply (rfm_order_independent sample_df (mkBehavior 9 1 1 "fav" 0 :: rev sample_df)).
  change (buy_df (mkBehavior 9 1 1 "fav" 0 :: rev sample_df))
    with (rev (buy_df sample_df)).
  apply Permutation_rev.
Defined.

Lemma recency_antitone_witness :
  (last_purchase_date (mkRFM 3 10 1 1 28.823529411764707%float) <=
   last_purchase_date (mkRFM 1 100000 2 0 57.647058823529413%float) ->
   recency (mkRFM 1 100000 2 0 57.647058823529413%float) <=
   recency (mkRFM 3 10 1 1 28.823529411764707%float)) /\
  (recency (mkRFM 3 10 1 1 28.823529411764707%float) = 0 <->
   exists ref, reference_date (buy_df sample_df) = Some ref /\
               ref - last_purchase_date (mkRFM 3 10 1 1 28.823529411764707%float) < 86400).
Proof.
  apply (recency_antitone sample_df).
  - vm_compute. right. left. reflexivity.
  - vm_compute. left. reflexivity.
Defined.

Lemma cluster_assignments_purchases_only_witness :
  cluster_assignments (F:=float) round_robin_labels 0 sample_ui sample_df =
  cluster_assignments round_robin_labels 7 (mkSidebar [] "Dark")
    (mkBehavior 9 1 1 "fav" 0 :: rev sample_df).
Proof.
  apply (cluster_assignments_purchases_only round_robin_labels).
  change (buy_df (mkBehavior 9 1 1 "fav" 0 :: rev sample_df))
    with (rev (buy_df sample_df)).
  apply Permutation_rev.
Defined.

(** ** The scaled minimum, in binary64 *)



(** ** Successful runs and their counts *)

Lemma combine_fst_snd {A B} (l : list A) (l' : list B) :
  length l' = length l ->
  map fst (combine l l') = l /\ map snd (combine l l') = l'.
Proof.
  revert l'. induction l as [|a l IH]; intros [|b l'] Hlen; simpl in *;
    try discriminate; auto.
  destruct (IH l') as [H1 H2]; [lia|]. now rewrite H1, H2.
Qed.

Lemma Zsum_perm (l l' : list Z) : Permutation l l' -> Zsum l = Zsum l'.
Proof.
  induction 1; simpl; lia.
Qed.

Lemma insert_desc_perm {K} (x : K * Z) (l : list (K * Z)) :
  Permutation (insert_desc x l) (x :: l).
Proof.
  induction l as [|y rest IH]; simpl; [reflexivity|].
  destruct (snd y <=? snd x); [reflexivity|].
  rewrite IH. apply perm_swap.
Qed.

Lemma insertion_sort_perm {K} (l : list (K * Z)) :
  Permutation (fold_right insert_desc [] l) l.
Proof.
  induction l as [|x rest IH]; simpl; [reflexivity|].
  rewrite insert_desc_perm. now constructor.
Qed.

Lemma insert_desc_sorted {K} (x : K * Z) (l : list (K * Z)) :
  StronglySorted (fun a b => snd b <= snd a) l ->
  StronglySorted (fun a b => snd b <= snd a) (insert_desc x l).
Proof.
  induction l as [|y rest IH]; simpl; intros Hs.
  - repeat constructor.
  - inversion Hs as [|? ? Hrest Hall]; subst.
    destruct (Z.leb_spec (snd y) (snd x)).
    + constructor; [exact Hs|]. constructor; [assumption|].
      eapply Forall_impl; [|exact Hall]. simpl. intros; lia.
    + constructor; [now apply IH|].
      apply Forall_forall. intros z Hz.
      apply (Permutation_in _ (insert_desc_perm x rest)) in Hz.
      destruct Hz as [<- | Hz]; [lia|].
      rewrite Forall_forall in Hall. auto.
Qed.

Lemma dropna_all_labelled {F} (rows : list (ClusteredRow F)) :
  Forall (fun r => (cluster r < 4)%nat) rows ->
  length (dropna_segment (assign_segment rows)) = length rows.
Proof.
  unfold dropna_segment, assign_segment.
  induction rows as [|r rest IH]; intros Hall; simpl; [reflexivity|].
  inversion Hall as [|? ? Hr Hrest]; subst.
  rewrite length_app, IH by assumption.
  destruct (cluster r) as [|[|[|[|n]]]]; simpl; try reflexivity. lia.
Qed.

(** ** Value counts *)

Section ValueCounts.
Context {K A : Type} `{KeyOrderLaws K}.
Variable key : A -> K.

Lemma existsb_key_In (x : K) (l : list K) :
  existsb (key_eqb x) l = true <-> In x l.
Proof.
  rewrite existsb_exists. split.
  - intros (y & Hy & E). apply key_eqb_eq in E. now subst.
  - intros Hx. exists x. split; [exact Hx | now apply key_eqb_eq].
Qed.

Lemma first_seen_spec (l seen : list K) :
  NoDup (first_seen seen l) /\
  (forall x, In x (first_seen seen l) <-> In x l /\ ~ In x seen).
Proof.
  revert seen. induction l as [|a rest IH]; intros seen; simpl.
  - split; [constructor | tauto].
  - destruct (existsb (key_eqb a) seen) eqn:E.
    + apply existsb_key_In in E. destruct (IH seen) as [Hnd Hin].
      split; [exact Hnd|]. intros x. rewrite Hin.
      split; [tauto|]. intros [[<- | Hx] Hn]; tauto.
    + assert (Ha : ~ In a seen)
        by (intros Hin; apply existsb_key_In in Hin; congruence).
      destruct (IH (a :: seen)) as [Hnd Hin]. split.
      * constructor; [|exact Hnd]. rewrite Hin. simpl. tauto.
      * intros x. simpl. rewrite Hin. simpl.
        destruct (key_eqb a x) eqn:Eax.
        -- apply key_eqb_eq in Eax. subst x. tauto.
        -- assert (a <> x) by (intros ->; rewrite (proj2 (key_eqb_eq x x) eq_refl) in Eax;
                               discriminate).
           tauto.
Qed.

Lemma occurrences_rows (k : K) (rows : list A) :
  occurrences k (map key rows) =
  Z.of_nat (length (filter (fun a => key_eqb (key a) k) rows)).
Proof.
  unfold occurrences. f_equal.
  induction rows as [|a rest IH]; simpl; [reflexivity|].
  replace (key_eqb k (key a)) with (key_eqb (key a) k).
  - destruct (key_eqb (key a) k); simpl; now rewrite IH.
  - destruct (key_eqb (key a) k) eqn:E1, (key_eqb k (key a)) eqn:E2; try reflexivity.
    + apply key_eqb_eq in E1. rewrite E1 in E2.
      rewrite (proj2 (key_eqb_eq k k) eq_refl) in E2. discriminate.
    + apply key_eqb_eq in E2. rewrite E2 in E1.
      rewrite (proj2 (key_eqb_eq (key a) (key a)) eq_refl) in E1. discriminate.
Qed.

(** Before sorting, the tally of [value_counts] holds the sizes of the
    groups of [groupby], in another order. *)
Lemma tally_perm_sizes (rows : list A) :
  Permutation
    (map (fun k => (k, occurrences k (map key rows))) (first_seen [] (map key rows)))
    (map (fun kg => (fst kg, agg_count (snd kg))) (groupby key rows)).
Proof.
  destruct (first_seen_spec (map key rows) []) as [Hnd Hin].
  apply NoDup_Permutation.
  - apply (NoDup_map_inv fst). rewrite map_map. cbn [fst]. now rewrite map_id.
  - apply (NoDup_map_inv fst). rewrite map_map. cbn [fst].
    apply keys_sorted_NoDup, groupby_sorted.
  - intros [k n]. rewrite !in_map_iff. split.
    + intros (k' & E & Hk'). inversion E; subst; clear E.
      apply Hin in Hk'. destruct Hk' as [Hk' _].
      assert (Hkey : In k (map fst (groupby key rows))).
      { apply groupby_keys. apply in_map_iff in Hk'.
        destruct Hk' as (a & <- & Ha). eauto. }
      apply in_map_iff in Hkey. destruct Hkey as ([k0 g] & E & Hg).
      cbn [fst] in E. subst k0. exists (k, g). split; [|exact Hg].
      cbn [fst snd]. f_equal. rewrite occurrences_rows. unfold agg_count.
      now rewrite (groupby_members key rows k g Hg).
    + intros ([k0 g] & E & Hg). cbn [fst snd] in E. inversion E; subst; clear E.
      exists k. split.
      * f_equal. rewrite occurrences_rows. unfold agg_count.
        now rewrite (groupby_members key rows k g Hg).
      * apply Hin. split; [|tauto].
        assert (Hkey : In k (map fst (groupby key rows)))
          by (apply in_map_iff; exists (k, g); auto).
        apply groupby_keys in Hkey. destruct Hkey as (a & Ha & <-).
        now apply in_map.
Qed.

Lemma value_counts_perm_sizes (rows : list A) :
  Permutation (value_counts (map key rows))
    (map (fun kg => (fst kg, agg_count (snd kg))) (groupby key rows)).
Proof.
  unfold value_counts. rewrite insertion_sort_perm. apply tally_perm_sizes.
Qed.

End ValueCounts.

Section RunCounts.
Context {F : Type} `{Arith F}.

(** X9. With at least 4 distinct purchasing users neither library call
    raises: the run returns, the page is the part before clustering
    followed by the part after it, and, when the estimator returns one label
    per row, every purchasing user gets exactly one cluster, in increasing
    order of user id. *)
Theorem enough_users_run
  (kmeans_labels : Labels F) (g : Z) (ui : Sidebar) (df : DataFrame) :
  (4 <= length (nodup Z.eq_dec (map user_id (buy_df df))))%nat ->
  exists X,
    MinMaxScaler_fit_transform (rfm_norm (rfm df)) = inr X /\
    length X = length (rfm (F:=F) df) /\
    run kmeans_labels g ui df =
      (page_before_clustering ui df ++ page_after_clustering df (kmeans_labels 4%nat (Seeded 42) X),
       inr (assign_segment (assign_cluster (rfm df) (kmeans_labels 4%nat (Seeded 42) X)),
            segment_summary
              (assign_segment (assign_cluster (rfm df) (kmeans_labels 4%nat (Seeded 42) X))))) /\
    (length (kmeans_labels 4%nat (Seeded 42) X) = length X ->
     exists a, cluster_assignments kmeans_labels g ui df = inr a /\
               map fst a = map rfm_user_id (rfm (F:=F) df) /\
               map snd a = kmeans_labels 4%nat (Seeded 42) X).
Proof.
  rewrite <- (rfm_length_distinct_users (F:=F) df). intros Hn.
  destruct (MinMaxScaler_fit_transform (rfm_norm (rfm df))) as [e|X] eqn:HX.
  { destruct (rfm (F:=F) df); [simpl in Hn; lia | discriminate]. }
  pose proof (fit_transform_length _ _ HX) as Hlen.
  unfold rfm_norm in Hlen. rewrite length_map in Hlen.
  exists X. split; [reflexivity|]. split; [exact Hlen|].
  assert (Hfit : fit_predict kmeans_labels g (mkKMeans 4 (Some 42)) X =
                 inr (kmeans_labels 4%nat (Seeded 42) X)).
  { unfold fit_predict. destruct X as [|x X']; [simpl in Hlen; lia|].
    cbn [n_clusters random_state check_random_state].
    destruct (Nat.ltb_spec (length (x :: X')) 4); [lia | reflexivity]. }
  split.
  - rewrite run_cases, HX, Hfit. reflexivity.
  - intros Hlab. eexists. split.
    + apply cluster_assignments_labels; [exact HX | lia].
    + apply combine_fst_snd. rewrite length_map. lia.
Qed.

(** X10. When the estimator returns one label per row, the counts of the pie
    chart add up to the number of distinct purchasing users; when moreover
    every label is one of 0, 1, 2, 3, so do the counts of the bar plot. *)
Theorem counts_total (df : DataFrame) (ids : list nat) :
  length ids = length (rfm (F:=F) df) ->
  Zsum (map snd (cluster_counts (assign_cluster (rfm (F:=F) df) ids))) =
    Z.of_nat (length (nodup Z.eq_dec (map user_id (buy_df df)))) /\
  (Forall (fun c => (c < 4)%nat) ids ->
   Zsum (map snd (segment_counts (assign_segment (assign_cluster (rfm (F:=F) df) ids)))) =
     Z.of_nat (length (nodup Z.eq_dec (map user_id (buy_df df))))).
Proof.
  intros Hlen. rewrite <- (rfm_length_distinct_users (F:=F) df).
  assert (Hrows : length (assign_cluster (rfm (F:=F) df) ids) = length (rfm (F:=F) df)).
  { unfold assign_cluster. rewrite length_map, length_combine. lia. }
  split.
  - unfold cluster_counts. rewrite map_map. cbn [snd].
    rewrite groupby_count_sum. now rewrite Hrows.
  - intros Hids. unfold segment_counts.
    rewrite (Zsum_perm _ _ (Permutation_map snd (value_counts_perm_sizes fst _))).
    rewrite map_map. cbn [snd]. rewrite groupby_count_sum.
    rewrite dropna_all_labelled; [now rewrite Hrows|].
    unfold assign_cluster. apply Forall_forall. intros r Hr.
    apply in_map_iff in Hr. destruct Hr as ([row c] & <- & Hin).
    apply in_combine_r in Hin. rewrite Forall_forall in Hids. now apply Hids.
Qed.

(** X11. The bars of the segment plot are in order of decreasing count, and
    they are the per-segment row counts, each segment once. *)
Theorem segment_counts_descending (rows : list (SegmentedRow F)) :
  StronglySorted (fun a b => snd b <= snd a) (segment_counts rows) /\
  Permutation (segment_counts rows)
    (map (fun kg => (fst kg, agg_count (snd kg))) (groupby fst (dropna_segment rows))) /\
  NoDup (map fst (segment_counts rows)).
Proof.
  unfold segment_counts. split; [|split].
  - unfold value_counts.
    induction (map (fun k : Segment =>
                      (k, occurrences k (map fst (dropna_segment rows))))
                   (first_seen [] (map fst (dropna_segment rows)))) as [|x l IH]; simpl.
    + constructor.
    + now apply insert_desc_sorted.
  - apply value_counts_perm_sizes.
  - eapply Permutation_NoDup.
    + apply Permutation_map. symmetry. apply (value_counts_perm_sizes fst).
    + rewrite map_map. cbn [fst].
      apply keys_sorted_NoDup, groupby_sorted.
Qed.

End RunCounts.

Lemma enough_users_run_witness :
  exists X,
    MinMaxScaler_fit_transform (rfm_norm (rfm sample_df)) = inr X /\
    length X = length (rfm (F:=float) sample_df) /\
    run round_robin_labels 0 sample_ui sample_df =
      (page_before_clustering sample_ui sample_df ++
       page_after_clustering sample_df (round_robin_labels 4%nat (Seeded 42) X),
       inr (assign_segment (assign_cluster (rfm sample_df) (round_robin_labels 4%nat (Seeded 42) X)),
            segment_summary
              (assign_segment
                 (assign_cluster (rfm sample_df) (round_robin_labels 4%nat (Seeded 42) X))))) /\
    (length (round_robin_labels 4%nat (Seeded 42) X) = length X ->
     exists a, cluster_assignments round_robin_labels 0 sample_ui sample_df = inr a /\
               map fst a = map rfm_user_id (rfm (F:=float) sample_df) /\
               map snd a = round_robin_labels 4%nat (Seeded 42) X).
Proof.
  apply (enough_users_run round_robin_labels 0 sample_ui sample_df).
  vm_compute. lia.
Defined.

Lemma counts_total_witness :
  Zsum (map snd (cluster_counts (assign_cluster (rfm (F:=float) sample_df) [0; 1; 1; 3]%nat))) =
    Z.of_nat (length (nodup Z.eq_dec (map user_id (buy_df sample_df)))) /\
  (Forall (fun c => (c < 4)%nat) [0; 1; 1; 3]%nat ->
   Zsum (map snd (segment_counts
                    (assign_segment
                       (assign_cluster (rfm (F:=float) sample_df) [0; 1; 1; 3]%nat)))) =
     Z.of_nat (length (nodup Z.eq_dec (map user_id (buy_df sample_df))))).
Proof.
  apply (counts_total sample_df [0; 1; 1; 3]%nat).
  reflexivity.
Defined.

(** ** The segment summary *)

Lemma dropna_segment_In {F} (rows : list (SegmentedRow F)) (s : Segment) :
  In s (map fst (dropna_segment rows)) <-> exists r, In r rows /\ segment r = Some s.
Proof.
  unfold dropna_segment. rewrite in_map_iff. split.
  - intros ([s' row] & Hs & Hin). simpl in Hs. subst s'.
    apply in_flat_map in Hin. destruct Hin as (r & Hr & Hin).
    exists r. split; [exact Hr|].
    destruct (segment r) as [s0|]; simpl in Hin; [|tauto].
    destruct Hin as [E | []]. now inversion E.
  - intros (r & Hr & Hs). exists (s, rfm_row (clustered_row r)). split; [reflexivity|].
    apply in_flat_map. exists r. split; [exact Hr|]. rewrite Hs. now left.
Qed.

Lemma segment_keys_sorted (ks : list Segment) :
  keys_sorted ks -> StronglySorted (fun a b => (segment_rank a < segment_rank b)%nat) ks.
Proof.
  induction ks as [|k rest IH]; simpl; intros Hs; constructor.
  - apply IH, Hs.
  - destruct Hs as [Hall _]. eapply Forall_impl; [|exact Hall].
    simpl. intros k'. apply Nat.ltb_lt.
Qed.

Section Summary.
Context {F : Type} `{Arith F}.

(** X12. The index of the segment summary lists each segment that has at
    least one user, once, in the alphabetical order of the segment names
    (At_Risk, Churn Risk, Loyal, VIP); a segment without users has no row, so
    the table has at most four rows. *)
Theorem segment_summary_index (rows : list (SegmentedRow F)) :
  StronglySorted (fun a b => (segment_rank a < segment_rank b)%nat)
                 (map fst (segment_summary rows)) /\
  (forall s, In s (map fst (segment_summary rows)) <->
             exists r, In r rows /\ segment r = Some s) /\
  (length (segment_summary rows) <= 4)%nat.
Proof.
  assert (Hkeys : map fst (segment_summary rows) =
                  map fst (groupby fst (dropna_segment rows))).
  { unfold segment_summary, segment_means. rewrite !map_map. reflexivity. }
  rewrite Hkeys. split; [|split].
  - apply segment_keys_sorted, groupby_sorted.
  - intros s. rewrite groupby_keys, <- dropna_segment_In, in_map_iff.
    split; intros (a & H1 & H2); eauto.
  - rewrite <- (length_map fst), Hkeys.
    apply (NoDup_incl_length (l' := [At_Risk; Churn_Risk; Loyal; VIP])).
    + apply keys_sorted_NoDup, groupby_sorted.
    + intros [] _; simpl; tauto.
Qed.

End Summary.

(** ** Sidebar options and the raw table (lines 44-56) *)

Lemma existsb_eqb_In (x : string) (l : list string) :
  existsb (String.eqb x) l = true <-> In x l.
Proof.
  rewrite existsb_exists. split.
  - intros (y & Hy & E). apply String.eqb_eq in E. now subst.
  - intros Hx. exists x. split; [exact Hx | apply String.eqb_refl].
Qed.

Lemma unique_spec (l seen : list string) :
  NoDup (unique seen l) /\
  (forall x, In x (unique seen l) <-> In x l /\ ~ In x seen).
Proof.
  revert seen. induction l as [|a rest IH]; intros seen; simpl.
  - split; [constructor | tauto].
  - destruct (existsb (String.eqb a) seen) eqn:E.
    + apply existsb_eqb_In in E. destruct (IH seen) as [Hnd Hin].
      split; [exact Hnd|]. intros x. rewrite Hin.
      split; [tauto|]. intros [[<- | Hx] Hn]; tauto.
    + assert (Ha : ~ In a seen)
        by (intros Hin; apply existsb_eqb_In in Hin; congruence).
      destruct (IH (a :: seen)) as [Hnd Hin]. split.
      * constructor; [|exact Hnd]. rewrite Hin. simpl. tauto.
      * intros x. simpl. rewrite Hin. simpl.
        destruct (string_dec a x) as [<- | Hne]; tauto.
Qed.

Lemma filter_all {A} (f : A -> bool) (l : list A) :
  (forall x, In x l -> f x = true) -> filter f l = l.
Proof.
  induction l as [|a rest IH]; intros Hl; simpl; [reflexivity|].
  rewrite (Hl a) by now left. f_equal. apply IH. intros; apply Hl; now right.
Qed.

Lemma firstn_incl {A} (n : nat) (l : list A) (x : A) : In x (firstn n l) -> In x l.
Proof.
  intros Hx. rewrite <- (firstn_skipn n l). apply in_or_app. now left.
Qed.

Lemma row_cap_value : Z.of_nat row_cap = 100000.
Proof. unfold row_cap. apply Z2Nat.id. discriminate. Qed.

Lemma behavior_options_aux (df : DataFrame) (r : BehaviorRecord) :
  In r df -> In (behavior_type r) (unique [] (map behavior_type df)).
Proof.
  intros Hr. destruct (unique_spec (map behavior_type df) []) as [_ Hin].
  apply Hin. split; [now apply in_map | tauto].
Qed.

(** X15. The options offered by the behaviour filter are the behaviour types
    that occur in the data, each exactly once. *)
Theorem behavior_options (df : DataFrame) :
  NoDup (unique [] (map behavior_type df)) /\
  (forall b, In b (unique [] (map behavior_type df)) <->
             exists r, In r df /\ behavior_type r = b).
Proof.
  destruct (unique_spec (map behavior_type df) []) as [Hnd Hin].
  split; [exact Hnd|]. intros b. rewrite Hin, in_map_iff. simpl.
  split.
  - intros [(r & E & Hr) _]. eauto.
  - intros (r & Hr & E). split; [eauto | tauto].
Qed.

(** X16. The raw table shows at most 100000 rows, all of them rows of the
    data whose behaviour type is selected; with the default selection (every
    behaviour type offered) and no more than 100000 rows of data it shows the
    data unchanged. *)
Theorem raw_table_rows (ui : Sidebar) (df : DataFrame) :
  Z.of_nat (length (firstn row_cap (filter (isin (selected_behaviors ui)) df))) <= 100000 /\
  (forall r, In r (firstn row_cap (filter (isin (selected_behaviors ui)) df)) ->
             In r df /\ In (behavior_type r) (selected_behaviors ui)) /\
  (selected_behaviors ui = unique [] (map behavior_type df) ->
   Z.of_nat (length df) <= 100000 ->
   firstn row_cap (filter (isin (selected_behaviors ui)) df) = df).
Proof.
  split; [|split].
  - rewrite <- row_cap_value. apply Nat2Z.inj_le, firstn_le_length.
  - intros r Hr. apply firstn_incl, filter_In in Hr. destruct Hr as [Hr Hsel].
    split; [exact Hr|]. now apply existsb_eqb_In.
  - intros Hdef Hlen. rewrite filter_all.
    + apply firstn_all2. apply Nat2Z.inj_le. now rewrite row_cap_value.
    + intros r Hr. unfold isin. apply existsb_eqb_In. rewrite Hdef.
      apply behavior_options_aux. exact Hr.
Qed.

(** ** Time series (lines 129-139) *)

#[export] Instance YearMonth_KeyOrderLaws : KeyOrderLaws (Z * Z).
Proof.
  split; simpl.
  - intros [a1 a2] [b1 b2]. simpl. rewrite andb_true_iff, !Z.eqb_eq.
    split; [intros [-> ->]; reflexivity | intros E; inversion E; auto].
  - intros [a1 a2]. simpl. rewrite !Z.ltb_irrefl, Z.eqb_refl. reflexivity.
  - intros [a1 a2] [b1 b2] [c1 c2]. simpl.
    rewrite !orb_true_iff, !andb_true_iff, !Z.ltb_lt, !Z.eqb_eq. lia.
  - intros [a1 a2] [b1 b2]. simpl.
    rewrite !orb_false_iff, !andb_false_iff, orb_true_iff, andb_true_iff,
            !Z.ltb_ge, !Z.eqb_neq, !Z.ltb_lt, Z.eqb_eq. lia.
Qed.

Section GroupSizes.
Context {K A : Type} `{KeyOrderLaws K}.
Variable key : A -> K.

Lemma sizes_spec (rows : list A) (k : K) (n : Z) :
  In (k, n) (sizes key rows) ->
  n = Z.of_nat (length (filter (fun a => key_eqb (key a) k) rows)) /\ 1 <= n.
Proof.
  unfold sizes. rewrite in_map_iff. intros ([k' g] & E & Hin).
  inversion E; subst; clear E. cbn [fst snd].
  unfold agg_count. rewrite (groupby_members key rows k g Hin) at 1.
  split; [reflexivity|]. unfold members. simpl length. lia.
Qed.

Lemma group_members_key (rows : list A) (k : K) (g : Group A) (a : A) :
  In (k, g) (groupby key rows) -> In a (members g) -> key a = k.
Proof.
  intros Hin Ha. rewrite (groupby_members key rows k g Hin) in Ha.
  apply filter_In in Ha. now apply key_eqb_eq.
Qed.

(** Keeping the groups whose key satisfies [P] keeps the rows whose key
    satisfies [P]. *)
Lemma all_members_filter (P : K -> bool) (gs : list (K * Group A)) :
  (forall k g a, In (k, g) gs -> In a (members g) -> key a = k) ->
  all_members (filter (fun kg => P (fst kg)) gs) =
  filter (fun a => P (key a)) (all_members gs).
Proof.
  unfold all_members. induction gs as [|[k g] rest IH]; intros Hom.
  - reflexivity.
  - cbn [filter flat_map fst snd]. rewrite filter_app.
    rewrite <- IH by (intros; eapply Hom; [right|]; eauto).
    assert (Hg : forall a, In a (members g) -> P (key a) = P k).
    { intros a Ha. f_equal. eapply Hom; [left; reflexivity | exact Ha]. }
    destruct (P k) eqn:E.
    + cbn [flat_map snd]. f_equal. symmetry. now apply filter_all.
    + replace (filter (fun a => P (key a)) (members g)) with (@nil A); [reflexivity|].
      symmetry. clear - Hg. induction (members g) as [|a l IHl]; [reflexivity|].
      simpl. rewrite (Hg a) by now left. apply IHl. intros; apply Hg; now right.
Qed.

Lemma sizes_filter_sum (P : K -> bool) (rows : list A) :
  Zsum (map snd (filter (fun kn => P (fst kn)) (sizes key rows))) =
  Z.of_nat (length (filter (fun a => P (key a)) rows)).
Proof.
  unfold sizes.
  assert (E : filter (fun kn : K * Z => P (fst kn))
                (map (fun kg => (fst kg, agg_count (snd kg))) (groupby key rows)) =
              map (fun kg => (fst kg, agg_count (snd kg)))
                (filter (fun kg => P (fst kg)) (groupby key rows))).
  { induction (groupby key rows) as [|kg l IH]; [reflexivity|].
    simpl. destruct (P (fst kg)); simpl; now rewrite IH. }
  rewrite E, map_map. cbn [snd].
  rewrite <- all_members_length, all_members_filter
    by (intros k g a; apply group_members_key).
  f_equal. apply Permutation_length, filter_perm, groupby_perm.
Qed.

End GroupSizes.

Lemma month_range (d : Z) : 1 <= snd (year_month_of_day d) <= 12.
Proof.
  unfold year_month_of_day. cbv zeta. cbn [snd].
  match goal with |- context [if ?b then _ else _] => destruct b eqn:E end.
  - apply Z.ltb_lt in E. revert E. Z.to_euclidean_division_equations. lia.
  - apply Z.ltb_ge in E. revert E. Z.to_euclidean_division_equations. lia.
Qed.

Example year_month_examples :
  map year_month_of_day [0; -1; 58; 59; 11016; 11017; 17486; 17531; 17532; 24855] =
  [(1970, 1); (1969, 12); (1970, 2); (1970, 3); (2000, 2); (2000, 3);
   (2017, 11); (2017, 12); (2018, 1); (2038, 1)].
Proof. reflexivity. Qed.

(** X17. The daily purchase series lists the days with at least one
    purchase in increasing order, each with the number of purchases made on
    that day, and the numbers add up to the number of purchase records. *)
Theorem daily_counts_spec (df : DataFrame) :
  StronglySorted Z.lt (map fst (daily_counts df)) /\
  (forall d n, In (d, n) (daily_counts df) ->
     n = Z.of_nat (length (filter (fun r => timestamp r / 86400 =? d) (buy_df df))) /\
     1 <= n) /\
  Zsum (map snd (daily_counts df)) = Z.of_nat (length (buy_df df)).
Proof.
  unfold daily_counts. split; [|split].
  - rewrite map_map. cbn [fst]. apply keys_sorted_strongly. apply groupby_sorted.
  - intros d n Hin.
    exact (sizes_spec (fun r => date_of (timestamp r)) (buy_df df) d n Hin).
  - rewrite map_map. cbn [snd]. apply groupby_count_sum.
Qed.

(** X18. The monthly purchase series is the daily series added up month by
    month: the count of a month is the sum of the daily counts of the days
    that fall in it; the month numbers lie between 1 and 12, and the monthly
    counts add up to the number of purchase records. *)
Theorem monthly_counts_spec (df : DataFrame) :
  (forall ym n, In (ym, n) (monthly_counts df) ->
     1 <= snd ym <= 12 /\
     n = Zsum (map snd (filter (fun dn => key_eqb (year_month_of_day (fst dn)) ym)
                               (daily_counts df)))) /\
  Zsum (map snd (monthly_counts df)) = Z.of_nat (length (buy_df df)).
Proof.
  unfold monthly_counts. split.
  - intros ym n Hin.
    pose proof (sizes_spec (fun r => month_of (timestamp r)) (buy_df df) ym n Hin)
      as [Hn _].
    split.
    + apply in_map_iff in Hin. destruct Hin as (kg & E & Hg).
      assert (Hfst : fst kg = ym) by (now inversion E).
      assert (Hk : In ym (map fst (groupby (fun r => month_of (timestamp r)) (buy_df df))))
        by (rewrite <- Hfst; now apply in_map).
      apply groupby_keys in Hk. destruct Hk as (r & _ & <-). apply month_range.
    + rewrite Hn. symmetry.
      exact (sizes_filter_sum (fun r => date_of (timestamp r))
               (fun d => key_eqb (year_month_of_day d) ym) (buy_df df)).
  - rewrite map_map. cbn [snd]. apply groupby_count_sum.
Qed.

(** ** Metrics (lines 152-154) *)

Lemma list_min_lower (xs : list Z) (x : Z) :
  list_min x xs <= x /\ forall y, In y xs -> list_min x xs <= y.
Proof.
  unfold list_min. revert x.
  induction xs as [|z rest IH]; simpl; intros x.
  - split; [lia | tauto].
  - destruct (IH (Z.min x z)) as [H1 H2]. split; [lia|].
    intros y [-> | Hy]; [lia | auto].
Qed.

Lemma list_min_In (xs : list Z) (x : Z) : In (list_min x xs) (x :: xs).
Proof.
  unfold list_min. revert x.
  induction xs as [|z rest IH]; simpl; intros x; auto.
  destruct (IH (Z.min x z)) as [Heq | Hin]; auto.
  rewrite <- Heq. destruct (Z.min_spec x z) as [[_ ->] | [_ ->]]; auto.
Qed.

Lemma latest_last_purchase {F} `{Arith F} (buy : DataFrame) (ref : Z) :
  reference_date buy = Some ref ->
  series_max (map last_purchase_date (rfm_of_buy (F:=F) buy)) = Some ref.
Proof.
  intros Href.
  destruct (most_recent_row (F:=F) _ _ Href) as (top & Htop & Hlast).
  assert (Hin : In ref (map last_purchase_date (rfm_of_buy (F:=F) buy)))
    by (rewrite <- Hlast; now apply in_map).
  assert (Hub : forall y, In y (map last_purchase_date (rfm_of_buy (F:=F) buy)) -> y <= ref).
  { intros y Hy. apply in_map_iff in Hy. destruct Hy as (r & <- & Hr).
    now apply last_purchase_le_reference with buy. }
  destruct (map last_purchase_date (rfm_of_buy (F:=F) buy)) as [|x xs]; [destruct Hin|].
  simpl. f_equal. now apply list_max_char.
Qed.

(** X19. The "Total Users" metric is the number of distinct purchasing
    users.  When there is a purchase, the "Date Range" metric ends on the day
    of the latest purchase of all and starts on the earliest day on which
    some user bought for the last time; every user's last purchase day lies
    between the two. *)
Theorem metrics_spec {F} `{Arith F} (df : DataFrame) :
  total_users (rfm (F:=F) df) =
    Z.of_nat (length (nodup Z.eq_dec (map user_id (buy_df df)))) /\
  (buy_df df <> [] ->
   exists lo hi ref,
     date_range (rfm (F:=F) df) = Some (lo, hi) /\
     reference_date (buy_df df) = Some ref /\ hi = ref / 86400 /\
     (exists row : RFMRow F, In row (rfm df) /\ last_purchase_date row / 86400 = lo) /\
     (forall row : RFMRow F, In row (rfm df) ->
        lo <= last_purchase_date row / 86400 <= hi)).
Proof.
  split.
  - unfold total_users. f_equal. apply rfm_length_distinct_users.
  - intros Hne. unfold rfm, date_range.
    destruct (reference_date_spec _ Hne) as (ref & Href & _).
    rewrite (latest_last_purchase _ _ Href).
    destruct (most_recent_row (F:=F) _ _ Href) as (top & Htop & Hlast).
    destruct (rfm_of_buy (F:=F) (buy_df df)) as [|r0 rs] eqn:Hrows; [destruct Htop|].
    cbn [map series_min].
    exists (date_of (list_min (last_purchase_date r0) (map last_purchase_date rs))),
           (date_of ref), ref.
    split; [reflexivity|]. split; [exact Href|]. split; [reflexivity|].
    destruct (list_min_lower (map last_purchase_date rs) (last_purchase_date r0))
      as [Hm0 Hm].
    split.
    + pose proof (list_min_In (map last_purchase_date rs) (last_purchase_date r0)) as Hin.
      change (last_purchase_date r0 :: map last_purchase_date rs)
        with (map last_purchase_date (r0 :: rs)) in Hin.
      apply in_map_iff in Hin. destruct Hin as (row & E & Hrow).
      exists row. split; [exact Hrow|]. unfold date_of. now rewrite E.
    + intros row Hrow.
      assert (Hlo : list_min (last_purchase_date r0) (map last_purchase_date rs)
                    <= last_purchase_date row).
      { destruct Hrow as [<- | Hrow]; [exact Hm0|]. apply Hm. now apply in_map. }
      assert (Hhi : last_purchase_date row <= ref).
      { apply last_purchase_le_reference with (buy_df df); [exact Href|].
        rewrite Hrows. exact Hrow. }
      unfold date_of, seconds_per_day. split; apply Z.div_le_mono; lia.
Qed.
